(** * tailtracker: the head-embedded tail tracker of [tailtracker/tracker.py]

    A shallow embedding of the [TailTracker] class (seed estimation,
    preprocessing, the arc search of [track] and the tail angle), followed by
    the properties of the tracker that its specification states.

    Numbers.  Pixel coordinates, lengths and counts are Python integers: [Z].
    Intensities and angles are float64 values.  The code is embedded over an
    interface of the float operations it uses ([FloatArith] for the
    arithmetic, [Float64] with the elementary functions), so that every
    definition below is the code's own sequence of operations, whatever the
    arithmetic.  The interface is instantiated with the real numbers
    ([R_Float64]: the exact semantics of the operations, without rounding,
    used where a property is a fact of geometry) and, for the arithmetic,
    with the IEEE 754 binary64 format ([B64], which computes) and with the
    reals rounded after every operation ([Rounded]).

    Objects.  A tracker is the record of its attributes; a method is a
    function from the tracker to the tracker it leaves and to what it
    returns or raises.  A frame is a 2-D array, the list of its rows.

    Libraries.  The numpy functions that the tracker calls ([max],
    [linspace], [argmin], [argmax], indexing with index arrays, [mean]) are
    embedded with the behaviour numpy documents; OpenCV's box filter is a
    parameter of the tracker. *)

From Stdlib Require Import String Ascii.
From Stdlib Require Import ZArith List Bool Lia.
From Stdlib Require Import Reals Lra.
From Stdlib Require Import Floats.SpecFloat.
Import ListNotations.

Local Open Scope Z_scope.

(** ** Python outcomes *)

(** The exceptions that the modelled code paths can raise. *)
Inductive exn : Type :=
| IndexError
| ValueError
| ZeroDivisionError.

(** The outcome of evaluating an expression: a value, or a raised exception. *)
Inductive outcome (A : Type) : Type :=
| Return (a : A)
| Raise (e : exn).
Arguments Return {A} a.
Arguments Raise {A} e.

Definition obind {A B : Type} (o : outcome A) (k : A -> outcome B) : outcome B :=
  match o with
  | Return a => k a
  | Raise e => Raise e
  end.

Definition of_option {A : Type} (e : exn) (o : option A) : outcome A :=
  match o with
  | Some a => Return a
  | None => Raise e
  end.

(** ** The float64 operations used by the tracker *)

(** The arithmetic that IEEE 754 defines. *)
Class FloatArith (F : Type) : Type := {
  of_int : Z -> F;                (* int -> float conversion *)
  fadd : F -> F -> F;
  fsub : F -> F -> F;
  fmul : F -> F -> F;
  fdiv : F -> F -> F;             (* numpy true division: never raises *)
  fopp : F -> F;
  fle : F -> F -> bool;           (* IEEE [<=]: false when an operand is NaN *)
  fsqrt : F -> F;
  to_int : F -> Z                 (* [astype(int)] and [int(...)]: truncation *)
}.

(** The arithmetic together with the elementary functions of the math
    library. *)
Class Float64 (F : Type) : Type := {
  arith :: FloatArith F;
  fpi : F;                        (* [np.pi] *)
  fcos : F -> F;
  fsin : F -> F;
  farctan2 : F -> F -> F          (* [np.arctan2 y x] *)
}.

(** A 2-D array of samples, as the list of its rows. *)
Definition grid (F : Type) : Type := list (list F).

(** A chain point [[x, y]]. *)
Definition point : Type := (Z * Z)%type.

(** The two values of the [_minmax_function] attribute. *)
Inductive minmax : Type :=
| np_argmin
| np_argmax.

(** ** String helpers: [str.lower] on ASCII letters

    A string is the list of its characters, one byte each.  On a name of
    ASCII characters ([isascii] below) [lower] is [str.lower]; the letters
    beyond ASCII that [str.lower] also maps are not represented. *)

Definition lower_ascii (c : ascii) : ascii :=
  let n := nat_of_ascii c in
  if (Nat.leb 65 n && Nat.leb n 90)%bool then ascii_of_nat (n + 32) else c.

Fixpoint lower (s : string) : string :=
  match s with
  | EmptyString => EmptyString
  | String c s' => String (lower_ascii c) (lower s')
  end.

Section Numpy.
Context {F : Type} {FA : FloatArith F}.

(** A value is NaN exactly when it does not compare [<=] to itself. *)
Definition isnan (v : F) : bool := negb (fle v v).

(** [np.maximum]: NaN propagates. *)
Definition maximum (a b : F) : F :=
  if isnan a then a
  else if isnan b then b
  else if fle a b then b else a.

(** [np.max] of a whole array; an array without samples has no maximum. *)
Definition np_max (a : grid F) : outcome F :=
  match concat a with
  | [] => Raise ValueError
  | v :: vs => Return (fold_left maximum vs v)
  end.

(** [a / m] for an array [a] and a scalar [m]. *)
Definition divide (a : grid F) (m : F) : grid F :=
  map (map (fun v => fdiv v m)) a.

(** [np.linspace(start, stop, num)] with its default [endpoint=True]:
    [arange(num) * step + start], the last sample set to [stop]. *)
Definition linspace (start stop : F) (num : nat) : list F :=
  let step := fdiv (fsub stop start) (of_int (Z.of_nat (num - 1))) in
  map (fun i : nat =>
         if Nat.eqb i (num - 1) then stop
         else fadd (fmul (of_int (Z.of_nat i)) step) start)
      (seq 0 num).

(** The scan of [np.argmin] over the samples after the first: [mp] is the
    least sample so far, found at index [best]; [i] is the index of the
    head of the remaining samples.  A sample replaces [mp] when it is not
    [>= mp]; a NaN ends the scan. *)
Fixpoint argmin_from (mp : F) (best i : nat) (l : list F) : nat :=
  match l with
  | [] => best
  | v :: l' =>
      if fle mp v then argmin_from mp best (S i) l'
      else if isnan v then i
      else argmin_from v i (S i) l'
  end.

Definition argmin (l : list F) : outcome nat :=
  match l with
  | [] => Raise ValueError
  | v :: l' => if isnan v then Return 0%nat else Return (argmin_from v 0 1 l')
  end.

(** [np.argmax]: a sample replaces [mp] when it is not [<= mp]. *)
Fixpoint argmax_from (mp : F) (best i : nat) (l : list F) : nat :=
  match l with
  | [] => best
  | v :: l' =>
      if fle v mp then argmax_from mp best (S i) l'
      else if isnan v then i
      else argmax_from v i (S i) l'
  end.

Definition argmax (l : list F) : outcome nat :=
  match l with
  | [] => Raise ValueError
  | v :: l' => if isnan v then Return 0%nat else Return (argmax_from v 0 1 l')
  end.

Definition apply_minmax (f : minmax) (l : list F) : outcome nat :=
  match f with
  | np_argmin => argmin l
  | np_argmax => argmax l
  end.

(** An index into an axis of length [dim]: [0 <= i < dim] is taken as it
    is, [-dim <= i < 0] counts from the end, anything else is out of
    bounds. *)
Definition normalize_index (dim i : Z) : option nat :=
  if (0 <=? i) && (i <? dim) then Some (Z.to_nat i)
  else if (- dim <=? i) && (i <? 0) then Some (Z.to_nat (i + dim))
  else None.

Definition len {A : Type} (l : list A) : Z := Z.of_nat (length l).

(** [a[y, x]] for a 2-D array. *)
Definition getitem (a : grid F) (y x : Z) : outcome F :=
  match normalize_index (len a) y with
  | None => Raise IndexError
  | Some r =>
      match nth_error a r with
      | None => Raise IndexError
      | Some row =>
          match normalize_index (len row) x with
          | None => Raise IndexError
          | Some c => of_option IndexError (nth_error row c)
          end
      end
  end.

(** [a[ys, xs]] for index arrays [ys] and [xs] of one length: the samples
    [a[ys[i], xs[i]]], or IndexError when one of them is out of bounds. *)
Fixpoint take (a : grid F) (ys xs : list Z) : outcome (list F) :=
  match ys, xs with
  | y :: ys', x :: xs' =>
      obind (getitem a y x) (fun v =>
      obind (take a ys' xs') (fun vs => Return (v :: vs)))
  | _, _ => Return []
  end.

(** [l[i]] for a Python list or 1-D array and an index [i >= 0]. *)
Definition item {A : Type} (l : list A) (i : nat) : outcome A :=
  of_option IndexError (nth_error l i).

(** [l[-1]]. *)
Definition last_item {A : Type} (l : list A) : outcome A :=
  match l with
  | [] => Raise IndexError
  | _ => item l (length l - 1)
  end.

(** [l[-n:]]: the last [n] elements for [n > 0] (all of [l] when it has
    fewer), all of [l] for [n = 0] (the slice [l[0:]]), and [l] without its
    first [-n] elements for [n < 0]. *)
Definition slice_from_neg {A : Type} (n : Z) (l : list A) : list A :=
  if 0 <? n then skipn (length l - Z.to_nat n) l
  else skipn (Z.to_nat (- n)) l.

(** [np.mean] of a column of integers: float64 sum over the count. *)
Definition mean (col : list Z) : F :=
  fdiv (fold_left fadd (map of_int col) (of_int 0)) (of_int (len col)).

End Numpy.

(** ** The tracker object *)

(** The attributes of a [TailTracker] instance.  [_background] and
    [_minmax_function] are the two attributes written by the [background]
    setter; the last six are the processing attributes that [track]
    overwrites. *)
Record TailTracker (F : Type) : Type := mkTailTracker {
  start_point : option point;
  tail_length : option Z;
  n_points : option Z;
  start_angle : F;
  _background : string;
  _minmax_function : minmax;
  ksize : Z;
  n_tip_points : Z;
  _image : option (grid F);
  _normalized : option (grid F);
  _filtered : option (grid F);
  points : list point;
  points_array : list point;
  tail_angle : F
}.
Arguments mkTailTracker {F}.
Arguments start_point {F}.
Arguments tail_length {F}.
Arguments n_points {F}.
Arguments start_angle {F}.
Arguments _background {F}.
Arguments _minmax_function {F}.
Arguments ksize {F}.
Arguments n_tip_points {F}.
Arguments _image {F}.
Arguments _normalized {F}.
Arguments _filtered {F}.
Arguments points {F}.
Arguments points_array {F}.
Arguments tail_angle {F}.

(** ** Methods: computations that read and write the attributes of [self]
    and may raise *)

Definition M (S A : Type) : Type := S -> S * outcome A.

Definition ret {S A : Type} (a : A) : M S A := fun s => (s, Return a).

Definition bind {S A B : Type} (m : M S A) (k : A -> M S B) : M S B :=
  fun s =>
    match m s with
    | (s', Return a) => k a s'
    | (s', Raise e) => (s', Raise e)
    end.

Definition get {S : Type} : M S S := fun s => (s, Return s).

Definition modify {S : Type} (f : S -> S) : M S unit := fun s => (f s, Return tt).

Definition lift {S A : Type} (o : outcome A) : M S A := fun s => (s, o).

(** [try: body except IndexError: handler]; what [body] wrote before it
    raised stays written. *)
Definition try_except_IndexError {S A : Type} (body handler : M S A) : M S A :=
  fun s =>
    match body s with
    | (s', Raise IndexError) => handler s'
    | r => r
    end.

Declare Scope method_scope.
Delimit Scope method_scope with method.
Notation "x <- m ;; k" := (bind m (fun x => k))
  (at level 61, m at next level, right associativity) : method_scope.
Notation "' p <- m ;; k" := (bind m (fun x => match x with p => k end))
  (at level 61, p pattern, m at next level, right associativity) : method_scope.
Notation "m ;;; k" := (bind m (fun _ => k))
  (at level 61, right associativity) : method_scope.

Section Attributes.
Context {F : Type} {FA : FloatArith F}.

(** [cv2.boxFilter(src, -1, (ksize, ksize), dst)] belongs to OpenCV; the
    tracker is embedded over it. *)
Variable boxFilter : Z -> grid F -> grid F.

Local Abbreviation Tracker := (TailTracker F).

(** Attribute assignments. *)
Definition set_background_attrs (b : string) (f : minmax) (t : Tracker) : Tracker :=
  mkTailTracker (start_point t) (tail_length t) (n_points t) (start_angle t)
    b f (ksize t) (n_tip_points t)
    (_image t) (_normalized t) (_filtered t) (points t) (points_array t) (tail_angle t).

Definition set_image (v : option (grid F)) (t : Tracker) : Tracker :=
  mkTailTracker (start_point t) (tail_length t) (n_points t) (start_angle t)
    (_background t) (_minmax_function t) (ksize t) (n_tip_points t)
    v (_normalized t) (_filtered t) (points t) (points_array t) (tail_angle t).

Definition set_normalized (v : option (grid F)) (t : Tracker) : Tracker :=
  mkTailTracker (start_point t) (tail_length t) (n_points t) (start_angle t)
    (_background t) (_minmax_function t) (ksize t) (n_tip_points t)
    (_image t) v (_filtered t) (points t) (points_array t) (tail_angle t).

Definition set_filtered (v : option (grid F)) (t : Tracker) : Tracker :=
  mkTailTracker (start_point t) (tail_length t) (n_points t) (start_angle t)
    (_background t) (_minmax_function t) (ksize t) (n_tip_points t)
    (_image t) (_normalized t) v (points t) (points_array t) (tail_angle t).

Definition set_points (v : list point) (t : Tracker) : Tracker :=
  mkTailTracker (start_point t) (tail_length t) (n_points t) (start_angle t)
    (_background t) (_minmax_function t) (ksize t) (n_tip_points t)
    (_image t) (_normalized t) (_filtered t) v (points_array t) (tail_angle t).

Definition set_points_array (v : list point) (t : Tracker) : Tracker :=
  mkTailTracker (start_point t) (tail_length t) (n_points t) (start_angle t)
    (_background t) (_minmax_function t) (ksize t) (n_tip_points t)
    (_image t) (_normalized t) (_filtered t) (points t) v (tail_angle t).

Definition set_tail_angle (v : F) (t : Tracker) : Tracker :=
  mkTailTracker (start_point t) (tail_length t) (n_points t) (start_angle t)
    (_background t) (_minmax_function t) (ksize t) (n_tip_points t)
    (_image t) (_normalized t) (_filtered t) (points t) (points_array t) v.

(** The [background] setter: the lowered name is stored, and the function
    used to find tail points is [np.argmin] unless the name is "dark". *)
Definition background_setter (val : string) (t : Tracker) : Tracker :=
  let b := lower val in
  set_background_attrs b (if String.eqb b "dark" then np_argmax else np_argmin) t.

(** [TailTracker.__init__]. *)
Definition init (start_point : option point) (tail_length n_points : option Z)
    (start_angle : F) (background : string) (ksize n_tip_points : Z) : Tracker :=
  background_setter background
    (mkTailTracker start_point tail_length n_points start_angle
       EmptyString np_argmin ksize n_tip_points
       None None None [] [] (of_int 0)).

Local Open Scope method_scope.

(** [TailTracker.preprocess]. *)
Definition preprocess (image : grid F) : M Tracker (grid F) :=
  modify (set_image (Some image)) ;;;
  m <- lift (np_max image) ;;
  modify (set_normalized (Some (divide image m))) ;;;
  self <- get ;;
  modify (set_filtered (Some (boxFilter (ksize self) (divide image m)))) ;;;
  ret (boxFilter (ksize self) (divide image m)).

End Attributes.

Section Tracker.
Context {F : Type} {FL : Float64 F}.
Variable boxFilter : Z -> grid F -> grid F.
Local Abbreviation Tracker := (TailTracker F).

(** [TailTracker.from_points((p0, p1), n, background=..., ksize=...,
    n_tip_points=...)]. *)
Definition from_points (p0 p1 : point) (n : option Z)
    (background : string) (ksize n_tip_points : Z) : Tracker :=
  let v := (fst p1 - fst p0, snd p1 - snd p0) in
  let norm := fsqrt (fadd (fmul (of_int (fst v)) (of_int (fst v)))
                          (fmul (of_int (snd v)) (of_int (snd v)))) in
  let d := to_int norm in
  let angle := farctan2 (of_int (- snd v)) (of_int (fst v)) in
  init (Some p0) (Some d) n angle background ksize n_tip_points.

(** [TailTracker.compute_tail_angle(tail_points, n_points, baseline)] for
    the points of one frame. *)
Definition compute_tail_angle (tail_points : list point) (n_points : Z)
    (baseline : F) : outcome F :=
  let v0 := (fcos baseline, fsin baseline) in
  let tip := slice_from_neg n_points tail_points in
  let m := (mean (map fst tip), mean (map snd tip)) in
  obind (item tail_points 0) (fun p0 =>
  let v1 := (fsub (fst m) (of_int (fst p0)), fsub (snd m) (of_int (snd p0))) in
  let x := fsub (fst v1) (fst v0) in
  let y := fsub (snd v1) (snd v0) in
  Return (farctan2 (fopp y) x)).

Local Open Scope method_scope.

(** The [try] block of the loop of [track], from the current [x], [y] and
    [arc]; it returns their new values.  [xs], [ys] and [arc] have one
    length, so the three lookups at [idx] succeed or fail together: when the
    block raises, no local variable has been assigned. *)
Definition track_try (track_image : grid F) (spacing : F)
    (x y : Z) (arc : list F) : M Tracker (Z * Z * list F) :=
  let xs := map (fun th => to_int (fadd (of_int x) (fmul spacing (fcos th)))) arc in
  let ys := map (fun th => to_int (fsub (of_int y) (fmul spacing (fsin th)))) arc in
  self <- get ;;
  samples <- lift (take track_image ys xs) ;;
  idx <- lift (apply_minmax (_minmax_function self) samples) ;;
  x' <- lift (item xs idx) ;;
  y' <- lift (item ys idx) ;;
  a <- lift (item arc idx) ;;
  let arc' := linspace (fsub a (fdiv fpi (of_int 2)))
                       (fadd a (fdiv fpi (of_int 2))) 20 in
  modify (fun t => set_points (points t ++ [(x', y')]) t) ;;;
  ret (x', y', arc').

(** The [except IndexError] block: the last point is appended again, and
    [x], [y] and [arc] are as they were. *)
Definition track_except (x y : Z) (arc : list F) : M Tracker (Z * Z * list F) :=
  self <- get ;;
  p <- lift (last_item (points self)) ;;
  modify (fun t => set_points (points t ++ [p]) t) ;;;
  ret (x, y, arc).

(** [for j in range(n): try: ... except IndexError: ...], [n] iterations. *)
Fixpoint track_loop (track_image : grid F) (spacing : F) (n : nat)
    (x y : Z) (arc : list F) : M Tracker unit :=
  match n with
  | O => ret tt
  | S n' =>
      '(x', y', arc') <-
        try_except_IndexError (track_try track_image spacing x y arc)
                              (track_except x y arc) ;;
      track_loop track_image spacing n' x' y' arc'
  end.

(** [float(tail_length) / n_points] for Python numbers. *)
Definition float_div (a b : Z) : outcome F :=
  if b =? 0 then Raise ZeroDivisionError else Return (fdiv (of_int a) (of_int b)).

(** [TailTracker.track]: [None] when the tracker is not configured,
    otherwise the tail angle. *)
Definition track (image : grid F) : M Tracker (option F) :=
  self <- get ;;
  match start_point self, tail_length self, n_points self with
  | Some (x, y), Some tlen, Some n =>
      track_image <- preprocess boxFilter image ;;
      spacing <- lift (float_div tlen n) ;;
      let arc := map (fun a => fadd a (start_angle self))
                   (linspace (fdiv (fopp fpi) (of_int 2)) (fdiv fpi (of_int 2)) 20) in
      modify (set_points [(x, y)]) ;;;
      track_loop track_image spacing (Z.to_nat n) x y arc ;;;
      modify (fun t => set_points_array (points t) t) ;;;
      self <- get ;;
      angle <- lift (compute_tail_angle (points_array self) (n_tip_points self)
                       (start_angle self)) ;;
      modify (set_tail_angle angle) ;;;
      ret (Some angle)
  | _, _, _ => ret None
  end.

(** What the caller of [track] has afterwards: nothing for a tracker that
    is not configured, the angle and the points otherwise, or the
    exception (the points attributes are then not those of this call). *)
Definition track_result (r : Tracker * outcome (option F))
  : outcome (option (F * list point)) :=
  match snd r with
  | Return None => Return None
  | Return (Some a) => Return (Some (a, points_array (fst r)))
  | Raise e => Raise e
  end.

(** Tracking the frames of [history], one after the other. *)
Definition track_all (history : list (grid F)) (t : Tracker) : Tracker :=
  fold_left (fun t image => fst (track image t)) history t.

End Tracker.

(** ** The loop of [track] as a function of its local variables

    [step_result] is what the [try] block computes from [x], [y] and [arc];
    [chain_loop] is the list of points that [n] iterations leave in
    [self.points].  [track_loop] is shown below to compute exactly these. *)

Section Chain.
Context {F : Type} {FL : Float64 F}.

Definition arc_xs (spacing : F) (x : Z) (arc : list F) : list Z :=
  map (fun th => to_int (fadd (of_int x) (fmul spacing (fcos th)))) arc.

Definition arc_ys (spacing : F) (y : Z) (arc : list F) : list Z :=
  map (fun th => to_int (fsub (of_int y) (fmul spacing (fsin th)))) arc.

Definition next_arc (a : F) : list F :=
  linspace (fsub a (fdiv fpi (of_int 2))) (fadd a (fdiv fpi (of_int 2))) 20.

Definition step_result (f : minmax) (track_image : grid F) (spacing : F)
    (x y : Z) (arc : list F) : outcome (Z * Z * list F) :=
  obind (take track_image (arc_ys spacing y arc) (arc_xs spacing x arc)) (fun samples =>
  obind (apply_minmax f samples) (fun idx =>
  obind (item (arc_xs spacing x arc) idx) (fun x' =>
  obind (item (arc_ys spacing y arc) idx) (fun y' =>
  obind (item arc idx) (fun a =>
  Return (x', y', next_arc a)))))).

Fixpoint chain_loop (f : minmax) (track_image : grid F) (spacing : F) (n : nat)
    (x y : Z) (arc : list F) (pts : list point) : list point * outcome unit :=
  match n with
  | O => (pts, Return tt)
  | S n' =>
      match step_result f track_image spacing x y arc with
      | Return (x', y', arc') =>
          chain_loop f track_image spacing n' x' y' arc' (pts ++ [(x', y')])
      | Raise IndexError =>
          match last_item pts with
          | Return p => chain_loop f track_image spacing n' x y arc (pts ++ [p])
          | Raise e => (pts, Raise e)
          end
      | Raise e => (pts, Raise e)
      end
  end.

(** The first arc of [track]. *)
Definition first_arc (start_angle : F) : list F :=
  map (fun a => fadd a start_angle)
      (linspace (fdiv (fopp fpi) (of_int 2)) (fdiv fpi (of_int 2)) 20).

(** The attributes that configure a tracker, as opposed to the processing
    attributes that [track] writes. *)
Definition config (t : TailTracker F)
  : option point * option Z * option Z * F * string * minmax * Z * Z :=
  (start_point t, tail_length t, n_points t, start_angle t,
   _background t, _minmax_function t, ksize t, n_tip_points t).

(** The shape of a 2-D array, and what makes a list of rows one. *)
Definition height (a : grid F) : Z := len a.
Definition width (a : grid F) : Z := len (hd [] a).
Definition rectangular (a : grid F) : Prop :=
  forall row, In row a -> len row = width a.

(** Indices that numpy accepts on an axis of length [dim]. *)
Definition index_ok (dim i : Z) : Prop := - dim <= i < dim.

(** The position that an accepted index denotes. *)
Definition wrapped (dim i : Z) : Z := if i <? 0 then i + dim else i.

(** The sample stored at row [wrapped (height a) y], column
    [wrapped (width a) x]. *)
Definition at_wrapped (a : grid F) (y x : Z) : option F :=
  match nth_error a (Z.to_nat (wrapped (height a) y)) with
  | Some row => nth_error row (Z.to_nat (wrapped (width a) x))
  | None => None
  end.

(** The candidate pixels of a step, as pairs [(x, y)]. *)
Definition candidates (spacing : F) (x y : Z) (arc : list F) : list point :=
  combine (arc_xs spacing x arc) (arc_ys spacing y arc).

End Chain.

(** ** OpenCV's box filter

    A model of [cv2.boxFilter(src, -1, (k, k))] with its defaults (anchor at
    the kernel centre, normalized, border reflected without repeating the
    edge sample), for running the tracker on concrete frames.  Every
    property below is proved for an arbitrary filter. *)

Section BoxFilter.
Context {F : Type} {FA : FloatArith F}.

(** [cv2.borderInterpolate(p, len, BORDER_REFLECT_101)]. *)
Definition reflect101 (len p : Z) : Z :=
  if len <=? 1 then 0
  else
    let period := 2 * (len - 1) in
    let q := p mod period in
    if q <? len then q else period - q.

Definition pixel (src : grid F) (r c : Z) : F :=
  nth (Z.to_nat (reflect101 (width src) c))
      (nth (Z.to_nat (reflect101 (height src) r)) src [])
      (of_int 0).

Definition offsets (k : Z) : list Z :=
  map (fun i => Z.of_nat i - k / 2) (seq 0 (Z.to_nat k)).

Definition window_sum (src : grid F) (k r c : Z) : F :=
  fold_left fadd
    (flat_map (fun dr => map (fun dc => pixel src (r + dr) (c + dc)) (offsets k))
              (offsets k))
    (of_int 0).

Definition cv2_boxFilter (k : Z) (src : grid F) : grid F :=
  map (fun r =>
         map (fun c => fmul (window_sum src k r c) (fdiv (of_int 1) (of_int (k * k))))
             (map Z.of_nat (seq 0 (Z.to_nat (width src)))))
      (map Z.of_nat (seq 0 (Z.to_nat (height src)))).

End BoxFilter.

(** ** The real numbers as float64: exact arithmetic

    The arithmetic of the reals is reached through [R_Float64] only, so
    that every term over the reals names the same instance.  The reals
    have no rounding, no signed zero and no NaN: a property stated over
    them is one of the geometry, which float64 meets up to the rounding of
    its results.  What the code computes in every arithmetic is stated
    over the interface. *)

Definition Rleb (a b : R) : bool := if Rle_dec a b then true else false.

(** Truncation towards zero. *)
Definition Rtrunc (r : R) : Z :=
  if Rle_dec 0 r then Int_part r else - Int_part (- r).

(** The angle of the point [(x, y)], in [(-PI, PI]], and [0] at the origin. *)
Definition Ratan2 (y x : R) : R :=
  if Rlt_dec 0 x then atan (y / x)
  else if Rlt_dec x 0 then
    (if Rle_dec 0 y then atan (y / x) + PI else atan (y / x) - PI)%R
  else if Rlt_dec 0 y then (PI / 2)%R
  else if Rlt_dec y 0 then (- PI / 2)%R
  else 0%R.

Definition R_FloatArith : FloatArith R := {|
  of_int := IZR;
  fadd := Rplus;
  fsub := Rminus;
  fmul := Rmult;
  fdiv := Rdiv;
  fopp := Ropp;
  fle := Rleb;
  fsqrt := sqrt;
  to_int := Rtrunc
|}.

#[export] Instance R_Float64 : Float64 R := {|
  arith := R_FloatArith;
  fpi := PI;
  fcos := cos;
  fsin := sin;
  farctan2 := Ratan2
|}.

(** ** The algorithm of the specification, in its own words

    The state of the search is a position [(x, y)] and a search angle [a];
    the arc of a step is recomputed from [a]. *)

Inductive Background : Type :=
| Light
| Dark.

Definition background_name (b : Background) : string :=
  match b with
  | Light => "light"
  | Dark => "dark"
  end.

(** The extremum that a background selects. *)
Definition minmax_of_background (b : Background) : minmax :=
  match b with
  | Light => np_argmin
  | Dark => np_argmax
  end.

(** 20 angles evenly spaced across the 180 degree arc from [a - 90] to
    [a + 90] degrees: consecutive angles are [PI / 19] apart. *)
Definition spec_arc (a : R) : list R :=
  map (fun i : nat => (a - PI / 2 + INR i * (PI / 19))%R) (seq 0 20).

(** The candidate pixel of the angle [th]. *)
Definition spec_candidate (spacing : R) (x y : Z) (th : R) : point :=
  (Rtrunc (IZR x + spacing * cos th), Rtrunc (IZR y - spacing * sin th)).

(** The least and the greatest of a list of samples. *)
Definition least (l : list R) : R := fold_right Rmin (hd 0%R l) l.
Definition greatest (l : list R) : R := fold_right Rmax (hd 0%R l) l.

(** The first position of a sample that satisfies [p]. *)
Fixpoint first_index (p : R -> bool) (l : list R) : nat :=
  match l with
  | [] => 0
  | v :: l' => if p v then 0 else S (first_index p l')
  end.

(** argmin for a light background, argmax for a dark one. *)
Definition spec_select (b : Background) (samples : list R) : nat :=
  match b with
  | Light => first_index (fun v => Rleb v (least samples)) samples
  | Dark => first_index (fun v => Rleb (greatest samples) v) samples
  end.

(** One search step on the state [(x, y, a)] and the chain: the selected
    candidate becomes the position, its angle the search angle, and it is
    appended; when a candidate is out of bounds the previous chain point is
    repeated and the state stays. *)
Definition spec_step (b : Background) (buffer : grid R) (spacing : R)
    (st : Z * Z * R) (chain : list point) : (Z * Z * R) * list point :=
  let '(x, y, a) := st in
  let angles := spec_arc a in
  let candidates := map (spec_candidate spacing x y) angles in
  match take buffer (map snd candidates) (map fst candidates) with
  | Return samples =>
      let i := spec_select b samples in
      let '(x', y') := nth i candidates (x, y) in
      ((x', y', nth i angles a), chain ++ [(x', y')])
  | Raise _ => ((x, y, a), chain ++ [last chain (x, y)])
  end.

Fixpoint spec_steps (b : Background) (buffer : grid R) (spacing : R) (n : nat)
    (st : Z * Z * R) (chain : list point) : list point :=
  match n with
  | O => chain
  | S n' =>
      let '(st', chain') := spec_step b buffer spacing st chain in
      spec_steps b buffer spacing n' st' chain'
  end.

(** The chain of [n_points + 1] points of a configured tracker. *)
Definition spec_track (b : Background) (buffer : grid R) (start : point)
    (tail_length n_points : Z) (start_angle : R) : list point :=
  let spacing := (IZR tail_length / IZR n_points)%R in
  spec_steps b buffer spacing (Z.to_nat n_points)
    (fst start, snd start, start_angle) [start].

(** ** IEEE 754 binary64: the arithmetic as it is computed *)

(** [astype(int)]: the integer part of a finite value; a value that is not
    finite or does not fit int64 converts to the least int64.  [int(...)]
    of a finite value that fits int64 is the same integer; beyond int64
    Python's [int] stays exact, which this conversion does not. *)
Definition b64_to_int (v : spec_float) : Z :=
  match v with
  | S754_zero _ => 0
  | S754_finite s m e =>
      let q := if 0 <=? e then Z.pos m * 2 ^ e else Z.pos m / 2 ^ (- e) in
      let z := if s then - q else q in
      if (- 2 ^ 63 <=? z) && (z <? 2 ^ 63) then z else - 2 ^ 63
  | _ => - 2 ^ 63
  end.

#[export] Instance B64 : FloatArith spec_float := {|
  of_int := fun z => binary_normalize 53 1024 z 0 false;
  fadd := SFadd 53 1024;
  fsub := SFsub 53 1024;
  fmul := SFmul 53 1024;
  fdiv := SFdiv 53 1024;
  fopp := SFopp;
  fle := SFleb;
  fsqrt := SFsqrt 53 1024;
  to_int := b64_to_int
|}.

(** A frame in binary64 from its integer samples. *)
Definition b64_frame (rows : list (list Z)) : grid spec_float :=
  map (map (fun z => binary_normalize 53 1024 z 0 false)) rows.

(** ** The seed of the specification *)

(** The euclidean distance between two pixels. *)
Definition euclidean_distance (p0 p1 : point) : R :=
  sqrt (IZR (fst p1 - fst p0) * IZR (fst p1 - fst p0) +
        IZR (snd p1 - snd p0) * IZR (snd p1 - snd p0)).

(** ** The tail angle of the specification *)

(** The last [k] points of a chain. *)
Definition last_points (k : nat) (chain : list point) : list point :=
  rev (firstn k (rev chain)).

(** The mean of a list of integers. *)
Definition spec_mean (l : list Z) : R :=
  Rdiv (IZR (fold_right Z.add 0 l)) (IZR (len l)).

(** The tail vector: the coordinate-wise mean of the last [k] points minus
    the first point of the chain. *)
Definition tail_vector (k : nat) (chain : list point) : R * R :=
  let tip := last_points k chain in
  let p0 := hd (0, 0) chain in
  ((spec_mean (map fst tip) - IZR (fst p0))%R,
   (spec_mean (map snd tip) - IZR (snd p0))%R).

(** ** The algorithm of the specification over the float operations

    The search of the specification written with the operations of the
    float interface, so that it can be compared with the loop of [track]
    in any arithmetic.  Its state is a position [(x, y)] and the arc of the
    current search angle. *)

Section ArcSearch.
Context {F : Type} {FL : Float64 F}.

(** The comparison [<=] is a total preorder on the values that are not
    NaN, as the comparison of IEEE 754 is. *)
Definition ordered : Prop :=
  (forall a b c : F, fle a b = true -> fle b c = true -> fle a c = true) /\
  (forall a b : F, isnan a = false -> isnan b = false ->
                   fle a b = true \/ fle b a = true).

(** A buffer without NaN samples. *)
Definition no_nan (buffer : grid F) : Prop :=
  forall v, In v (concat buffer) -> isnan v = false.

(** The candidate pixel of the angle [th]:
    [(x + spacing cos th, y - spacing sin th)], truncated. *)
Definition search_candidate (spacing : F) (x y : Z) (th : F) : point :=
  (to_int (fadd (of_int x) (fmul spacing (fcos th))),
   to_int (fsub (of_int y) (fmul spacing (fsin th)))).

(** [v] is a least (a greatest) sample of [l]. *)
Definition is_least (l : list F) (v : F) : bool := forallb (fun u => fle v u) l.
Definition is_greatest (l : list F) (v : F) : bool := forallb (fun u => fle u v) l.

(** The first position of an element that satisfies [p]. *)
Fixpoint index_of_first {A : Type} (p : A -> bool) (l : list A) : nat :=
  match l with
  | [] => 0
  | v :: l' => if p v then 0 else S (index_of_first p l')
  end.

(** argmin for a light background, argmax for a dark one: the first
    position of a least, respectively greatest, sample. *)
Definition search_select (b : Background) (samples : list F) : nat :=
  match b with
  | Light => index_of_first (is_least samples) samples
  | Dark => index_of_first (is_greatest samples) samples
  end.

(** One search step on the state [(x, y, arc)] and the chain: the selected
    candidate becomes the position and is appended, and the next arc is the
    20 angles evenly spaced from 90 degrees before to 90 degrees after the
    angle of the selected candidate; when a candidate is out of bounds the
    previous chain point is repeated and the state stays. *)
Definition search_step (b : Background) (buffer : grid F) (spacing : F)
    (st : Z * Z * list F) (chain : list point) : (Z * Z * list F) * list point :=
  let '(x, y, arc) := st in
  let candidates := map (search_candidate spacing x y) arc in
  match take buffer (map snd candidates) (map fst candidates) with
  | Return samples =>
      let i := search_select b samples in
      let '(x', y') := nth i candidates (x, y) in
      let a := nth i arc (of_int 0) in
      ((x', y',
        linspace (fsub a (fdiv fpi (of_int 2))) (fadd a (fdiv fpi (of_int 2))) 20),
       chain ++ [(x', y')])
  | Raise _ => ((x, y, arc), chain ++ [last chain (x, y)])
  end.

Fixpoint search_steps (b : Background) (buffer : grid F) (spacing : F) (n : nat)
    (st : Z * Z * list F) (chain : list point) : list point :=
  match n with
  | O => chain
  | S n' =>
      let '(st', chain') := search_step b buffer spacing st chain in
      search_steps b buffer spacing n' st' chain'
  end.

(** The chain of a configured tracker: [n_points] steps of
    [tail_length / n_points] from the start point, the first on the arc
    from -90 to 90 degrees turned by the start angle. *)
Definition arc_search (b : Background) (buffer : grid F) (start : point)
    (tail_length n_points : Z) (start_angle : F) : list point :=
  let spacing := fdiv (of_int tail_length) (of_int n_points) in
  let arc := map (fun th => fadd th start_angle)
               (linspace (fdiv (fopp fpi) (of_int 2)) (fdiv fpi (of_int 2)) 20) in
  search_steps b buffer spacing (Z.to_nat n_points) (fst start, snd start, arc) [start].

(** *** The tail angle *)

(** [tip = mean(chain[-k:])], coordinate by coordinate. *)
Definition tip_mean (k : nat) (chain : list point) : F * F :=
  (mean (map fst (last_points k chain)), mean (map snd (last_points k chain))).

Definition of_point (p : point) : F * F := (of_int (fst p), of_int (snd p)).

Definition vsub (u v : F * F) : F * F :=
  (fsub (fst u) (fst v), fsub (snd u) (snd v)).

Definition baseline_vector (baseline : F) : F * F := (fcos baseline, fsin baseline).

(** [atan2(-dy, dx)] for [(dx, dy) = (tip - chain[0]) - baseline_vector]. *)
Definition spec_tail_angle (k : nat) (chain : list point) (baseline : F) : F :=
  let tail := vsub (tip_mean k chain) (of_point (hd (0, 0) chain)) in
  let d := vsub tail (baseline_vector baseline) in
  farctan2 (fopp (snd d)) (fst d).

End ArcSearch.

Arguments ordered F {FL}.

(** ** The seed of [from_points] in a rounded arithmetic *)

(** [int(np.linalg.norm(v))] for a vector [v] of two integers. *)
Definition int_norm {F : Type} {FA : FloatArith F} (v : Z * Z) : Z :=
  to_int (fsqrt (fadd (fmul (of_int (fst v)) (of_int (fst v)))
                      (fmul (of_int (snd v)) (of_int (snd v))))).

(** The arithmetic in which every operation is the exact one followed by
    the rounding [rnd]. *)
Definition Rounded (rnd : R -> R) : FloatArith R := {|
  of_int := fun z => rnd (IZR z);
  fadd := fun a b => rnd (a + b)%R;
  fsub := fun a b => rnd (a - b)%R;
  fmul := fun a b => rnd (a * b)%R;
  fdiv := fun a b => rnd (a / b)%R;
  fopp := Ropp;
  fle := Rleb;
  fsqrt := fun a => rnd (sqrt a);
  to_int := Rtrunc
|}.

(** What rounding to the nearest binary64 value satisfies on the numbers
    met when a distance in pixels is computed: integers up to [2^53] are
    values, rounding is monotone, and the relative error of a number
    between 1 and [2^53] is at most [2^-53]. *)
Definition rounds_to_nearest (rnd : R -> R) : Prop :=
  (forall z : Z, Z.abs z <= 2 ^ 53 -> rnd (IZR z) = IZR z) /\
  (forall a b : R, (a <= b)%R -> (rnd a <= rnd b)%R) /\
  (forall a : R, (1 <= a <= IZR (2 ^ 53))%R ->
                 (Rabs (rnd a - a) <= a / IZR (2 ^ 53))%R).

(** ** ASCII names *)

(** [str.isascii]: every character is below 128. *)
Fixpoint isascii (s : string) : bool :=
  match s with
  | EmptyString => true
  | String c s' => Nat.ltb (nat_of_ascii c) 128 && isascii s'
  end.

(** ** Frames and trackers used as examples *)

(** The tracker that the initialization widget creates before any point is
    clicked: [TailTracker(None, None, 10)]. *)
Definition widget_tracker : TailTracker R :=
  init None None (Some 10) 0%R "light" 7 3.

(** A tracker seeded at pixel [(1, 0)], on the top edge of the frame, with a
    tail of one pixel tracked in one step. *)
Definition edge_tracker : TailTracker R :=
  init (Some (1, 0)) (Some 1) (Some 1) 0%R "light" 1 1.

(** A 3 x 3 buffer whose darkest sample is in the middle of the bottom
    row. *)
Definition edge_buffer : grid R :=
  [[5; 5; 5]; [5; 5; 5]; [5; 0; 5]]%R.

(** [edge_buffer] after [preprocess] with a kernel of size 1: every sample
    divided by the maximum. *)
Definition edge_filtered : grid R :=
  [[1; 1; 1]; [1; 1; 1]; [1; 0; 1]]%R.

(** A buffer of one row. *)
Definition row_buffer : grid R := [[5; 5; 5]]%R.

(** An all-zero frame in binary64 and a tracker with the default kernel. *)
Definition zero_frame : grid spec_float := b64_frame [[0; 0]; [0; 0]].

Definition b64_tracker : TailTracker spec_float :=
  init (Some (0, 0)) (Some 1) (Some 1) (S754_zero false) "light" 7 3.

(** ** Properties of trackers and chains *)

(** The function used to find tail points is the one of the stored
    background name. *)
Definition background_in_sync {F : Type} (t : TailTracker F) : Prop :=
  _minmax_function t = if String.eqb (_background t) "dark" then np_argmax else np_argmin.

(** A point moved by the offset [d]. *)
Definition shift (d p : point) : point := (fst p + fst d, snd p + snd d).

(** Two points that differ by less than [bound] in each coordinate. *)
Definition step_within (bound : R) (p q : point) : Prop :=
  (Rabs (IZR (fst q - fst p)) < bound)%R /\ (Rabs (IZR (snd q - snd p)) < bound)%R.

(** A chain whose consecutive points are all that close. *)
Definition adjacent_within (bound : R) (l : list point) : Prop :=
  forall i p q, nth_error l i = Some p -> nth_error l (S i) = Some q ->
                step_within bound p q.

(** ** The initialization widget of [tailtracker/gui/widget.py]

    The widget from the moment it shows an image ([app(image)], or the
    video widget after its first frame): [self.image is None] is then false.
    Its state is the attributes that its slots read and write; the drawing
    on the canvas is not part of it.  A signal that triggers a transition of
    the state machine is handled before the next user event; the slots
    connected to [entered] run in the order of their connection, once the
    state is active.  A spin box keeps its value within its range and emits
    [valueChanged] only when the value changes, as a combo box does with
    [currentIndexChanged]; a disabled button emits nothing. *)

(** The tracker attributes that the widget assigns. *)
Definition set_n_points {F : Type} (v : option Z) (t : TailTracker F) : TailTracker F :=
  mkTailTracker (start_point t) (tail_length t) v (start_angle t)
    (_background t) (_minmax_function t) (ksize t) (n_tip_points t)
    (_image t) (_normalized t) (_filtered t) (points t) (points_array t) (tail_angle t).

Definition set_ksize {F : Type} (v : Z) (t : TailTracker F) : TailTracker F :=
  mkTailTracker (start_point t) (tail_length t) (n_points t) (start_angle t)
    (_background t) (_minmax_function t) v (n_tip_points t)
    (_image t) (_normalized t) (_filtered t) (points t) (points_array t) (tail_angle t).

Module Widget.

(** The states [s0] (no points), [s1] (one point) and [s2] (two points). *)
Inductive qstate : Type :=
| s0
| s1
| s2.

(** The items of the background selector. *)
Inductive combo_item : Type :=
| Light_item
| Dark_item.

(** The two image getters, [get_image] and [get_diagnostic_image], in the
    order of the items "Original" and "Filtered" of the image selector. *)
Inductive display : Type :=
| get_image
| get_diagnostic_image.

(** A [button_press_event] of the canvas. *)
Record mouse_event (F : Type) : Type := mkMouseEvent {
  inaxes : bool;
  button : Z;
  xdata : F;
  ydata : F
}.
Arguments mkMouseEvent {F}.
Arguments inaxes {F}.
Arguments button {F}.
Arguments xdata {F}.
Arguments ydata {F}.

(** [self.tracker.points], and the [ret] of methods; the widget has
    attributes of both names. *)
Definition tracker_points {F : Type} (t : TailTracker F) : list point := points t.
Local Abbreviation pure := ret (only parsing).

Record TailInitializationWidget (F : Type) : Type := mkWidget {
  image : grid F;    (* the image shown *)
  points : list point;    (* the clicked points *)
  tracker : TailTracker F;
  ret : bool;    (* the return value *)
  current_state : qstate;    (* the active state of the state machine *)
  accept_button : bool;    (* whether ACCEPT is enabled *)
  hint_label : string;    (* the text of the hint *)
  n_points_spinbox : Z;
  ksize_spinbix : Z;
  background_combo : combo_item;
  get_display_image : display;    (* the getter that the image selector chose *)
  tracking_checkbox : bool;
  tracked : list point    (* the points of the tracked line *)
}.
Arguments mkWidget {F}.
Arguments image {F}.
Arguments points {F}.
Arguments tracker {F}.
Arguments ret {F}.
Arguments current_state {F}.
Arguments accept_button {F}.
Arguments hint_label {F}.
Arguments n_points_spinbox {F}.
Arguments ksize_spinbix {F}.
Arguments background_combo {F}.
Arguments get_display_image {F}.
Arguments tracking_checkbox {F}.
Arguments tracked {F}.

Section Slots.
Context {F : Type} {FL : Float64 F}.
Variable boxFilter : Z -> grid F -> grid F.
Local Abbreviation W := (TailInitializationWidget F).

(** Attribute assignments. *)
Definition with_image (v : grid F) (w : W) : W :=
  mkWidget
    v (points w) (tracker w) (ret w) (current_state w) (accept_button w)
    (hint_label w) (n_points_spinbox w) (ksize_spinbix w) (background_combo w)
    (get_display_image w) (tracking_checkbox w) (tracked w).

Definition with_points (v : list point) (w : W) : W :=
  mkWidget
    (image w) v (tracker w) (ret w) (current_state w) (accept_button w)
    (hint_label w) (n_points_spinbox w) (ksize_spinbix w) (background_combo w)
    (get_display_image w) (tracking_checkbox w) (tracked w).

Definition with_tracker (v : TailTracker F) (w : W) : W :=
  mkWidget
    (image w) (points w) v (ret w) (current_state w) (accept_button w)
    (hint_label w) (n_points_spinbox w) (ksize_spinbix w) (background_combo w)
    (get_display_image w) (tracking_checkbox w) (tracked w).

Definition with_ret (v : bool) (w : W) : W :=
  mkWidget
    (image w) (points w) (tracker w) v (current_state w) (accept_button w)
    (hint_label w) (n_points_spinbox w) (ksize_spinbix w) (background_combo w)
    (get_display_image w) (tracking_checkbox w) (tracked w).

Definition with_current_state (v : qstate) (w : W) : W :=
  mkWidget
    (image w) (points w) (tracker w) (ret w) v (accept_button w)
    (hint_label w) (n_points_spinbox w) (ksize_spinbix w) (background_combo w)
    (get_display_image w) (tracking_checkbox w) (tracked w).

Definition with_accept_button (v : bool) (w : W) : W :=
  mkWidget
    (image w) (points w) (tracker w) (ret w) (current_state w) v
    (hint_label w) (n_points_spinbox w) (ksize_spinbix w) (background_combo w)
    (get_display_image w) (tracking_checkbox w) (tracked w).

Definition with_hint_label (v : string) (w : W) : W :=
  mkWidget
    (image w) (points w) (tracker w) (ret w) (current_state w)
    (accept_button w) v (n_points_spinbox w) (ksize_spinbix w)
    (background_combo w) (get_display_image w) (tracking_checkbox w)
    (tracked w).

Definition with_n_points_spinbox (v : Z) (w : W) : W :=
  mkWidget
    (image w) (points w) (tracker w) (ret w) (current_state w)
    (accept_button w) (hint_label w) v (ksize_spinbix w) (background_combo w)
    (get_display_image w) (tracking_checkbox w) (tracked w).

Definition with_ksize_spinbix (v : Z) (w : W) : W :=
  mkWidget
    (image w) (points w) (tracker w) (ret w) (current_state w)
    (accept_button w) (hint_label w) (n_points_spinbox w) v
    (background_combo w) (get_display_image w) (tracking_checkbox w)
    (tracked w).

Definition with_background_combo (v : combo_item) (w : W) : W :=
  mkWidget
    (image w) (points w) (tracker w) (ret w) (current_state w)
    (accept_button w) (hint_label w) (n_points_spinbox w) (ksize_spinbix w) v
    (get_display_image w) (tracking_checkbox w) (tracked w).

Definition with_get_display_image (v : display) (w : W) : W :=
  mkWidget
    (image w) (points w) (tracker w) (ret w) (current_state w)
    (accept_button w) (hint_label w) (n_points_spinbox w) (ksize_spinbix w)
    (background_combo w) v (tracking_checkbox w) (tracked w).

Definition with_tracking_checkbox (v : bool) (w : W) : W :=
  mkWidget
    (image w) (points w) (tracker w) (ret w) (current_state w)
    (accept_button w) (hint_label w) (n_points_spinbox w) (ksize_spinbix w)
    (background_combo w) (get_display_image w) v (tracked w).

Definition with_tracked (v : list point) (w : W) : W :=
  mkWidget
    (image w) (points w) (tracker w) (ret w) (current_state w)
    (accept_button w) (hint_label w) (n_points_spinbox w) (ksize_spinbix w)
    (background_combo w) (get_display_image w) (tracking_checkbox w) v.

Local Open Scope method_scope.

(** A method of [self.tracker], called from a method of the widget. *)
Definition on_tracker {A : Type} (m : M (TailTracker F) A) : M W A :=
  fun w => (with_tracker (fst (m (tracker w))) w, snd (m (tracker w))).

Definition hints : list string :=
  ["LEFT click on base of the swim bladder.";
   "LEFT click at the end of the tail. RIGHT click to start over.";
   "Click accept. RIGHT click to start over."]%string.

(** [background_combo.currentText()]. *)
Definition currentText (i : combo_item) : string :=
  match i with
  | Light_item => "Light"
  | Dark_item => "Dark"
  end.

(** [update_image_data]: the image to display is fetched and divided by
    its maximum; the diagnostic image is fetched through [preprocess] of the
    tracker. *)
Definition update_image_data : M W unit :=
  self <- get ;;
  img <- match get_display_image self with
         | get_image => pure (image self)
         | get_diagnostic_image => on_tracker (preprocess boxFilter (image self))
         end ;;
  _ <- lift (np_max img) ;;
  pure tt.

(** [update_tracking]. *)
Definition update_tracking : M W unit :=
  self <- get ;;
  match tracking_checkbox self, current_state self with
  | true, s2 =>
      on_tracker (track boxFilter (image self)) ;;;
      self <- get ;;
      modify (with_tracked (tracker_points (tracker self)))
  | _, _ => modify (with_tracked [])
  end.

(** [initialize_tracker]: [from_points] unpacks exactly two points, with
    the keyword arguments [background] and [ksize] of [get_params] and the
    default [n_tip_points]. *)
Definition initialize_tracker : M W unit :=
  self <- get ;;
  match points self with
  | [p0; p1] =>
      modify (with_tracker
                (from_points p0 p1 (Some (n_points_spinbox self))
                   (currentText (background_combo self)) (ksize_spinbix self) 3)) ;;;
      update_tracking
  | _ => lift (Raise ValueError)
  end.

(** The slots connected to [entered] of each state, in the order of
    [_init_connections]. *)
Definition entered (s : qstate) : M W unit :=
  match s with
  | s0 =>
      modify (with_accept_button false) ;;;
      modify (with_hint_label (nth 0 hints EmptyString)) ;;;
      update_tracking
  | s1 => modify (with_hint_label (nth 1 hints EmptyString))
  | s2 =>
      modify (with_accept_button true) ;;;
      modify (with_hint_label (nth 2 hints EmptyString)) ;;;
      initialize_tracker
  end.

Definition enter (s : qstate) : M W unit :=
  modify (with_current_state s) ;;; entered s.

(** [pointAdded.emit] and [pointsErased.emit] with the transitions of
    [_init_states]; a signal without a transition from the active state
    changes nothing. *)
Definition pointAdded : M W unit :=
  self <- get ;;
  match current_state self with
  | s0 => enter s1
  | s1 => enter s2
  | s2 => pure tt
  end.

Definition pointsErased : M W unit :=
  self <- get ;;
  match current_state self with
  | s0 => pure tt
  | s1 => enter s0
  | s2 => enter s0
  end.

(** [new_point(x, y)]. *)
Definition new_point (x y : Z) : M W unit :=
  self <- get ;;
  (if len (points self) <? 2
   then modify (with_points (points self ++ [(x, y)]))
   else pure tt) ;;;
  pointAdded.

(** [erase]. *)
Definition erase : M W unit :=
  modify (with_points []) ;;;
  pointsErased.

(** [mouse_button_pressed(event)]. *)
Definition mouse_button_pressed (event : mouse_event F) : M W unit :=
  if negb (inaxes event) then pure tt
  else if button event =? 1 then new_point (to_int (xdata event)) (to_int (ydata event))
  else if button event =? 3 then erase
  else pure tt.

(** [new_image(image)]. *)
Definition new_image (img : grid F) : M W unit :=
  modify (with_image img) ;;;
  update_image_data ;;;
  update_tracking.

(** [update_tracker_params(val)]. *)
Definition update_tracker_params : M W unit :=
  self <- get ;;
  on_tracker (modify (set_n_points (Some (n_points_spinbox self)))) ;;;
  on_tracker (modify (background_setter (currentText (background_combo self)))) ;;;
  on_tracker (modify (set_ksize (ksize_spinbix self))) ;;;
  update_image_data ;;;
  update_tracking.

(** [change_displayed_image(idx)]. *)
Definition change_displayed_image (idx : display) : M W unit :=
  modify (with_get_display_image idx) ;;;
  update_image_data.

(** [set_retval(val)]. *)
Definition set_retval (val : bool) : M W unit := modify (with_ret val).

(** [QSpinBox.setValue] within the range of the spin box. *)
Definition bound (lo hi v : Z) : Z := Z.max lo (Z.min hi v).

(** What a slot ends with: nothing more, [update_image_data],
    [update_tracking], or one after the other. *)
Inductive refresh : Type :=
| no_refresh
| refresh_image
| refresh_tracking
| refresh_both.

Definition refreshing (r : refresh) : M W unit :=
  match r with
  | no_refresh => pure tt
  | refresh_image => update_image_data
  | refresh_tracking => update_tracking
  | refresh_both => update_image_data ;;; update_tracking
  end.

(** What the user does, and [new_image] called by the owner of the widget
    (the video widget does it from [change_frame]). *)
Inductive event : Type :=
| button_press_event (e : mouse_event F)
| n_points_edited (v : Z)
| ksize_edited (v : Z)
| background_selected (i : combo_item)
| image_selected (d : display)
| tracking_clicked
| accept_clicked
| cancel_clicked
| frame_changed (img : grid F).

(** The slots that each event reaches through [_init_connections]. *)
Definition handle (e : event) : M W unit :=
  match e with
  | button_press_event ev => mouse_button_pressed ev
  | n_points_edited v =>
      self <- get ;;
      if bound 3 51 v =? n_points_spinbox self then pure tt
      else modify (with_n_points_spinbox (bound 3 51 v)) ;;; update_tracker_params
  | ksize_edited v =>
      self <- get ;;
      if bound 1 21 v =? ksize_spinbix self then pure tt
      else modify (with_ksize_spinbix (bound 1 21 v)) ;;; update_tracker_params
  | background_selected i =>
      self <- get ;;
      match i, background_combo self with
      | Light_item, Light_item => pure tt
      | Dark_item, Dark_item => pure tt
      | _, _ => modify (with_background_combo i) ;;; update_tracker_params
      end
  | image_selected d =>
      self <- get ;;
      match d, get_display_image self with
      | get_image, get_image => pure tt
      | get_diagnostic_image, get_diagnostic_image => pure tt
      | _, _ => change_displayed_image d
      end
  | tracking_clicked =>
      self <- get ;;
      modify (with_tracking_checkbox (negb (tracking_checkbox self))) ;;;
      update_tracking
  | accept_clicked =>
      self <- get ;;
      if accept_button self then set_retval true else pure tt
  | cancel_clicked => set_retval false
  | frame_changed img => new_image img
  end.

(** The widget handling one event after the other. *)
Fixpoint run (events : list event) : M W unit :=
  match events with
  | [] => pure tt
  | e :: events' => handle e ;;; run events'
  end.

(** [TailInitializationWidget(image)] when its constructor returns, before
    the state machine has started: the tracker is
    [TailTracker(None, None, 10)], the spin boxes show its [n_points] and
    [ksize].  No state is active yet; [current_state] is only ever compared
    with [s2], and is [s0] here. *)
Definition constructed (img : grid F) : W * outcome unit :=
  new_image img
    (mkWidget img [] (init None None (Some 10) (of_int 0) "light" 7 3) false s0 false
       (nth 0 hints EmptyString) 10 7 Light_item get_image true []).

(** The widget kept open, as [dialog] or the video widget keep it: the
    state machine enters its initial state when the event loop starts, then
    every event is handled. *)
Definition session (img : grid F) (events : list event) : W * outcome unit :=
  match constructed img with
  | (w, Return _) => (enter s0 ;;; run events) w
  | (w, Raise e) => (w, Raise e)
  end.

(** The event loop of [app]: the state machine enters its initial state,
    then events are handled until one closes the window, which the accept
    and reject signals do; the events run out when the window is closed
    otherwise. *)
Definition closes (e : event) (w : W) : bool :=
  match e with
  | accept_clicked => accept_button w
  | cancel_clicked => true
  | _ => false
  end.

Fixpoint exec (events : list event) : M W unit :=
  match events with
  | [] => pure tt
  | e :: events' =>
      self <- get ;;
      handle e ;;;
      if closes e self then pure tt else exec events'
  end.

(** [TailInitializationWidget.app(image)], which returns [w.ret] and
    [w.tracker]. *)
Definition app (img : grid F) (events : list event) : outcome (bool * TailTracker F) :=
  match constructed img with
  | (w, Return _) =>
      match (enter s0 ;;; exec events) w with
      | (w', Return _) => Return (ret w', tracker w')
      | (_, Raise e) => Raise e
      end
  | (_, Raise e) => Raise e
  end.

End Slots.

(** What the widget maintains. *)
Section Invariants.
Context {F : Type} {FL : Float64 F}.
Variable boxFilter : Z -> grid F -> grid F.
Local Abbreviation W := (TailInitializationWidget F).

(** The number of points that each state stands for. *)
Definition state_index (s : qstate) : nat :=
  match s with
  | s0 => 0
  | s1 => 1
  | s2 => 2
  end.

(** The clicked points, the accept button and the hint agree with the
    active state. *)
Definition consistent (w : W) : Prop :=
  length (points w) = state_index (current_state w) /\
  accept_button w = match current_state w with s2 => true | _ => false end /\
  hint_label w = nth (state_index (current_state w)) hints EmptyString.

(** The tracker has the parameters that the controls show. *)
Definition mirrors_controls (w : W) : Prop :=
  3 <= n_points_spinbox w <= 51 /\
  1 <= ksize_spinbix w <= 21 /\
  n_points (tracker w) = Some (n_points_spinbox w) /\
  ksize (tracker w) = ksize_spinbix w /\
  _background (tracker w) = lower (currentText (background_combo w)) /\
  background_in_sync (tracker w) /\
  n_tip_points (tracker w) = 3.

(** With two points, the tracker is configured as [from_points] configures
    one from these points and the values of the controls. *)
Definition seeded (w : W) : Prop :=
  current_state w = s2 ->
  exists p0 p1,
    points w = [p0; p1] /\
    config (tracker w) =
    config (from_points p0 p1 (Some (n_points_spinbox w))
              (currentText (background_combo w)) (ksize_spinbix w) 3).

(** With two points, the tracker has its seed from [from_points] of these
    points, whatever its parameters. *)
Definition seeded_somehow (w : W) : Prop :=
  current_state w = s2 ->
  exists p0 p1 n bg k,
    points w = [p0; p1] /\
    config (tracker w) = config (from_points p0 p1 n bg k 3).

Definition invariant (w : W) : Prop :=
  consistent w /\ mirrors_controls w /\ seeded w.

(** The tracked line is the chain of the tracker on the image shown, and
    empty unless tracking is shown for two points. *)
Definition shows_tracking (w : W) : Prop :=
  tracked w =
  match tracking_checkbox w, current_state w with
  | true, s2 => tracker_points (fst (track boxFilter (image w) (tracker w)))
  | _, _ => []
  end.

(** The attributes that showing the image and tracking never write. *)
Definition controls (w : W)
  : grid F * bool * list point * qstate * bool * string * Z * Z * combo_item
    * (option point * option Z * option Z * F * string * minmax * Z * Z) :=
  (image w, ret w, points w, current_state w, accept_button w, hint_label w,
   n_points_spinbox w, ksize_spinbix w, background_combo w, config (tracker w)).

(** A method that writes none of them. *)
Definition keeps_controls {A : Type} (m : M W A) : Prop :=
  forall w, controls (fst (m w)) = controls w.

(** The invariant of a widget whose image has samples. *)
Definition sound (w : W) : Prop :=
  invariant w /\ concat (image w) <> [].

(** A method after which, when it returns, the tracked line is up to
    date. *)
Definition sets_tracking {A : Type} (m : M W A) : Prop :=
  forall w w' a, m w = (w', Return a) -> shows_tracking w'.

(** A filter that returns samples when it is given some, as a filter that
    keeps the shape of its input does. *)
Definition keeps_samples : Prop :=
  forall k a, concat a <> [] -> concat (boxFilter k a) <> [].

(** The frames that the owner of the widget hands over. *)
Definition frame_of (e : event) : option (grid F) :=
  match e with
  | frame_changed img => Some img
  | _ => None
  end.

End Invariants.

End Widget.

(** ** Examples for the widget and the chain *)

(** Two left clicks in the axes, at the pixels [(1, 0)] and [(1, 2)]. *)
Definition left_click (x y : R) : Widget.mouse_event R :=
  Widget.mkMouseEvent true 1 x y.

Definition two_left_clicks : list (@Widget.event R) :=
  [Widget.button_press_event (left_click 1 0);
   Widget.button_press_event (left_click 1 2)].

(** A filter that changes nothing. *)
Definition no_filter (k : Z) (a : grid R) : grid R := a.

(** A tracker with a tail of length zero, tracked in two steps. *)
Definition still_tracker : TailTracker R :=
  init (Some (1, 0)) (Some 0) (Some 2) 0%R "light" 1 1.

(** A chain of two points. *)
Definition short_chain : list point := [(1, 0); (1, 1)].

(** A pixel whose coordinates numpy accepts as indices of [buf]. *)
Definition indexable {F : Type} (buf : grid F) (p : point) : Prop :=
  index_ok (width buf) (fst p) /\ index_ok (height buf) (snd p).

(** Trackers with no step to make: zero and a negative number of points. *)
Definition zero_points_tracker : TailTracker R :=
  init (Some (1, 0)) (Some 1) (Some 0) 0%R "light" 1 1.

Definition negative_points_tracker : TailTracker R :=
  init (Some (1, 0)) (Some 1) (Some (-2)) 0%R "light" 1 1.

(** * Properties *)

(** ** Preprocessing *)

Section PreprocessFacts.
Context {F : Type} {FA : FloatArith F}.
Variable boxFilter : Z -> grid F -> grid F.

Lemma np_max_returns (image : grid F) :
  concat image <> [] -> exists m, np_max image = Return m.
Proof.
  unfold np_max. destruct (concat image); [congruence|]. intros _. eexists. reflexivity.
Qed.

Lemma np_max_raises (image : grid F) (e : exn) :
  np_max image = Raise e -> concat image = [] /\ e = ValueError.
Proof.
  unfold np_max. destruct (concat image); [|discriminate]. now inversion 1.
Qed.

Lemma preprocess_eq (image : grid F) (t : TailTracker F) :
  preprocess boxFilter image t =
  match np_max image with
  | Return m =>
      (set_filtered (Some (boxFilter (ksize t) (divide image m)))
         (set_normalized (Some (divide image m)) (set_image (Some image) t)),
       Return (boxFilter (ksize t) (divide image m)))
  | Raise e => (set_image (Some image) t, Raise e)
  end.
Proof.
  unfold preprocess, bind, modify, lift, get, ret; simpl.
  destruct (np_max image); reflexivity.
Qed.

End PreprocessFacts.

(** ** The methods in closed form *)

Section Methods.
Context {F : Type} {FL : Float64 F}.
Variable boxFilter : Z -> grid F -> grid F.

Lemma set_points_same (t : TailTracker F) : set_points (points t) t = t.
Proof. destruct t; reflexivity. Qed.

Lemma set_points_twice (p q : list point) (t : TailTracker F) :
  set_points p (set_points q t) = set_points p t.
Proof. destruct t; reflexivity. Qed.

(** The [try] block appends the point it found, or raises and writes
    nothing. *)
Lemma track_try_eq (buf : grid F) (sp : F) (x y : Z) (arc : list F) (t : TailTracker F) :
  track_try buf sp x y arc t =
  match step_result (_minmax_function t) buf sp x y arc with
  | Return (x', y', arc') =>
      (set_points (points t ++ [(x', y')]) t, Return (x', y', arc'))
  | Raise e => (t, Raise e)
  end.
Proof.
  unfold track_try, step_result, bind, modify, lift, get, ret.
  fold (arc_xs sp x arc). fold (arc_ys sp y arc).
  destruct (take buf (arc_ys sp y arc) (arc_xs sp x arc)) as [samples|e]; simpl; [|reflexivity].
  destruct (apply_minmax (_minmax_function t) samples) as [idx|e]; simpl; [|reflexivity].
  destruct (item (arc_xs sp x arc) idx) as [x'|e]; simpl; [|reflexivity].
  destruct (item (arc_ys sp y arc) idx) as [y'|e]; simpl; [|reflexivity].
  destruct (item arc idx) as [a|e]; simpl; reflexivity.
Qed.

Lemma track_except_eq (x y : Z) (arc : list F) (t : TailTracker F) :
  track_except x y arc t =
  match last_item (points t) with
  | Return p => (set_points (points t ++ [p]) t, Return (x, y, arc))
  | Raise e => (t, Raise e)
  end.
Proof.
  unfold track_except, bind, modify, lift, get, ret.
  destruct (last_item (points t)); reflexivity.
Qed.

Lemma config_set_points (p : list point) (t : TailTracker F) :
  config (set_points p t) = config t.
Proof. reflexivity. Qed.

(** The loop leaves in [self.points] the points of [chain_loop], and
    nothing else changes. *)
Lemma track_loop_eq (buf : grid F) (sp : F) (n : nat) :
  forall (x y : Z) (arc : list F) (t : TailTracker F),
    track_loop buf sp n x y arc t =
    (set_points (fst (chain_loop (_minmax_function t) buf sp n x y arc (points t))) t,
     snd (chain_loop (_minmax_function t) buf sp n x y arc (points t))).
Proof.
  induction n as [|n IH]; intros x y arc t.
  - simpl. unfold ret. now rewrite set_points_same.
  - cbn [track_loop chain_loop]. unfold bind, try_except_IndexError.
    rewrite track_try_eq.
    destruct (step_result (_minmax_function t) buf sp x y arc) as [[[x' y'] arc']|e].
    + rewrite IH. simpl. now rewrite set_points_twice.
    + destruct e; try (simpl; now rewrite set_points_same).
      rewrite track_except_eq.
      destruct (last_item (points t)) as [p|e].
      * rewrite IH. simpl. now rewrite set_points_twice.
      * simpl. now rewrite set_points_same.
Qed.

(** [track] on a tracker that is not configured. *)
Lemma track_unconfigured (image : grid F) (t : TailTracker F) :
  start_point t = None \/ tail_length t = None \/ n_points t = None ->
  track boxFilter image t = (t, Return None).
Proof.
  intros H. unfold track, bind, get, ret.
  destruct (start_point t) as [[x y]|], (tail_length t), (n_points t);
    try reflexivity; destruct H as [H|[H|H]]; discriminate.
Qed.

(** [track] on a configured tracker, step by step. *)
Lemma track_configured (image : grid F) (t : TailTracker F) (x y tlen n : Z) :
  start_point t = Some (x, y) -> tail_length t = Some tlen -> n_points t = Some n ->
  track boxFilter image t =
  match np_max image with
  | Raise e => (set_image (Some image) t, Raise e)
  | Return m =>
      let buf := boxFilter (ksize t) (divide image m) in
      let t1 := set_filtered (Some buf)
                  (set_normalized (Some (divide image m)) (set_image (Some image) t)) in
      if n =? 0 then (t1, Raise ZeroDivisionError)
      else
        let r := chain_loop (_minmax_function t) buf (fdiv (of_int tlen) (of_int n))
                   (Z.to_nat n) x y (first_arc (start_angle t)) [(x, y)] in
        match snd r with
        | Raise e => (set_points (fst r) t1, Raise e)
        | Return _ =>
            match compute_tail_angle (fst r) (n_tip_points t) (start_angle t) with
            | Raise e => (set_points_array (fst r) (set_points (fst r) t1), Raise e)
            | Return a =>
                (set_tail_angle a (set_points_array (fst r) (set_points (fst r) t1)),
                 Return (Some a))
            end
        end
  end.
Proof.
  intros Hs Hl Hn. unfold track. unfold bind at 1. unfold get at 1.
  rewrite Hs, Hl, Hn. unfold bind at 1. rewrite preprocess_eq.
  destruct (np_max image) as [m|e]; [|reflexivity].
  cbv zeta. unfold bind at 1. unfold lift at 1. unfold float_div.
  destruct (n =? 0); [reflexivity|].
  unfold bind at 1. unfold modify at 1. unfold bind at 1.
  rewrite track_loop_eq. fold (first_arc (start_angle t)).
  cbn [_minmax_function points set_points set_filtered set_normalized set_image].
  destruct (chain_loop (_minmax_function t) (boxFilter (ksize t) (divide image m))
              (fdiv (of_int tlen) (of_int n)) (Z.to_nat n) x y
              (first_arc (start_angle t)) [(x, y)]) as [pts o].
  cbn [fst snd]. destruct o as [[]|e]; [|reflexivity].
  unfold bind, modify, get, lift, ret.
  cbn -[compute_tail_angle].
  destruct (compute_tail_angle pts (n_tip_points t) (start_angle t)); reflexivity.
Qed.

End Methods.

(** ** numpy facts: lengths, indices and what can be raised *)

Section NumpyFacts.
Context {F : Type} {FA : FloatArith F}.

Lemma linspace_length (a b : F) (n : nat) : length (linspace a b n) = n.
Proof. unfold linspace. now rewrite length_map, length_seq. Qed.

Lemma take_length (buf : grid F) :
  forall ys xs vs, length ys = length xs ->
    take buf ys xs = Return vs -> length vs = length ys.
Proof.
  induction ys as [|y ys IH]; intros [|x xs] vs Hlen H; simpl in *; try discriminate.
  - now inversion H.
  - destruct (getitem buf y x); simpl in H; [|discriminate].
    destruct (take buf ys xs) as [vs'|] eqn:E; simpl in H; [|discriminate].
    inversion H; subst. simpl. f_equal. apply (IH xs); [lia|assumption].
Qed.

Lemma getitem_raises (buf : grid F) (y x : Z) (e : exn) :
  getitem buf y x = Raise e -> e = IndexError.
Proof.
  unfold getitem.
  destruct (normalize_index (len buf) y); [|now inversion 1].
  destruct (nth_error buf n) as [row|]; [|now inversion 1].
  destruct (normalize_index (len row) x); [|now inversion 1].
  destruct (nth_error row n0); simpl; now inversion 1.
Qed.

Lemma take_raises (buf : grid F) :
  forall ys xs e, take buf ys xs = Raise e -> e = IndexError.
Proof.
  induction ys as [|y ys IH]; intros [|x xs] e H; simpl in *; try discriminate.
  destruct (getitem buf y x) eqn:G; simpl in H.
  - destruct (take buf ys xs) eqn:E; simpl in H; [discriminate|].
    inversion H; subst. eapply IH; eassumption.
  - inversion H; subst. eapply getitem_raises; eassumption.
Qed.

Lemma argmin_from_bound :
  forall (l : list F) mp best i, (best < i)%nat ->
    (argmin_from mp best i l < i + length l)%nat.
Proof.
  induction l as [|v l IH]; intros mp best i Hb; simpl.
  - lia.
  - destruct (fle mp v).
    + specialize (IH mp best (S i)). lia.
    + destruct (isnan v); [lia|]. specialize (IH v i (S i)). lia.
Qed.

Lemma argmax_from_bound :
  forall (l : list F) mp best i, (best < i)%nat ->
    (argmax_from mp best i l < i + length l)%nat.
Proof.
  induction l as [|v l IH]; intros mp best i Hb; simpl.
  - lia.
  - destruct (fle v mp).
    + specialize (IH mp best (S i)). lia.
    + destruct (isnan v); [lia|]. specialize (IH v i (S i)). lia.
Qed.

(** On a non-empty array [argmin] and [argmax] return a position of the
    array. *)
Lemma apply_minmax_returns (f : minmax) (l : list F) :
  l <> [] -> exists idx, apply_minmax f l = Return idx /\ (idx < length l)%nat.
Proof.
  intros Hl. destruct l as [|v l]; [congruence|].
  destruct f; simpl.
  - destruct (isnan v); eexists; split; try reflexivity; simpl; try lia.
    pose proof (argmin_from_bound l v 0 1). lia.
  - destruct (isnan v); eexists; split; try reflexivity; simpl; try lia.
    pose proof (argmax_from_bound l v 0 1). lia.
Qed.

Lemma item_returns {A : Type} (l : list A) (i : nat) :
  (i < length l)%nat -> exists a, item l i = Return a /\ nth_error l i = Some a.
Proof.
  intros H. unfold item. destruct (nth_error l i) as [a|] eqn:E.
  - now exists a.
  - apply nth_error_None in E. lia.
Qed.

Lemma item_raises {A : Type} (l : list A) (i : nat) (e : exn) :
  item l i = Raise e -> e = IndexError.
Proof. unfold item. destruct (nth_error l i); simpl; now inversion 1. Qed.

Lemma last_item_returns {A : Type} (l : list A) (d : A) :
  l <> [] -> last_item l = Return (last l d).
Proof.
  intros Hl. destruct (exists_last Hl) as [l' [a ->]].
  rewrite last_last. unfold last_item.
  destruct (l' ++ [a]) eqn:E; [now destruct l'|]. rewrite <- E.
  unfold item. rewrite length_app. simpl.
  replace (length l' + 1 - 1)%nat with (length l') by lia.
  now rewrite nth_error_app2, Nat.sub_diag by lia.
Qed.

Lemma normalize_index_ok (dim i : Z) :
  index_ok dim i ->
  normalize_index dim i = Some (Z.to_nat (wrapped dim i)) /\ 0 <= wrapped dim i < dim.
Proof.
  unfold index_ok, normalize_index, wrapped. intros H.
  destruct (Z.leb_spec 0 i), (Z.ltb_spec i dim), (Z.leb_spec (- dim) i), (Z.ltb_spec i 0);
    simpl; split; try reflexivity; try lia.
Qed.

Lemma normalize_index_bad (dim i : Z) :
  ~ index_ok dim i -> normalize_index dim i = None.
Proof.
  unfold index_ok, normalize_index. intros H.
  destruct (Z.leb_spec 0 i), (Z.ltb_spec i dim), (Z.leb_spec (- dim) i), (Z.ltb_spec i 0);
    simpl; try reflexivity; lia.
Qed.

Lemma index_ok_dec (dim i : Z) : {index_ok dim i} + {~ index_ok dim i}.
Proof.
  unfold index_ok.
  destruct (Z_le_dec (- dim) i), (Z_lt_dec i dim); (left; lia) || (right; lia).
Qed.

End NumpyFacts.

(** ** Indexing a 2-D array *)

Section Indexing.
Context {F : Type} {FA : FloatArith F}.

Lemma rectangular_row (a : grid F) (r : nat) (row : list F) :
  rectangular a -> nth_error a r = Some row -> len row = width a.
Proof. intros Hrect H. apply Hrect. eapply nth_error_In; eassumption. Qed.

(** Inside the accepted ranges [a[y, x]] is the sample at the wrapped
    position. *)
Lemma getitem_ok (a : grid F) (y x : Z) :
  rectangular a -> index_ok (height a) y -> index_ok (width a) x ->
  exists v, getitem a y x = Return v /\ at_wrapped a y x = Some v.
Proof.
  intros Hrect Hy Hx. unfold getitem, at_wrapped.
  change (len a) with (height a).
  destruct (normalize_index_ok _ _ Hy) as [-> Hr].
  destruct (nth_error a (Z.to_nat (wrapped (height a) y))) as [row|] eqn:E.
  - rewrite (rectangular_row a _ row Hrect E).
    destruct (normalize_index_ok _ _ Hx) as [-> Hc].
    destruct (nth_error row (Z.to_nat (wrapped (width a) x))) as [v|] eqn:E'.
    + exists v. now split.
    + apply nth_error_None in E'.
      pose proof (rectangular_row a _ row Hrect E) as Hw. unfold len in Hw.
      remember (width a) as w. lia.
  - apply nth_error_None in E. remember (wrapped (height a) y) as r.
    unfold height, len in Hr. lia.
Qed.

(** Outside them it raises IndexError. *)
Lemma getitem_bad (a : grid F) (y x : Z) :
  rectangular a -> ~ (index_ok (height a) y /\ index_ok (width a) x) ->
  getitem a y x = Raise IndexError.
Proof.
  intros Hrect Hbad. unfold getitem.
  change (len a) with (height a).
  destruct (index_ok_dec (height a) y) as [Hy|Hy].
  - destruct (normalize_index_ok _ _ Hy) as [-> Hr].
    destruct (nth_error a (Z.to_nat (wrapped (height a) y))) as [row|] eqn:E; [|reflexivity].
    rewrite (rectangular_row a _ row Hrect E).
    rewrite normalize_index_bad; [reflexivity|tauto].
  - now rewrite normalize_index_bad.
Qed.

(** [a[ys, xs]] raises exactly when one of the index pairs is outside the
    accepted ranges. *)
Lemma take_raises_iff (a : grid F) :
  rectangular a ->
  forall ys xs, length ys = length xs ->
    (take a ys xs = Raise IndexError <->
     exists i cy cx, nth_error ys i = Some cy /\ nth_error xs i = Some cx /\
                     ~ (index_ok (height a) cy /\ index_ok (width a) cx)).
Proof.
  intros Hrect. induction ys as [|y ys IH]; intros [|x xs] Hlen; simpl in Hlen; try discriminate.
  - simpl. split; [discriminate|]. intros (i & cy & cx & H & _). now destruct i.
  - simpl.
    destruct (index_ok_dec (height a) y) as [Hy|Hy];
      [destruct (index_ok_dec (width a) x) as [Hx|Hx]|].
    + destruct (getitem_ok a y x Hrect Hy Hx) as (v & -> & _). simpl.
      specialize (IH xs ltac:(lia)).
      destruct (take a ys xs) as [vs|e] eqn:E; simpl.
      * split; [discriminate|]. intros (i & cy & cx & Hi & Hj & Hbad).
        destruct i as [|i]; simpl in Hi, Hj.
        -- inversion Hi; inversion Hj; subst. tauto.
        -- assert (@Return (list F) vs = Raise IndexError) as Habs; [|discriminate Habs].
           apply IH. now exists i, cy, cx.
      * pose proof (take_raises a ys xs e E) as ->. split; [|reflexivity]. intros _.
        destruct (proj1 IH eq_refl) as (i & cy & cx & Hi & Hj & Hbad).
        now exists (S i), cy, cx.
    + rewrite getitem_bad by tauto. simpl. split; [|reflexivity]. intros _.
      exists 0%nat, y, x. simpl. tauto.
    + rewrite getitem_bad by tauto. simpl. split; [|reflexivity]. intros _.
      exists 0%nat, y, x. simpl. tauto.
Qed.

(** When every index pair is accepted, the samples are read at the wrapped
    positions. *)
Lemma take_wrapped (a : grid F) :
  rectangular a ->
  forall ys xs, length ys = length xs ->
    (forall i cy cx, nth_error ys i = Some cy -> nth_error xs i = Some cx ->
                     index_ok (height a) cy /\ index_ok (width a) cx) ->
    exists samples,
      take a ys xs = Return samples /\ length samples = length ys /\
      forall i cy cx, nth_error ys i = Some cy -> nth_error xs i = Some cx ->
                      nth_error samples i = at_wrapped a cy cx.
Proof.
  intros Hrect. induction ys as [|y ys IH]; intros [|x xs] Hlen Hok; simpl in Hlen; try discriminate.
  - exists []. simpl. repeat split. intros i cy cx H. now destruct i.
  - destruct (Hok 0%nat y x eq_refl eq_refl) as [Hy Hx].
    destruct (getitem_ok a y x Hrect Hy Hx) as (v & Hv & Hw).
    destruct (IH xs ltac:(lia)) as (vs & Hvs & Hl & Hs).
    { intros i cy cx Hi Hj. apply (Hok (S i)); assumption. }
    exists (v :: vs). simpl. rewrite Hv. simpl. rewrite Hvs. simpl.
    repeat split; [lia|]. intros [|i] cy cx Hi Hj; simpl in *.
    + inversion Hi; inversion Hj; subst. now rewrite Hw.
    + now apply Hs.
Qed.

End Indexing.

(** ** The search loop never fails *)

Section ChainFacts.
Context {F : Type} {FL : Float64 F}.

Lemma arc_xs_length (sp : F) (x : Z) (arc : list F) : length (arc_xs sp x arc) = length arc.
Proof. apply length_map. Qed.

Lemma arc_ys_length (sp : F) (y : Z) (arc : list F) : length (arc_ys sp y arc) = length arc.
Proof. apply length_map. Qed.

Lemma next_arc_length (a : F) : length (next_arc a) = 20%nat.
Proof. apply linspace_length. Qed.

Lemma first_arc_length (a : F) : length (first_arc a) = 20%nat.
Proof. unfold first_arc. now rewrite length_map, linspace_length. Qed.

Lemma nonempty_length {A : Type} (l : list A) : l <> [] <-> (0 < length l)%nat.
Proof. destruct l; simpl; split; intros; try congruence; lia. Qed.

(** The samples of a step that reads them all, the selected index and the
    selected candidate. *)
Lemma step_result_selected (f : minmax) (buf : grid F) (sp : F) (x y : Z)
    (arc : list F) (samples : list F) :
  arc <> [] ->
  take buf (arc_ys sp y arc) (arc_xs sp x arc) = Return samples ->
  exists idx x' y' a,
    apply_minmax f samples = Return idx /\
    nth_error (arc_xs sp x arc) idx = Some x' /\
    nth_error (arc_ys sp y arc) idx = Some y' /\
    nth_error arc idx = Some a /\
    step_result f buf sp x y arc = Return (x', y', next_arc a).
Proof.
  intros Harc Htake.
  assert (length samples = length arc) as Hlen.
  { rewrite <- (arc_ys_length sp y arc). eapply take_length; [|eassumption].
    now rewrite arc_xs_length, arc_ys_length. }
  destruct (apply_minmax_returns f samples) as (idx & Hidx & Hlt).
  { apply nonempty_length. rewrite Hlen. now apply nonempty_length. }
  destruct (item_returns (arc_xs sp x arc) idx) as (x' & Hx & Hx');
    [rewrite arc_xs_length; lia|].
  destruct (item_returns (arc_ys sp y arc) idx) as (y' & Hy & Hy');
    [rewrite arc_ys_length; lia|].
  destruct (item_returns arc idx) as (a & Ha & Ha'); [lia|].
  exists idx, x', y', a. repeat split; try assumption.
  unfold step_result. rewrite Htake. simpl. rewrite Hidx. simpl.
  rewrite Hx. simpl. rewrite Hy. simpl. rewrite Ha. reflexivity.
Qed.

(** The only exception of the [try] block is IndexError. *)
Lemma step_result_raises (f : minmax) (buf : grid F) (sp : F) (x y : Z)
    (arc : list F) (e : exn) :
  arc <> [] -> step_result f buf sp x y arc = Raise e -> e = IndexError.
Proof.
  intros Harc H.
  destruct (take buf (arc_ys sp y arc) (arc_xs sp x arc)) as [samples|e'] eqn:Htake.
  - destruct (step_result_selected f buf sp x y arc samples Harc Htake)
      as (idx & x' & y' & a & _ & _ & _ & _ & Hs).
    congruence.
  - unfold step_result in H. rewrite Htake in H. simpl in H. inversion H; subst.
    eapply take_raises; eassumption.
Qed.

Lemma step_result_arc (f : minmax) (buf : grid F) (sp : F) (x y : Z)
    (arc : list F) (x' y' : Z) (arc' : list F) :
  step_result f buf sp x y arc = Return (x', y', arc') -> arc' <> [].
Proof.
  unfold step_result. intros H.
  destruct (take buf _ _); simpl in H; [|discriminate].
  destruct (apply_minmax f a); simpl in H; [|discriminate].
  destruct (item (arc_xs sp x arc) a0); simpl in H; [|discriminate].
  destruct (item (arc_ys sp y arc) a0); simpl in H; [|discriminate].
  destruct (item arc a0); simpl in H; [|discriminate].
  inversion H; subst. apply nonempty_length. rewrite next_arc_length. lia.
Qed.

(** From a non-empty arc and a non-empty list of points, [n] iterations
    return normally and append exactly [n] points. *)
Lemma chain_loop_returns (f : minmax) (buf : grid F) (sp : F) (n : nat) :
  forall x y arc pts, arc <> [] -> pts <> [] ->
    exists pts', chain_loop f buf sp n x y arc pts = (pts ++ pts', Return tt) /\
                 length pts' = n.
Proof.
  induction n as [|n IH]; intros x y arc pts Harc Hpts.
  - exists []. simpl. now rewrite app_nil_r.
  - cbn [chain_loop].
    destruct (step_result f buf sp x y arc) as [[[x' y'] arc']|e] eqn:Hstep.
    + destruct (IH x' y' arc' (pts ++ [(x', y')])) as (pts' & Heq & Hlen).
      { eapply step_result_arc; eassumption. }
      { now destruct pts. }
      exists ((x', y') :: pts'). rewrite Heq, <- app_assoc. simpl. split; [reflexivity|lia].
    + rewrite (step_result_raises f buf sp x y arc e Harc Hstep).
      rewrite (last_item_returns pts (x, y) Hpts).
      destruct (IH x y arc (pts ++ [last pts (x, y)])) as (pts' & Heq & Hlen);
        [assumption|now destruct pts|].
      exists (last pts (x, y) :: pts'). rewrite Heq, <- app_assoc. simpl.
      split; [reflexivity|lia].
Qed.

Lemma first_arc_nonempty (a : F) : first_arc a <> [].
Proof. apply nonempty_length. rewrite first_arc_length. lia. Qed.

(** The tail angle of a non-empty chain is computed without an exception. *)
Lemma compute_tail_angle_returns (pts : list point) (k : Z) (b : F) :
  pts <> [] -> exists a, compute_tail_angle pts k b = Return a.
Proof.
  intros H. destruct pts as [|p pts]; [congruence|].
  unfold compute_tail_angle. simpl. eexists. reflexivity.
Qed.

End ChainFacts.

(** ** Candidates of a step *)

Section Candidates.
Context {F : Type} {FL : Float64 F}.

Lemma nth_error_combine {A B : Type} (l : list A) (l' : list B) (i : nat) (a : A) (b : B) :
  nth_error (combine l l') i = Some (a, b) <->
  nth_error l i = Some a /\ nth_error l' i = Some b.
Proof.
  revert l' i. induction l as [|h l IH]; intros [|h' l'] [|i]; simpl;
    try (split; [discriminate|intros [? ?]; discriminate]).
  - split; [intros H; inversion H; now split|intros [H H']; congruence].
  - apply IH.
Qed.

Lemma candidates_nth (sp : F) (x y : Z) (arc : list F) (i : nat) (cx cy : Z) :
  nth_error (candidates sp x y arc) i = Some (cx, cy) <->
  nth_error (arc_xs sp x arc) i = Some cx /\ nth_error (arc_ys sp y arc) i = Some cy.
Proof. apply nth_error_combine. Qed.

(** A step with a candidate outside the accepted index ranges raises
    IndexError in its [try] block. *)
Lemma step_result_out_of_bounds (f : minmax) (buf : grid F) (sp : F) (x y : Z)
    (arc : list F) :
  rectangular buf ->
  (exists cx cy, In (cx, cy) (candidates sp x y arc) /\
                 ~ (index_ok (width buf) cx /\ index_ok (height buf) cy)) ->
  step_result f buf sp x y arc = Raise IndexError.
Proof.
  intros Hrect (cx & cy & Hin & Hbad).
  apply In_nth_error in Hin. destruct Hin as [i Hi]. apply candidates_nth in Hi.
  assert (take buf (arc_ys sp y arc) (arc_xs sp x arc) = Raise IndexError) as Ht.
  { apply take_raises_iff; [assumption|now rewrite arc_xs_length, arc_ys_length|].
    exists i, cy, cx. tauto. }
  unfold step_result. now rewrite Ht.
Qed.

(** A step whose candidates are all inside them reads the samples at the
    wrapped positions and selects one of the candidates. *)
Lemma step_result_in_bounds (f : minmax) (buf : grid F) (sp : F) (x y : Z)
    (arc : list F) :
  rectangular buf -> arc <> [] ->
  (forall cx cy, In (cx, cy) (candidates sp x y arc) ->
                 index_ok (width buf) cx /\ index_ok (height buf) cy) ->
  exists samples idx x' y' a,
    take buf (arc_ys sp y arc) (arc_xs sp x arc) = Return samples /\
    (forall i cx cy, nth_error (candidates sp x y arc) i = Some (cx, cy) ->
                     nth_error samples i = at_wrapped buf cy cx) /\
    apply_minmax f samples = Return idx /\
    nth_error (candidates sp x y arc) idx = Some (x', y') /\
    nth_error arc idx = Some a /\
    step_result f buf sp x y arc = Return (x', y', next_arc a).
Proof.
  intros Hrect Harc Hok.
  destruct (take_wrapped buf Hrect (arc_ys sp y arc) (arc_xs sp x arc))
    as (samples & Htake & _ & Hs).
  { now rewrite arc_xs_length, arc_ys_length. }
  { intros i cy cx Hy Hx.
    assert (In (cx, cy) (candidates sp x y arc)) as Hin.
    { eapply nth_error_In. apply candidates_nth. split; eassumption. }
    specialize (Hok cx cy Hin). tauto. }
  destruct (step_result_selected f buf sp x y arc samples Harc Htake)
    as (idx & x' & y' & a & Hidx & Hx & Hy & Ha & Hstep).
  exists samples, idx, x', y', a. repeat split; try assumption.
  - intros i cx cy Hi. apply candidates_nth in Hi. now apply Hs.
  - now apply candidates_nth.
Qed.

End Candidates.

(** ** What [track] returns and what it leaves in the tracker *)

Section TrackFacts.
Context {F : Type} {FL : Float64 F}.
Variable boxFilter : Z -> grid F -> grid F.

(** A tracker is either not configured or has its three seed attributes. *)
Lemma configured_dec (t : TailTracker F) :
  (start_point t = None \/ tail_length t = None \/ n_points t = None) \/
  (exists x y tlen n,
     start_point t = Some (x, y) /\ tail_length t = Some tlen /\ n_points t = Some n).
Proof.
  destruct (start_point t) as [[x y]|]; [|now left; left].
  destruct (tail_length t) as [tlen|]; [|now left; right; left].
  destruct (n_points t) as [n|]; [|now left; right; right].
  right. now exists x, y, tlen, n.
Qed.

Lemma config_seed (t1 t2 : TailTracker F) :
  config t1 = config t2 ->
  start_point t1 = start_point t2 /\ start_angle t1 = start_angle t2.
Proof. unfold config. intros H. now inversion H. Qed.

(** [track] writes none of the configuring attributes. *)
Lemma track_config (image : grid F) (t : TailTracker F) :
  config (fst (track boxFilter image t)) = config t.
Proof.
  destruct (configured_dec t) as [H|(x & y & tlen & n & Hs & Hl & Hn)].
  - now rewrite track_unconfigured.
  - rewrite (track_configured boxFilter image t x y tlen n Hs Hl Hn).
    destruct (np_max image); [|reflexivity]. cbv zeta.
    destruct (n =? 0); [reflexivity|].
    destruct (snd (chain_loop _ _ _ _ _ _ _ _)); [|reflexivity].
    destruct (compute_tail_angle _ _ _); reflexivity.
Qed.

Lemma track_all_config (history : list (grid F)) :
  forall t : TailTracker F, config (track_all boxFilter history t) = config t.
Proof.
  unfold track_all. induction history as [|image history IH]; intros t; simpl.
  - reflexivity.
  - rewrite IH. apply track_config.
Qed.

(** The result of [track] is a function of the frame and of the
    configuring attributes. *)
Lemma track_result_config (image : grid F) (t1 t2 : TailTracker F) :
  config t1 = config t2 ->
  track_result (track boxFilter image t1) = track_result (track boxFilter image t2).
Proof.
  unfold config. intros H. inversion H as [[Hs Hl Hn Ha Hb Hf Hk Ht]].
  destruct (configured_dec t2) as [H2|(x & y & tlen & n & Hs2 & Hl2 & Hn2)].
  - rewrite (track_unconfigured boxFilter image t2 H2).
    rewrite (track_unconfigured boxFilter image t1); [reflexivity|].
    rewrite Hs, Hl, Hn. exact H2.
  - rewrite (track_configured boxFilter image t2 x y tlen n Hs2 Hl2 Hn2).
    rewrite (track_configured boxFilter image t1 x y tlen n) by congruence.
    rewrite Ha, Hf, Hk, Ht.
    destruct (np_max image); [|reflexivity]. cbv zeta.
    destruct (n =? 0); [reflexivity|].
    destruct (snd (chain_loop _ _ _ _ _ _ _ _)); [|reflexivity].
    destruct (compute_tail_angle _ _ _); reflexivity.
Qed.

(** On a configured tracker with at least one search step and a frame that
    has a sample, [track] returns an angle and leaves the points of
    [chain_loop] in [points] and [points_array]. *)
Lemma track_returns (image : grid F) (t : TailTracker F) (x y tlen n : Z) (m : F) :
  start_point t = Some (x, y) -> tail_length t = Some tlen -> n_points t = Some n ->
  n <> 0 -> np_max image = Return m ->
  exists (pts' : list point) (angle : F),
    length pts' = Z.to_nat n /\
    chain_loop (_minmax_function t) (boxFilter (ksize t) (divide image m))
      (fdiv (of_int tlen) (of_int n)) (Z.to_nat n) x y (first_arc (start_angle t))
      [(x, y)] = ((x, y) :: pts', Return tt) /\
    snd (track boxFilter image t) = Return (Some angle) /\
    points (fst (track boxFilter image t)) = (x, y) :: pts' /\
    points_array (fst (track boxFilter image t)) = (x, y) :: pts'.
Proof.
  intros Hs Hl Hn Hn0 Hm.
  rewrite (track_configured boxFilter image t x y tlen n Hs Hl Hn), Hm. cbv zeta.
  destruct (Z.eqb_spec n 0) as [|_]; [contradiction|].
  destruct (chain_loop_returns (_minmax_function t) (boxFilter (ksize t) (divide image m))
              (fdiv (of_int tlen) (of_int n)) (Z.to_nat n) x y
              (first_arc (start_angle t)) [(x, y)])
    as (pts' & Heq & Hlen); [apply first_arc_nonempty|discriminate|].
  rewrite Heq. cbn [fst snd app].
  destruct (compute_tail_angle_returns (@cons point (x, y) pts') (n_tip_points t) (start_angle t))
    as [angle Hangle]; [discriminate|].
  rewrite Hangle. exists pts', angle. repeat split; assumption || reflexivity.
Qed.

(** Outside the data model: a frame without samples, no search step, a
    negative number of steps. *)
Lemma track_empty_frame (image : grid F) (t : TailTracker F) (x y tlen n : Z) :
  start_point t = Some (x, y) -> tail_length t = Some tlen -> n_points t = Some n ->
  concat image = [] ->
  snd (track boxFilter image t) = Raise ValueError.
Proof.
  intros Hs Hl Hn Himage.
  rewrite (track_configured boxFilter image t x y tlen n Hs Hl Hn).
  unfold np_max. now rewrite Himage.
Qed.

Lemma track_zero_points (image : grid F) (t : TailTracker F) (x y tlen : Z) :
  start_point t = Some (x, y) -> tail_length t = Some tlen -> n_points t = Some 0 ->
  concat image <> [] ->
  snd (track boxFilter image t) = Raise ZeroDivisionError.
Proof.
  intros Hs Hl Hn Himage. destruct (np_max_returns image Himage) as [m Hm].
  now rewrite (track_configured boxFilter image t x y tlen 0 Hs Hl Hn), Hm.
Qed.

Lemma track_negative_points (image : grid F) (t : TailTracker F) (x y tlen n : Z) :
  start_point t = Some (x, y) -> tail_length t = Some tlen -> n_points t = Some n ->
  n < 0 -> concat image <> [] ->
  points_array (fst (track boxFilter image t)) = [(x, y)].
Proof.
  intros Hs Hl Hn Hneg Himage. destruct (np_max_returns image Himage) as [m Hm].
  destruct (track_returns image t x y tlen n m Hs Hl Hn ltac:(lia) Hm)
    as (pts' & angle & Hlen & _ & _ & _ & ->).
  replace (Z.to_nat n) with 0%nat in Hlen by lia.
  now destruct pts'.
Qed.

(** C5.  Whenever any of [start_point], [tail_length] and [n_points] is
    unset, [track] returns [None], whatever the frame: it raises nothing,
    and it writes nothing to the tracker. *)
Theorem track_unset_returns_None (image : grid F) (t : TailTracker F) :
  start_point t = None \/ tail_length t = None \/ n_points t = None ->
  snd (track boxFilter image t) = Return None /\
  fst (track boxFilter image t) = t /\
  track_result (track boxFilter image t) = Return None.
Proof.
  intros H. rewrite (track_unconfigured boxFilter image t H). now repeat split.
Qed.

(** C2.  On a configured tracker with [n_points >= 1] and a frame that has
    a sample, [track] returns an angle and leaves a chain of exactly
    [n_points + 1] points, in [points] and in [points_array] alike, whose
    first point is the configured start point; [start_point] itself is not
    written. *)
Theorem track_chain_has_n_points_plus_1 (image : grid F) (t : TailTracker F)
    (x y tlen n : Z) :
  start_point t = Some (x, y) -> tail_length t = Some tlen -> n_points t = Some n ->
  1 <= n -> concat image <> [] ->
  exists angle,
    snd (track boxFilter image t) = Return (Some angle) /\
    len (points_array (fst (track boxFilter image t))) = n + 1 /\
    nth_error (points_array (fst (track boxFilter image t))) 0 = Some (x, y) /\
    points (fst (track boxFilter image t)) = points_array (fst (track boxFilter image t)) /\
    start_point (fst (track boxFilter image t)) = Some (x, y).
Proof.
  intros Hs Hl Hn Hn1 Himage.
  destruct (np_max_returns image Himage) as [m Hm].
  destruct (track_returns image t x y tlen n m Hs Hl Hn ltac:(lia) Hm)
    as (pts' & angle & Hlen & _ & Hret & Hpts & Harr).
  exists angle. rewrite Hpts, Harr. repeat split; try assumption.
  - unfold len. simpl length. rewrite Hlen. lia.
  - destruct (config_seed _ _ (track_config image t)) as [Hs' _]. now rewrite Hs'.
Qed.

(** C9.  [track] writes neither [start_point] nor [start_angle], and what it
    returns for a frame does not depend on the frames tracked before on the
    same tracker: after any two histories the results for the frame (the
    angle and the chain, none for a tracker that is not configured, or the
    exception) are the same, and they are the result on the tracker as it
    was. *)
Theorem track_independent_of_history (history1 history2 : list (grid F))
    (image : grid F) (t : TailTracker F) :
  start_point (fst (track boxFilter image t)) = start_point t /\
  start_angle (fst (track boxFilter image t)) = start_angle t /\
  track_result (track boxFilter image (track_all boxFilter history1 t)) =
  track_result (track boxFilter image (track_all boxFilter history2 t)) /\
  track_result (track boxFilter image (track_all boxFilter history1 t)) =
  track_result (track boxFilter image t).
Proof.
  destruct (config_seed _ _ (track_config image t)) as [Hs Ha].
  repeat split; try assumption.
  - apply track_result_config. now rewrite !track_all_config.
  - apply track_result_config, track_all_config.
Qed.

End TrackFacts.

(** ** Out-of-bounds candidates *)

Section Recovery.
Context {F : Type} {FL : Float64 F}.
Variable boxFilter : Z -> grid F -> grid F.

(** An iteration whose [try] block raises IndexError appends the last point
    again and goes on from the same [x], [y] and [arc]. *)
Lemma track_loop_recovers (buf : grid F) (sp : F) (n : nat) (x y : Z) (arc : list F)
    (t : TailTracker F) (pts : list point) (p : point) :
  points t = pts ++ [p] ->
  step_result (_minmax_function t) buf sp x y arc = Raise IndexError ->
  track_loop buf sp (S n) x y arc t =
  track_loop buf sp n x y arc (set_points (points t ++ [p]) t).
Proof.
  intros Hpts Hstep. cbn [track_loop]. unfold bind at 1. unfold try_except_IndexError.
  rewrite track_try_eq, Hstep, track_except_eq.
  rewrite (last_item_returns (points t) p) by (rewrite Hpts; now destruct pts).
  replace (last (points t) p) with p by (rewrite Hpts; now rewrite last_last).
  reflexivity.
Qed.

(** An iteration whose [try] block returns appends the point it selected and
    goes on from it. *)
Lemma track_loop_advances (buf : grid F) (sp : F) (n : nat) (x y : Z) (arc : list F)
    (t : TailTracker F) (x' y' : Z) (arc' : list F) :
  step_result (_minmax_function t) buf sp x y arc = Return (x', y', arc') ->
  track_loop buf sp (S n) x y arc t =
  track_loop buf sp n x' y' arc' (set_points (points t ++ [(x', y')]) t).
Proof.
  intros Hstep. cbn [track_loop]. unfold bind at 1. unfold try_except_IndexError.
  now rewrite track_try_eq, Hstep.
Qed.

Lemma track_never_IndexError (image : grid F) (t : TailTracker F) :
  snd (track boxFilter image t) <> Raise IndexError.
Proof.
  destruct (configured_dec t) as [H|(x & y & tlen & n & Hs & Hl & Hn)].
  - now rewrite track_unconfigured.
  - destruct (np_max image) as [m|e] eqn:Hm.
    + destruct (Z.eq_dec n 0) as [->|Hn0].
      * rewrite (track_configured boxFilter image t x y tlen 0 Hs Hl Hn), Hm.
        discriminate.
      * destruct (track_returns boxFilter image t x y tlen n m Hs Hl Hn Hn0 Hm)
          as (pts' & angle & _ & _ & -> & _). discriminate.
    + rewrite (track_configured boxFilter image t x y tlen n Hs Hl Hn), Hm.
      destruct (np_max_raises image e Hm) as [_ ->]. discriminate.
Qed.

(** C3.  When a candidate of a search step is outside the index ranges of
    the buffer, the IndexError of the step is handled inside the loop: the
    previous chain point is appended again and the next iteration starts
    from the same [x], [y] and [arc]; and [track] never raises IndexError,
    whatever the tracker and the frame. *)
Theorem out_of_bounds_step_repeats_previous_point :
  (forall (buf : grid F) (sp : F) (n : nat) (x y : Z) (arc : list F)
          (t : TailTracker F) (pts : list point) (p : point),
      rectangular buf ->
      points t = pts ++ [p] ->
      (exists cx cy, In (cx, cy) (candidates sp x y arc) /\
                     ~ (index_ok (width buf) cx /\ index_ok (height buf) cy)) ->
      track_loop buf sp (S n) x y arc t =
      track_loop buf sp n x y arc (set_points (pts ++ [p; p]) t)) /\
  (forall (image : grid F) (t : TailTracker F),
      snd (track boxFilter image t) <> Raise IndexError).
Proof.
  split.
  - intros buf sp n x y arc t pts p Hrect Hpts Hbad.
    rewrite (track_loop_recovers buf sp n x y arc t pts p Hpts).
    + rewrite Hpts, <- app_assoc. reflexivity.
    + now apply step_result_out_of_bounds.
  - apply track_never_IndexError.
Qed.

End Recovery.

(** ** Frames whose maximum is zero *)

Section ZeroMaximum.
Context {F : Type} {FA : FloatArith F}.
Variable boxFilter : Z -> grid F -> grid F.

(** C4, as the code has it.  [preprocess] has no check of the maximum: for
    every frame that has a sample, whatever its maximum [m], it returns the
    box-filtered quotient of the frame by [m] and stores the frame, the
    quotient and the result; the one exception it raises is the ValueError
    of [np.max] on a frame without samples. *)
Theorem preprocess_divides_by_any_maximum :
  (forall (image : grid F) (t : TailTracker F),
      concat image <> [] ->
      exists m,
        np_max image = Return m /\
        preprocess boxFilter image t =
        (set_filtered (Some (boxFilter (ksize t) (divide image m)))
           (set_normalized (Some (divide image m)) (set_image (Some image) t)),
         Return (boxFilter (ksize t) (divide image m)))) /\
  (forall (image : grid F) (t : TailTracker F) (e : exn),
      snd (preprocess boxFilter image t) = Raise e ->
      concat image = [] /\ e = ValueError).
Proof.
  split.
  - intros image t Himage. destruct (np_max_returns image Himage) as [m Hm].
    exists m. split; [assumption|]. now rewrite preprocess_eq, Hm.
  - intros image t e. rewrite preprocess_eq.
    destruct (np_max image) as [m|e'] eqn:Hm; [discriminate|].
    simpl. intros H. inversion H; subst. now apply np_max_raises.
Qed.

End ZeroMaximum.

(** The maximum of the all-zero frame is zero, and [preprocess] returns the
    filtered quotient, whose samples are all NaN: nothing is raised. *)
Lemma preprocess_zero_frame_returns_nan :
  np_max zero_frame = Return (S754_zero false) /\
  _normalized (fst (preprocess cv2_boxFilter zero_frame b64_tracker)) =
    Some [[S754_nan; S754_nan]; [S754_nan; S754_nan]] /\
  snd (preprocess cv2_boxFilter zero_frame b64_tracker) =
    Return [[S754_nan; S754_nan]; [S754_nan; S754_nan]] /\
  ~ (exists e, snd (preprocess cv2_boxFilter zero_frame b64_tracker) = Raise e).
Proof.
  repeat split; try (vm_compute; reflexivity).
  intros [e H]. vm_compute in H. discriminate.
Qed.

(** In binary64 the norm of [(1, 1)] converts to 1, and the norms of
    [(10, 0)] and [(3, 4)] to 10 and 5. *)
Example b64_int_norm :
  map (fun v : Z * Z =>
         to_int (fsqrt (fadd (fmul (of_int (fst v)) (of_int (fst v)))
                             (fmul (of_int (snd v)) (of_int (snd v)))) : spec_float))
      [(1, 1); (10, 0); (3, 4)] = [1; 10; 5].
Proof. vm_compute. reflexivity. Qed.

(** ** The tracker over the real numbers *)

Local Open Scope R_scope.

(** *** Comparisons and selection *)

Lemma Rleb_true (a b : R) : Rleb a b = true <-> a <= b.
Proof.
  unfold Rleb. destruct (Rle_dec a b); split; intros H;
    try reflexivity; try assumption; try discriminate; contradiction.
Qed.

Lemma Rleb_false (a b : R) : Rleb a b = false <-> b < a.
Proof.
  unfold Rleb. destruct (Rle_dec a b); split; intros H;
    try reflexivity; try discriminate; lra.
Qed.

(** Two lists of 20 angles, equal angle by angle. *)
Ltac arc_equal :=
  cbn [map seq Nat.sub Nat.eqb];
  cbn [fadd fmul fdiv fsub fopp of_int fpi arith R_Float64 R_FloatArith];
  repeat (apply (f_equal2 cons);
          [rewrite ?INR_IZR_INZ; cbn [Z.of_nat Pos.of_succ_nat Pos.succ]; lra|]);
  reflexivity.

(** The first arc of [track] and the arc that follows a selected angle are
    the 20 evenly spaced angles of the specification. *)
Lemma first_arc_spec (a : R) : first_arc a = spec_arc a.
Proof. unfold first_arc, spec_arc, linspace. arc_equal. Qed.

Lemma next_arc_spec (a : R) : next_arc a = spec_arc a.
Proof. unfold next_arc, spec_arc, linspace. arc_equal. Qed.

Lemma isnan_R (v : R) : isnan v = false.
Proof.
  unfold isnan. cbn [fle arith R_Float64 R_FloatArith].
  replace (Rleb v v) with true; [reflexivity|]. symmetry. apply Rleb_true. lra.
Qed.

Ltac rminmax :=
  unfold Rmin, Rmax in *;
  repeat match goal with
         | |- context [Rle_dec ?x ?y] =>
             lazymatch x with
             | context [Rle_dec] => fail
             | _ => lazymatch y with
                    | context [Rle_dec] => fail
                    | _ => destruct (Rle_dec x y)
                    end
             end
         end;
  try lra.

Lemma fold_Rmin_base (l : list R) (a b : R) :
  (a <= b)%R -> fold_right Rmin a l = Rmin a (fold_right Rmin b l).
Proof.
  intros Hab. induction l as [|v l IH]; simpl.
  - rminmax.
  - rewrite IH. set (m := fold_right Rmin b l). rminmax.
Qed.

Lemma fold_Rmax_base (l : list R) (a b : R) :
  (b <= a)%R -> fold_right Rmax a l = Rmax a (fold_right Rmax b l).
Proof.
  intros Hab. induction l as [|v l IH]; simpl.
  - rminmax.
  - rewrite IH. set (m := fold_right Rmax b l). rminmax.
Qed.

(** [np.argmin] returns the first position of the least sample, [np.argmax]
    the first position of the greatest. *)
Lemma argmin_from_first_least (l : list R) :
  forall mp best i,
    argmin_from mp best i l =
    if Rleb mp (fold_right Rmin mp l) then best
    else (i + first_index (fun v => Rleb v (fold_right Rmin mp l)) l)%nat.
Proof.
  induction l as [|v l IH]; intros mp best i.
  - simpl. replace (Rleb mp mp) with true; [reflexivity|]. symmetry. apply Rleb_true. lra.
  - cbn [argmin_from fold_right first_index]. rewrite isnan_R.
    cbn [fle arith R_Float64 R_FloatArith].
    destruct (Rleb mp v) eqn:Hv.
    + apply Rleb_true in Hv. rewrite IH.
      set (m := fold_right Rmin mp l).
      destruct (Rleb mp m) eqn:Hm.
      * apply Rleb_true in Hm.
        replace (Rleb mp (Rmin v m)) with true; [reflexivity|].
        symmetry. apply Rleb_true. rminmax.
      * apply Rleb_false in Hm.
        replace (Rmin v m) with m by rminmax.
        replace (Rleb mp m) with false by (symmetry; apply Rleb_false; lra).
        replace (Rleb v m) with false by (symmetry; apply Rleb_false; lra).
        cbv iota. lia.
    + apply Rleb_false in Hv. rewrite IH.
      rewrite (fold_Rmin_base l v mp) by lra.
      set (m := fold_right Rmin mp l).
      replace (Rmin v (Rmin v m)) with (Rmin v m) by rminmax.
      replace (Rleb mp (Rmin v m)) with false
        by (symmetry; apply Rleb_false; rminmax).
      destruct (Rleb v (Rmin v m)); cbv iota; lia.
Qed.

Lemma argmax_from_first_greatest (l : list R) :
  forall mp best i,
    argmax_from mp best i l =
    if Rleb (fold_right Rmax mp l) mp then best
    else (i + first_index (fun v => Rleb (fold_right Rmax mp l) v) l)%nat.
Proof.
  induction l as [|v l IH]; intros mp best i.
  - simpl. replace (Rleb mp mp) with true; [reflexivity|]. symmetry. apply Rleb_true. lra.
  - cbn [argmax_from fold_right first_index]. rewrite isnan_R.
    cbn [fle arith R_Float64 R_FloatArith].
    destruct (Rleb v mp) eqn:Hv.
    + apply Rleb_true in Hv. rewrite IH.
      set (m := fold_right Rmax mp l).
      destruct (Rleb m mp) eqn:Hm.
      * apply Rleb_true in Hm.
        replace (Rleb (Rmax v m) mp) with true; [reflexivity|].
        symmetry. apply Rleb_true. rminmax.
      * apply Rleb_false in Hm.
        replace (Rmax v m) with m by rminmax.
        replace (Rleb m mp) with false by (symmetry; apply Rleb_false; lra).
        replace (Rleb m v) with false by (symmetry; apply Rleb_false; lra).
        cbv iota. lia.
    + apply Rleb_false in Hv. rewrite IH.
      rewrite (fold_Rmax_base l v mp) by lra.
      set (m := fold_right Rmax mp l).
      replace (Rmax v (Rmax v m)) with (Rmax v m) by rminmax.
      replace (Rleb (Rmax v m) mp) with false
        by (symmetry; apply Rleb_false; rminmax).
      destruct (Rleb (Rmax v m) v); cbv iota; lia.
Qed.

(** The function that the [background] setter installs. *)
Lemma minmax_of_names (s : string) (b : Background) (t : TailTracker R) :
  lower s = background_name b ->
  _minmax_function (background_setter s t) =
  match b with Light => np_argmin | Dark => np_argmax end.
Proof. intros H. unfold background_setter. rewrite H. now destruct b. Qed.

Lemma apply_minmax_spec (b : Background) (samples : list R) :
  samples <> [] ->
  apply_minmax (match b with Light => np_argmin | Dark => np_argmax end) samples =
  Return (spec_select b samples).
Proof.
  intros H. destruct samples as [|v l]; [congruence|].
  destruct b; cbn [apply_minmax argmin argmax spec_select]; rewrite isnan_R; f_equal.
  - rewrite argmin_from_first_least. unfold least. cbn [hd fold_right first_index].
    replace (Rmin v (fold_right Rmin v l)) with (fold_right Rmin v l).
    2:{ rewrite (fold_Rmin_base l v v) by lra.
        set (m := fold_right Rmin v l). rminmax. }
    destruct (Rleb v (fold_right Rmin v l)); reflexivity.
  - rewrite argmax_from_first_greatest. unfold greatest. cbn [hd fold_right first_index].
    replace (Rmax v (fold_right Rmax v l)) with (fold_right Rmax v l).
    2:{ rewrite (fold_Rmax_base l v v) by lra.
        set (m := fold_right Rmax v l). rminmax. }
    destruct (Rleb (fold_right Rmax v l) v); reflexivity.
Qed.

(** *** Strict extrema *)

Lemma fold_Rmin_lower (l : list R) (a v : R) :
  (forall w, In w l -> v <= w) -> v <= a -> v <= fold_right Rmin a l.
Proof.
  intros Hall Ha. induction l as [|x l IH]; simpl; [assumption|].
  assert (v <= x) by (apply Hall; now left).
  assert (v <= fold_right Rmin a l) by (apply IH; intros; apply Hall; now right).
  set (m := fold_right Rmin a l) in *. rminmax.
Qed.

Lemma fold_Rmax_upper (l : list R) (a v : R) :
  (forall w, In w l -> w <= v) -> a <= v -> fold_right Rmax a l <= v.
Proof.
  intros Hall Ha. induction l as [|x l IH]; simpl; [assumption|].
  assert (x <= v) by (apply Hall; now left).
  assert (fold_right Rmax a l <= v) by (apply IH; intros; apply Hall; now right).
  set (m := fold_right Rmax a l) in *. rminmax.
Qed.

Lemma fold_Rmin_at (l : list R) (a : R) (i : nat) (v : R) :
  nth_error l i = Some v -> fold_right Rmin a l <= v.
Proof.
  revert i. induction l as [|x l IH]; intros [|i] Hi; simpl in *; try discriminate.
  - inversion Hi; subst. set (m := fold_right Rmin a l). rminmax.
  - specialize (IH i Hi). set (m := fold_right Rmin a l) in *. rminmax.
Qed.

Lemma fold_Rmax_at (l : list R) (a : R) (i : nat) (v : R) :
  nth_error l i = Some v -> v <= fold_right Rmax a l.
Proof.
  revert i. induction l as [|x l IH]; intros [|i] Hi; simpl in *; try discriminate.
  - inversion Hi; subst. set (m := fold_right Rmax a l). rminmax.
  - specialize (IH i Hi). set (m := fold_right Rmax a l) in *. rminmax.
Qed.

Lemma first_index_unique (p : R -> bool) (l : list R) (i : nat) (v : R) :
  nth_error l i = Some v -> p v = true ->
  (forall j w, j <> i -> nth_error l j = Some w -> p w = false) ->
  first_index p l = i.
Proof.
  revert i. induction l as [|h l IH]; intros [|i] Hi Hp Hother; simpl in *; try discriminate.
  - inversion Hi; subst. now rewrite Hp.
  - rewrite (Hother 0%nat h) by (discriminate || reflexivity).
    f_equal. apply IH; try assumption.
    intros j w Hj Hw. apply (Hother (S j) w); [congruence|assumption].
Qed.

Lemma strict_extremum_bounds (samples : list R) (i : nat) (v : R) (lt : R -> R -> Prop) :
  nth_error samples i = Some v ->
  (forall j w, j <> i -> nth_error samples j = Some w -> lt v w) ->
  forall w, In w samples -> w = v \/ lt v w.
Proof.
  intros Hi Hs w Hw. apply In_nth_error in Hw. destruct Hw as [j Hj].
  destruct (Nat.eq_dec j i) as [->|Hne].
  - left. congruence.
  - right. eapply Hs; eassumption.
Qed.

(** Background flip: a strictly least sample is the one selected for a light
    background, a strictly greatest one for a dark background. *)
Lemma spec_select_strict (samples : list R) (i : nat) (v : R) :
  nth_error samples i = Some v ->
  ((forall j w, j <> i -> nth_error samples j = Some w -> v < w) ->
   spec_select Light samples = i) /\
  ((forall j w, j <> i -> nth_error samples j = Some w -> w < v) ->
   spec_select Dark samples = i).
Proof.
  intros Hi. split; intros Hs; cbn [spec_select].
  - pose proof (strict_extremum_bounds samples i v Rlt Hi Hs) as Hall.
    apply (first_index_unique _ samples i v Hi).
    + apply Rleb_true. unfold least. apply fold_Rmin_lower.
      * intros w Hw. destruct (Hall w Hw); lra.
      * destruct samples as [|h l]; [destruct i; simpl in Hi; discriminate Hi|]. cbn [hd].
        destruct (Hall h); [now left|lra|lra].
    + intros j w Hj Hw. apply Rleb_false.
      assert (least samples <= v) as Hle by (apply (fold_Rmin_at samples _ i v Hi)).
      specialize (Hs j w Hj Hw). lra.
  - pose proof (strict_extremum_bounds samples i v (fun a b => b < a) Hi Hs) as Hall.
    apply (first_index_unique _ samples i v Hi).
    + apply Rleb_true. unfold greatest. apply fold_Rmax_upper.
      * intros w Hw. destruct (Hall w Hw); lra.
      * destruct samples as [|h l]; [destruct i; simpl in Hi; discriminate Hi|]. cbn [hd].
        destruct (Hall h); [now left|lra|lra].
    + intros j w Hj Hw. apply Rleb_false.
      assert (v <= greatest samples) as Hle by (apply (fold_Rmax_at samples _ i v Hi)).
      specialize (Hs j w Hj Hw). lra.
Qed.

(** *** The loop against the algorithm of the specification *)

Lemma spec_candidates_xs (sp : R) (x y : Z) (arc : list R) :
  map fst (map (spec_candidate sp x y) arc) = arc_xs sp x arc.
Proof. rewrite map_map. reflexivity. Qed.

Lemma spec_candidates_ys (sp : R) (x y : Z) (arc : list R) :
  map snd (map (spec_candidate sp x y) arc) = arc_ys sp y arc.
Proof. rewrite map_map. reflexivity. Qed.

Lemma spec_arc_nonempty (a : R) : spec_arc a <> [].
Proof. discriminate. Qed.

(** One iteration of the loop on the arc of the angle [a] is one step of the
    specification. *)
Lemma step_result_spec (b : Background) (buf : grid R) (sp : R) (x y : Z) (a : R)
    (pts : list point) :
  pts <> [] ->
  match step_result (minmax_of_background b) buf sp x y (spec_arc a) with
  | Return (x', y', arc') =>
      exists a', arc' = spec_arc a' /\
                 spec_step b buf sp (x, y, a) pts = ((x', y', a'), pts ++ [(x', y')])
  | Raise e =>
      e = IndexError /\
      last_item pts = Return (last pts (x, y)) /\
      spec_step b buf sp (x, y, a) pts = ((x, y, a), pts ++ [last pts (x, y)])
  end.
Proof.
  intros Hpts. unfold spec_step.
  rewrite spec_candidates_xs, spec_candidates_ys.
  destruct (take buf (arc_ys sp y (spec_arc a)) (arc_xs sp x (spec_arc a)))
    as [samples|e] eqn:Htake.
  - destruct (step_result_selected (minmax_of_background b) buf sp x y (spec_arc a)
                samples (spec_arc_nonempty a) Htake)
      as (idx & x' & y' & a' & Hidx & Hx & Hy & Ha & ->).
    assert (samples <> []) as Hs.
    { intros ->. apply take_length in Htake.
      - rewrite arc_ys_length in Htake. discriminate Htake.
      - now rewrite arc_xs_length, arc_ys_length. }
    unfold minmax_of_background in Hidx.
    rewrite (apply_minmax_spec b samples Hs) in Hidx.
    injection Hidx as Hi. rewrite Hi. exists a'. split; [apply next_arc_spec|].
    assert (nth_error (map (spec_candidate sp x y) (spec_arc a)) idx = Some (x', y')) as Hc.
    { rewrite nth_error_map, Ha. simpl. unfold arc_xs, arc_ys in Hx, Hy.
      rewrite nth_error_map, Ha in Hx, Hy. simpl in Hx, Hy.
      inversion Hx; inversion Hy. reflexivity. }
    rewrite (nth_error_nth _ _ _ Hc), (nth_error_nth _ _ _ Ha). reflexivity.
  - assert (step_result (minmax_of_background b) buf sp x y (spec_arc a) = Raise e) as ->.
    { unfold step_result. now rewrite Htake. }
    split; [eapply take_raises; eassumption|].
    split; [now apply last_item_returns|reflexivity].
Qed.

Lemma chain_loop_spec (b : Background) (buf : grid R) (sp : R) (n : nat) :
  forall x y a pts, pts <> [] ->
    chain_loop (minmax_of_background b) buf sp n x y (spec_arc a) pts =
    (spec_steps b buf sp n (x, y, a) pts, Return tt).
Proof.
  induction n as [|n IH]; intros x y a pts Hpts; [reflexivity|].
  cbn [chain_loop spec_steps].
  pose proof (step_result_spec b buf sp x y a pts Hpts) as Hstep.
  destruct (step_result (minmax_of_background b) buf sp x y (spec_arc a))
    as [[[x' y'] arc']|e].
  - destruct Hstep as (a' & -> & ->). apply IH. now destruct pts.
  - destruct Hstep as (-> & -> & ->). apply IH. now destruct pts.
Qed.

(** *** The refinement *)

(** One iteration of [track_loop] on the arc of the angle [a] is one step of
    the specification. *)
Lemma track_loop_spec_step (b : Background) (buf : grid R) (sp : R) (k : nat)
    (x y : Z) (a : R) (t : TailTracker R) :
  points t <> [] ->
  _minmax_function t = minmax_of_background b ->
  track_loop buf sp (S k) x y (spec_arc a) t =
  track_loop buf sp k
    (fst (fst (fst (spec_step b buf sp (x, y, a) (points t)))))
    (snd (fst (fst (spec_step b buf sp (x, y, a) (points t)))))
    (spec_arc (snd (fst (spec_step b buf sp (x, y, a) (points t)))))
    (set_points (snd (spec_step b buf sp (x, y, a) (points t))) t).
Proof.
  intros Hpts Hf.
  pose proof (step_result_spec b buf sp x y a (points t) Hpts) as Hstep.
  rewrite <- Hf in Hstep.
  destruct (step_result (_minmax_function t) buf sp x y (spec_arc a))
    as [[[x' y'] arc']|e] eqn:E.
  - destruct Hstep as (a' & -> & ->). cbn [fst snd].
    now apply track_loop_advances.
  - destruct Hstep as (-> & Hlast & ->). cbn [fst snd].
    cbn [track_loop]. unfold bind at 1. unfold try_except_IndexError.
    now rewrite track_try_eq, E, track_except_eq, Hlast.
Qed.

(** *** Truncation *)

Lemma Rtrunc_nonneg (r : R) (z : Z) :
  0 <= IZR z -> IZR z <= r < IZR z + 1 -> Rtrunc r = z.
Proof.
  intros Hz [Hl Hu]. unfold Rtrunc. destruct (Rle_dec 0 r) as [_|Hn]; [|lra].
  symmetry. apply Int_part_spec. lra.
Qed.

Lemma Rtrunc_nonpos (r : R) (z : Z) :
  IZR z <= 0 -> IZR z - 1 < r <= IZR z -> Rtrunc r = z.
Proof.
  intros Hz [Hl Hu]. unfold Rtrunc. destruct (Rle_dec 0 r) as [Hr|Hn].
  - assert (IZR z = 0) as Hz0 by lra. apply eq_IZR in Hz0. subst z.
    symmetry. apply Int_part_spec. lra.
  - replace z with (- (- z))%Z by lia. f_equal. symmetry. apply Int_part_spec.
    rewrite opp_IZR. lra.
Qed.

Lemma Zsqrt_bounds (n : Z) :
  (0 <= n)%Z -> IZR (Z.sqrt n) <= sqrt (IZR n) < IZR (Z.sqrt n) + 1.
Proof.
  intros Hn. pose proof (Z.sqrt_spec n Hn) as [Hlo Hhi].
  pose proof (Z.sqrt_nonneg n) as Hs.
  set (s := Z.sqrt n) in *.
  assert (0 <= IZR s) as Hs' by now apply IZR_le.
  split.
  - rewrite <- (sqrt_square (IZR s)) by assumption. apply sqrt_le_1_alt.
    rewrite <- mult_IZR. now apply IZR_le.
  - replace (IZR s + 1) with (IZR (Z.succ s)) by (rewrite succ_IZR; lra).
    rewrite <- (sqrt_square (IZR (Z.succ s))) by (apply IZR_le; lia).
    apply sqrt_lt_1_alt. split; [now apply IZR_le|].
    rewrite <- mult_IZR. now apply IZR_lt.
Qed.

(** The truncated square root of a natural number is its integer square
    root. *)
Lemma Rtrunc_sqrt (n : Z) : (0 <= n)%Z -> Rtrunc (sqrt (IZR n)) = Z.sqrt n.
Proof.
  intros Hn. apply Rtrunc_nonneg; [apply IZR_le, Z.sqrt_nonneg|].
  now apply Zsqrt_bounds.
Qed.

(** *** The angle of a vector *)

Lemma hypot_scaled (x y : R) :
  x <> 0 -> sqrt (x * x + y * y) = Rabs x * sqrt (1 + (y / x)²).
Proof.
  intros Hx. rewrite <- (sqrt_Rsqr_abs x), <- sqrt_mult_alt by apply Rle_0_sqr.
  f_equal. unfold Rsqr. field. assumption.
Qed.

Lemma sqrt_1_plus_sqr_pos (t : R) : 0 < sqrt (1 + t²).
Proof. apply sqrt_lt_R0. pose proof (Rle_0_sqr t). lra. Qed.

(** [Ratan2 y x] is the angle of the vector [(x, y)]: the vector is its
    length times [(cos, sin)] of the angle. *)
Lemma Ratan2_polar (x y : R) :
  x = sqrt (x * x + y * y) * cos (Ratan2 y x) /\
  y = sqrt (x * x + y * y) * sin (Ratan2 y x).
Proof.
  unfold Ratan2.
  destruct (Rlt_dec 0 x) as [Hx|Hx]; [|destruct (Rlt_dec x 0) as [Hx'|Hx']].
  - rewrite hypot_scaled, cos_atan, sin_atan, Rabs_right by lra.
    pose proof (sqrt_1_plus_sqr_pos (y / x)). split; field; lra.
  - assert (forall th, (th = atan (y / x) + PI \/ th = atan (y / x) - PI) ->
              x = sqrt (x * x + y * y) * cos th /\ y = sqrt (x * x + y * y) * sin th) as H.
    { intros th Hth.
      assert (cos th = - cos (atan (y / x)) /\ sin th = - sin (atan (y / x))) as [-> ->].
      { destruct Hth as [->| ->].
        - now rewrite neg_cos, neg_sin.
        - rewrite cos_minus, sin_minus, cos_PI, sin_PI. split; ring. }
      rewrite hypot_scaled, cos_atan, sin_atan, Rabs_left by lra.
      pose proof (sqrt_1_plus_sqr_pos (y / x)). split; field; lra. }
    destruct (Rle_dec 0 y); apply H; auto.
  - assert (x = 0) as -> by lra.
    replace (0 * 0 + y * y) with (Rsqr y) by (unfold Rsqr; ring).
    rewrite sqrt_Rsqr_abs.
    destruct (Rlt_dec 0 y) as [Hy|Hy]; [|destruct (Rlt_dec y 0) as [Hy'|Hy']].
    + rewrite cos_PI2, sin_PI2, Rabs_right by lra. split; ring.
    + replace (- PI / 2) with (- (PI / 2)) by field.
      rewrite cos_neg, sin_neg, cos_PI2, sin_PI2, Rabs_left by lra. split; ring.
    + assert (y = 0) as -> by lra. rewrite Rabs_R0. split; ring.
Qed.

Lemma Ratan2_range (x y : R) : - PI < Ratan2 y x <= PI.
Proof.
  unfold Ratan2. pose proof PI_RGT_0 as Hpi. pose proof (atan_bound (y / x)) as Hb.
  destruct (Rlt_dec 0 x) as [Hx|Hx]; [lra|].
  destruct (Rlt_dec x 0) as [Hx'|Hx'].
  - assert (y / x <= 0 -> atan (y / x) <= 0) as Hneg.
    { intros H. rewrite <- atan_0. destruct H as [H|H]; [left; now apply atan_increasing|right; now rewrite H]. }
    assert (0 < y / x -> 0 < atan (y / x)) as Hpos.
    { intros H. rewrite <- atan_0. now apply atan_increasing. }
    destruct (Rle_dec 0 y) as [Hy|Hy].
    + assert (y / x <= 0).
      { unfold Rdiv. assert (/ x < 0) by now apply Rinv_lt_0_compat. nra. }
      specialize (Hneg H). lra.
    + assert (0 < y / x).
      { unfold Rdiv. assert (/ x < 0) by now apply Rinv_lt_0_compat. nra. }
      specialize (Hpos H). lra.
  - destruct (Rlt_dec 0 y); [lra|]. destruct (Rlt_dec y 0); lra.
Qed.

(** *** The seed from two points *)

Lemma tail_length_of_from_points (p0 p1 : point) (n : option Z) (bg : string) (k tip : Z) :
  tail_length (from_points p0 p1 n bg k tip : TailTracker R) =
  Some (Z.sqrt ((fst p1 - fst p0) * (fst p1 - fst p0) + (snd p1 - snd p0) * (snd p1 - snd p0))).
Proof.
  unfold from_points, init, background_setter. cbn [tail_length set_background_attrs].
  f_equal. cbn [fsqrt fadd fmul of_int to_int arith R_Float64 R_FloatArith fst snd].
  rewrite <- !mult_IZR, <- plus_IZR. apply Rtrunc_sqrt.
  apply Z.add_nonneg_nonneg; apply Z.square_nonneg.
Qed.

(** For [(0, 0)] and [(1, 1)] the tail length is 1, which is not the
    distance between the two points (the square root of 2). *)
Lemma from_points_diagonal_is_not_the_distance :
  tail_length (from_points (0, 0)%Z (1, 1)%Z (Some 1%Z) "light" 7 3 : TailTracker R) = Some 1%Z /\
  ~ (exists d, tail_length (from_points (0, 0)%Z (1, 1)%Z (Some 1%Z) "light" 7 3 : TailTracker R)
               = Some d /\ IZR d = euclidean_distance (0, 0)%Z (1, 1)%Z).
Proof.
  split; [rewrite tail_length_of_from_points; reflexivity|].
  intros (d & Hd & He). rewrite tail_length_of_from_points in Hd.
  injection Hd as <-. cbn in He. unfold euclidean_distance in He. cbn [fst snd] in He.
  replace (IZR (1 - 0) * IZR (1 - 0) + IZR (1 - 0) * IZR (1 - 0)) with 2 in He
    by (simpl; lra).
  assert (sqrt 2 * sqrt 2 = 2) as H2 by (apply sqrt_sqrt; lra).
  rewrite <- He in H2. lra.
Qed.

(** C8.  [from_points] seeds the tracker at [p0] with the angle
    [atan2(-(p1.y - p0.y), p1.x - p0.x)]; for [(0, 0)] and [(0, 10)] the
    angle is [-PI / 2]. *)
Theorem from_points_seed (p0 p1 : point) (n : option Z) (bg : string) (k tip : Z) :
  start_point (from_points p0 p1 n bg k tip : TailTracker R) = Some p0 /\
  start_angle (from_points p0 p1 n bg k tip : TailTracker R) =
    Ratan2 (- (IZR (snd p1) - IZR (snd p0))) (IZR (fst p1) - IZR (fst p0)) /\
  start_angle (from_points (0, 0)%Z (0, 10)%Z n bg k tip : TailTracker R) = - (PI / 2).
Proof.
  repeat split.
  - unfold from_points, init, background_setter. cbn. now rewrite opp_IZR, !minus_IZR.
  - unfold from_points, init, background_setter. cbn. unfold Ratan2.
    destruct (Rlt_dec 0 0) as [H|_]; [lra|].
    destruct (Rlt_dec 0 (-10)) as [H|_]; [lra|].
    destruct (Rlt_dec (-10) 0) as [_|H]; lra.
Qed.

(** *** The tail angle *)

Lemma last_points_skipn (k : nat) (chain : list point) :
  last_points k chain = skipn (length chain - k) chain.
Proof. unfold last_points. now rewrite firstn_rev, rev_involutive. Qed.

Lemma fold_left_Rplus_IZR (l : list Z) (a : R) :
  fold_left Rplus (map IZR l) a = a + IZR (fold_right Z.add 0%Z l).
Proof.
  revert a. induction l as [|z l IH]; intros a; simpl.
  - lra.
  - rewrite IH, plus_IZR. lra.
Qed.

Lemma mean_spec (col : list Z) : mean col = spec_mean col.
Proof.
  unfold mean, spec_mean. cbn [fdiv fadd of_int arith R_Float64 R_FloatArith].
  rewrite fold_left_Rplus_IZR. f_equal. lra.
Qed.

Lemma compute_tail_angle_spec (chain : list point) (k : Z) (b : R) :
  (1 <= k <= len chain)%Z ->
  compute_tail_angle chain k b =
  Return (Ratan2 (- (snd (tail_vector (Z.to_nat k) chain) - sin b))
                 (fst (tail_vector (Z.to_nat k) chain) - cos b)).
Proof.
  intros [Hk Hlen]. destruct chain as [|p0 chain]; [unfold len in Hlen; simpl in Hlen; lia|].
  unfold compute_tail_angle, tail_vector. rewrite last_points_skipn.
  unfold slice_from_neg. destruct (Z.ltb_spec 0 k) as [_|]; [|lia].
  cbn [item nth_error of_option obind hd fst snd].
  rewrite !mean_spec. reflexivity.
Qed.

(** *** A search step on the edge of a frame *)

Lemma cos_arc_bounds (th : R) :
  - (PI / 2) <= th <= PI / 2 -> th <> 0 -> 0 <= cos th < 1.
Proof.
  intros [Hl Hu] Hn. pose proof PI_RGT_0 as Hpi. split; [now apply cos_ge_0|].
  rewrite <- cos_0. destruct (Rlt_dec 0 th) as [Hp|Hp].
  - apply cos_decreasing_1; lra.
  - rewrite <- (cos_neg th). apply cos_decreasing_1; lra.
Qed.

Lemma sin_arc_bounds (th : R) :
  - (PI / 2) < th < PI / 2 -> -1 < sin th < 1.
Proof.
  intros [Hl Hu]. pose proof PI_RGT_0 as Hpi. split.
  - replace (-1) with (sin (- (PI / 2))) by (rewrite sin_neg, sin_PI2; lra).
    apply sin_increasing_1; lra.
  - rewrite <- sin_PI2. apply sin_increasing_1; lra.
Qed.

Lemma edge_x (th : R) :
  - (PI / 2) <= th <= PI / 2 -> th <> 0 -> Rtrunc (IZR 1 + 1 * cos th) = 1%Z.
Proof.
  intros Hb Hn. pose proof (cos_arc_bounds th Hb Hn). apply Rtrunc_nonneg; lra.
Qed.

Lemma edge_y_mid (th : R) :
  - (PI / 2) < th < PI / 2 -> Rtrunc (IZR 0 - 1 * sin th) = 0%Z.
Proof.
  intros Hb. pose proof (sin_arc_bounds th Hb).
  destruct (Rle_dec (sin th) 0).
  - apply Rtrunc_nonneg; lra.
  - apply Rtrunc_nonpos; lra.
Qed.

Lemma edge_y_first (th : R) : th = - (PI / 2) -> Rtrunc (IZR 0 - 1 * sin th) = 1%Z.
Proof. intros ->. rewrite sin_neg, sin_PI2. apply Rtrunc_nonneg; lra. Qed.

Lemma edge_y_last (th : R) : th = PI / 2 -> Rtrunc (IZR 0 - 1 * sin th) = (-1)%Z.
Proof. intros ->. rewrite sin_PI2. apply Rtrunc_nonpos; lra. Qed.

Ltac edge_list tac :=
  repeat (apply (f_equal2 cons); [tac|]); reflexivity.

Lemma edge_xs : arc_xs 1 1 (first_arc 0) = repeat 1%Z 20.
Proof.
  pose proof PI_RGT_0 as Hpi.
  unfold arc_xs, first_arc, linspace.
  cbn [map seq Nat.sub Nat.eqb repeat app].
  cbn [fadd fmul fdiv fsub fopp of_int fpi fcos fsin to_int arith R_Float64 R_FloatArith
       Z.of_nat Pos.of_succ_nat Pos.succ].
  edge_list ltac:(apply edge_x; lra).
Qed.

Lemma edge_ys : arc_ys 1 0 (first_arc 0) = 1%Z :: repeat 0%Z 18 ++ [(-1)%Z].
Proof.
  pose proof PI_RGT_0 as Hpi.
  unfold arc_ys, first_arc, linspace.
  cbn [map seq Nat.sub Nat.eqb repeat app].
  cbn [fadd fmul fdiv fsub fopp of_int fpi fcos fsin to_int arith R_Float64 R_FloatArith
       Z.of_nat Pos.of_succ_nat Pos.succ].
  edge_list ltac:(first [apply edge_y_mid; lra|apply edge_y_first; lra|apply edge_y_last; lra]).
Qed.

Lemma edge_candidates :
  candidates 1 1 0 (first_arc 0) = (1, 1)%Z :: repeat (1, 0)%Z 18 ++ [(1, -1)%Z].
Proof. unfold candidates. rewrite edge_xs, edge_ys. reflexivity. Qed.

(** *** Tracking the edge frame *)

Lemma maximum_R (a b : R) : maximum a b = Rmax a b.
Proof.
  unfold maximum. rewrite !isnan_R. cbn [fle arith R_Float64 R_FloatArith].
  unfold Rleb, Rmax. destruct (Rle_dec a b); reflexivity.
Qed.

Lemma edge_np_max : np_max edge_buffer = Return 5.
Proof.
  unfold np_max, edge_buffer. cbn [concat app fold_left].
  rewrite !maximum_R. f_equal.
  repeat first [rewrite (Rmax_left 5 5) by lra|rewrite (Rmax_left 5 0) by lra].
  reflexivity.
Qed.

Lemma edge_preprocess : cv2_boxFilter 1 (divide edge_buffer 5) = edge_filtered.
Proof.
  unfold edge_filtered.
  cbv - [IZR Rplus Rmult Rdiv Rminus Ropp Rinv].
  repeat apply (f_equal2 cons); try reflexivity; lra.
Qed.

Lemma edge_take :
  take edge_filtered (1%Z :: repeat 0%Z 18 ++ [(-1)%Z]) (repeat 1%Z 20) =
  Return (repeat 1 19 ++ [0]).
Proof. cbv - [IZR]. reflexivity. Qed.

Lemma edge_select : apply_minmax np_argmin (repeat 1 19 ++ [0]) = Return 19%nat.
Proof.
  rewrite (apply_minmax_spec Light) by discriminate. f_equal.
  apply (proj1 (spec_select_strict (repeat 1 19 ++ [0]) 19 0 eq_refl)).
  intros j w Hj Hw.
  do 19 (destruct j as [|j]; [injection Hw as <-; lra|]).
  destruct j as [|j]; [congruence|]. destruct j; discriminate Hw.
Qed.

Lemma edge_step :
  step_result np_argmin edge_filtered 1 1 0 (first_arc 0) =
  Return (1%Z, (-1)%Z, next_arc (PI / 2 + 0)).
Proof.
  unfold step_result. rewrite edge_xs, edge_ys, edge_take.
  cbn [obind]. rewrite edge_select.
  cbn [obind].
  change (item (repeat 1%Z 20) 19) with (@Return Z 1%Z). cbn [obind].
  change (item (1%Z :: repeat 0%Z 18 ++ [(-1)%Z]) 19) with (@Return Z (-1)%Z). cbn [obind].
  unfold first_arc, linspace, item.
  cbn [map seq Nat.sub Nat.eqb nth_error of_option obind].
  reflexivity.
Qed.

Lemma edge_chain :
  chain_loop np_argmin edge_filtered 1 1 1 0 (first_arc 0) [(1, 0)%Z] =
  ([(1, 0)%Z; (1, -1)%Z], Return tt).
Proof. cbn [chain_loop]. rewrite edge_step. reflexivity. Qed.

Lemma edge_tracker_attrs :
  start_point edge_tracker = Some (1, 0)%Z /\ tail_length edge_tracker = Some 1%Z /\
  n_points edge_tracker = Some 1%Z /\ start_angle edge_tracker = 0 /\
  _minmax_function edge_tracker = np_argmin /\ ksize edge_tracker = 1%Z.
Proof. repeat split. Qed.

(** On the 3 x 3 frame the one search step from [(1, 0)] selects the
    candidate [(1, -1)], whose sample is read in the bottom row. *)
Lemma edge_track :
  points_array (fst (track cv2_boxFilter edge_buffer edge_tracker)) = [(1, 0)%Z; (1, -1)%Z].
Proof.
  destruct edge_tracker_attrs as (Hs & Hl & Hn & Ha & Hf & Hk).
  destruct (track_returns cv2_boxFilter edge_buffer edge_tracker 1 0 1 1 5 Hs Hl Hn
              ltac:(lia) edge_np_max) as (pts' & angle & _ & Hchain & _ & _ & ->).
  rewrite Hf, Hk, Ha, edge_preprocess in Hchain.
  replace (fdiv (of_int 1) (of_int 1)) with 1 in Hchain
    by (cbn [fdiv of_int arith R_Float64 R_FloatArith]; lra).
  change (Z.to_nat 1) with 1%nat in Hchain. rewrite edge_chain in Hchain.
  now inversion Hchain.
Qed.

(** *** Negative candidate coordinates *)

(** The [try] block raises IndexError exactly when a candidate is outside
    the accepted index ranges. *)
Lemma step_result_IndexError_iff {F : Type} {FL : Float64 F} (f : minmax) (buf : grid F)
    (sp : F) (x y : Z) (arc : list F) :
  rectangular buf ->
  (step_result f buf sp x y arc = Raise IndexError <->
   exists cx cy, In (cx, cy) (candidates sp x y arc) /\
                 ~ (index_ok (width buf) cx /\ index_ok (height buf) cy)).
Proof.
  intros Hrect. split; [|now apply step_result_out_of_bounds].
  intros Hstep.
  destruct (take buf (arc_ys sp y arc) (arc_xs sp x arc)) as [samples|e] eqn:Htake.
  - exfalso. destruct arc as [|a arc].
    + simpl in Htake. injection Htake as <-. unfold step_result in Hstep. simpl in Hstep.
      destruct f; discriminate Hstep.
    + destruct (step_result_selected f buf sp x y (a :: arc) samples ltac:(discriminate) Htake)
        as (idx & x' & y' & a' & _ & _ & _ & _ & Hs).
      congruence.
  - pose proof (take_raises buf _ _ e Htake) as ->.
    apply take_raises_iff in Htake;
      [|assumption|now rewrite arc_xs_length, arc_ys_length].
    destruct Htake as (i & cy & cx & Hy & Hx & Hbad).
    exists cx, cy. split; [|tauto].
    eapply nth_error_In. apply candidates_nth. split; eassumption.
Qed.

(** C10.  A step whose candidates all have coordinates in [[-dim, dim)] does
    not recover: the samples are read at the wrapped positions (a negative
    coordinate counts from the opposite edge), one candidate is selected,
    appended and becomes the position of the next step; the [try] block
    raises IndexError exactly when a candidate coordinate is [>= dim] or
    [< -dim]; and the selected point can have a negative coordinate: on the
    3 x 3 edge frame the candidate [(1, -1)] reads the bottom row and is the
    chain point that [track] returns. *)
Theorem negative_candidates_read_from_opposite_edge :
  (forall (F : Type) (FL : Float64 F) (buf : grid F) (sp : F) (x y : Z) (arc : list F)
          (t : TailTracker F) (n : nat),
      rectangular buf -> arc <> [] ->
      (forall cx cy, In (cx, cy) (candidates sp x y arc) ->
                     index_ok (width buf) cx /\ index_ok (height buf) cy) ->
      exists samples idx x' y' a,
        take buf (arc_ys sp y arc) (arc_xs sp x arc) = Return samples /\
        (forall i cx cy, nth_error (candidates sp x y arc) i = Some (cx, cy) ->
                         nth_error samples i = at_wrapped buf cy cx) /\
        apply_minmax (_minmax_function t) samples = Return idx /\
        nth_error (candidates sp x y arc) idx = Some (x', y') /\
        nth_error arc idx = Some a /\
        track_loop buf sp (S n) x y arc t =
        track_loop buf sp n x' y' (next_arc a) (set_points (points t ++ [(x', y')]) t)) /\
  (forall (F : Type) (FL : Float64 F) (f : minmax) (buf : grid F) (sp : F) (x y : Z)
          (arc : list F),
      rectangular buf ->
      (step_result f buf sp x y arc = Raise IndexError <->
       exists cx cy, In (cx, cy) (candidates sp x y arc) /\
                     ~ (index_ok (width buf) cx /\ index_ok (height buf) cy))) /\
  (In (1, -1)%Z (candidates 1 1 0 (first_arc (start_angle edge_tracker))) /\
   at_wrapped edge_filtered (-1) 1 = Some 0 /\
   points_array (fst (track cv2_boxFilter edge_buffer edge_tracker)) =
     [(1, 0)%Z; (1, -1)%Z]).
Proof.
  split; [|split].
  - intros F FL buf sp x y arc t n Hrect Harc Hok.
    destruct (step_result_in_bounds (_minmax_function t) buf sp x y arc Hrect Harc Hok)
      as (samples & idx & x' & y' & a & Htake & Hs & Hidx & Hc & Ha & Hstep).
    exists samples, idx, x', y', a. repeat split; try assumption.
    now apply track_loop_advances.
  - intros F FL f buf sp x y arc Hrect. now apply step_result_IndexError_iff.
  - split; [|split].
    + change (start_angle edge_tracker) with 0. rewrite edge_candidates.
      apply in_cons, in_or_app. right. now left.
    + reflexivity.
    + apply edge_track.
Qed.

(** ** The theorems at concrete trackers and frames *)

Lemma row_buffer_rectangular : rectangular row_buffer.
Proof. intros row [<-|[]]. reflexivity. Qed.

Lemma edge_filtered_rectangular : rectangular edge_filtered.
Proof. intros row [<-|[<-|[<-|[]]]]; reflexivity. Qed.

Lemma edge_candidates_in_bounds (cx cy : Z) :
  In (cx, cy) (candidates 1 1 0 (first_arc 0)) ->
  index_ok (width edge_filtered) cx /\ index_ok (height edge_filtered) cy.
Proof.
  rewrite edge_candidates. cbn [repeat app In]. unfold index_ok.
  change (width edge_filtered) with 3%Z. change (height edge_filtered) with 3%Z.
  intros H. repeat (destruct H as [H|H]; [injection H as <- <-; lia|]). destruct H.
Qed.

Lemma track_chain_has_n_points_plus_1_witness :
  start_point edge_tracker = Some (1, 0)%Z /\
  tail_length edge_tracker = Some 1%Z /\
  n_points edge_tracker = Some 1%Z /\
  (1 <= 1)%Z /\
  concat edge_buffer <> [] /\
  exists angle,
    snd (track cv2_boxFilter edge_buffer edge_tracker) = Return (Some angle) /\
    len (points_array (fst (track cv2_boxFilter edge_buffer edge_tracker))) = (1 + 1)%Z /\
    nth_error (points_array (fst (track cv2_boxFilter edge_buffer edge_tracker))) 0 =
      Some (1, 0)%Z /\
    points (fst (track cv2_boxFilter edge_buffer edge_tracker)) =
      points_array (fst (track cv2_boxFilter edge_buffer edge_tracker)) /\
    start_point (fst (track cv2_boxFilter edge_buffer edge_tracker)) = Some (1, 0)%Z.
Proof.
  split; [reflexivity|]. split; [reflexivity|]. split; [reflexivity|].
  split; [lia|]. split; [discriminate|].
  exact (track_chain_has_n_points_plus_1 cv2_boxFilter edge_buffer edge_tracker 1 0 1 1
           eq_refl eq_refl eq_refl ltac:(lia) ltac:(discriminate)).
Defined.

Lemma out_of_bounds_step_repeats_previous_point_witness :
  rectangular row_buffer /\
  points (set_points [(1, 0)%Z] edge_tracker) = [] ++ [(1, 0)%Z] /\
  (exists cx cy, In (cx, cy) (candidates 1 1 0 (first_arc 0)) /\
                 ~ (index_ok (width row_buffer) cx /\ index_ok (height row_buffer) cy)) /\
  track_loop row_buffer 1 1 1 0 (first_arc 0) (set_points [(1, 0)%Z] edge_tracker) =
  track_loop row_buffer 1 0 1 0 (first_arc 0)
    (set_points ([] ++ [(1, 0)%Z; (1, 0)%Z]) (set_points [(1, 0)%Z] edge_tracker)).
Proof.
  assert (exists cx cy, In (cx, cy) (candidates 1 1 0 (first_arc 0)) /\
            ~ (index_ok (width row_buffer) cx /\ index_ok (height row_buffer) cy)) as Hbad.
  { exists 1%Z, 1%Z. split; [rewrite edge_candidates; now left|].
    unfold index_ok. change (height row_buffer) with 1%Z. lia. }
  split; [exact row_buffer_rectangular|]. split; [reflexivity|]. split; [exact Hbad|].
  exact (proj1 (out_of_bounds_step_repeats_previous_point cv2_boxFilter)
           row_buffer 1 0%nat 1%Z 0%Z (first_arc 0) (set_points [(1, 0)%Z] edge_tracker)
           [] (1, 0)%Z row_buffer_rectangular eq_refl Hbad).
Defined.

Lemma preprocess_divides_by_any_maximum_witness :
  concat zero_frame <> [] /\
  exists m,
    np_max zero_frame = Return m /\
    preprocess cv2_boxFilter zero_frame b64_tracker =
    (set_filtered (Some (cv2_boxFilter (ksize b64_tracker) (divide zero_frame m)))
       (set_normalized (Some (divide zero_frame m)) (set_image (Some zero_frame) b64_tracker)),
     Return (cv2_boxFilter (ksize b64_tracker) (divide zero_frame m))).
Proof.
  split; [discriminate|].
  apply (proj1 (preprocess_divides_by_any_maximum cv2_boxFilter) zero_frame b64_tracker).
  discriminate.
Defined.

Lemma track_unset_returns_None_witness :
  (start_point widget_tracker = None \/ tail_length widget_tracker = None \/
   n_points widget_tracker = None) /\
  snd (track cv2_boxFilter edge_buffer widget_tracker) = Return None /\
  fst (track cv2_boxFilter edge_buffer widget_tracker) = widget_tracker /\
  track_result (track cv2_boxFilter edge_buffer widget_tracker) = Return None.
Proof.
  split; [left; reflexivity|].
  apply (track_unset_returns_None cv2_boxFilter edge_buffer widget_tracker).
  left. reflexivity.
Defined.

Lemma negative_candidates_read_from_opposite_edge_witness :
  rectangular edge_filtered /\
  first_arc 0 <> [] /\
  (forall cx cy, In (cx, cy) (candidates 1 1 0 (first_arc 0)) ->
                 index_ok (width edge_filtered) cx /\ index_ok (height edge_filtered) cy) /\
  exists samples idx x' y' a,
    take edge_filtered (arc_ys 1 0 (first_arc 0)) (arc_xs 1 1 (first_arc 0)) = Return samples /\
    (forall i cx cy, nth_error (candidates 1 1 0 (first_arc 0)) i = Some (cx, cy) ->
                     nth_error samples i = at_wrapped edge_filtered cy cx) /\
    apply_minmax (_minmax_function (set_points [(1, 0)%Z] edge_tracker)) samples = Return idx /\
    nth_error (candidates 1 1 0 (first_arc 0)) idx = Some (x', y') /\
    nth_error (first_arc 0) idx = Some a /\
    track_loop edge_filtered 1 1 1 0 (first_arc 0) (set_points [(1, 0)%Z] edge_tracker) =
    track_loop edge_filtered 1 0 x' y' (next_arc a)
      (set_points (points (set_points [(1, 0)%Z] edge_tracker) ++ [(x', y')])
         (set_points [(1, 0)%Z] edge_tracker)).
Proof.
  split; [exact edge_filtered_rectangular|].
  split; [apply first_arc_nonempty|].
  split; [exact edge_candidates_in_bounds|].
  exact (proj1 negative_candidates_read_from_opposite_edge R R_Float64 edge_filtered 1 1%Z 0%Z
           (first_arc 0) (set_points [(1, 0)%Z] edge_tracker) 0%nat
           edge_filtered_rectangular (first_arc_nonempty 0) edge_candidates_in_bounds).
Defined.

Local Close Scope R_scope.

(** * The arc search in any arithmetic *)

Section SearchRefinement.
Context {F : Type} {FL : Float64 F}.

Lemma index_of_first_unique {A : Type} (p : A -> bool) (l : list A) :
  forall (i : nat) (v : A),
    nth_error l i = Some v -> p v = true ->
    (forall j w, (j < i)%nat -> nth_error l j = Some w -> p w = false) ->
    index_of_first p l = i.
Proof.
  induction l as [|h l IH]; intros i v Hi Hp Hbefore.
  - destruct i; discriminate Hi.
  - destruct i as [|i]; cbn [index_of_first].
    + injection Hi as ->. now rewrite Hp.
    + rewrite (Hbefore 0%nat h ltac:(lia) eq_refl). f_equal.
      apply (IH i v Hi Hp). intros j w Hj Hw. apply (Hbefore (S j) w); [lia|exact Hw].
Qed.

Lemma forallb_false_at {A : Type} (f : A -> bool) (l : list A) (x : A) :
  In x l -> f x = false -> forallb f l = false.
Proof.
  intros Hin Hf. destruct (forallb f l) eqn:E; [|reflexivity].
  rewrite forallb_forall in E. rewrite (E x Hin) in Hf. discriminate.
Qed.

Lemma not_nan_le (v : F) : isnan v = false -> fle v v = true.
Proof. unfold isnan. now destruct (fle v v). Qed.

(** The scan of [np.argmin] ends on the first position of a least sample. *)
Lemma argmin_from_is_first_least (Hord : ordered F) (l : list F) :
  forall (pre : list F) (mp : F) (best i : nat),
    (forall v, In v (pre ++ l) -> isnan v = false) ->
    length pre = i ->
    nth_error pre best = Some mp ->
    (forall u, In u pre -> fle mp u = true) ->
    (forall j w, (j < best)%nat -> nth_error pre j = Some w -> fle w mp = false) ->
    argmin_from mp best i l = index_of_first (is_least (pre ++ l)) (pre ++ l).
Proof.
  destruct Hord as [Htrans Htotal].
  induction l as [|v l IH]; intros pre mp best i Hnan Hlen Hbest Hleast Hfirst.
  - rewrite app_nil_r. cbn [argmin_from]. symmetry.
    apply (index_of_first_unique _ pre best mp Hbest).
    + unfold is_least. apply forallb_forall. exact Hleast.
    + intros j w Hj Hw. unfold is_least.
      apply (forallb_false_at _ pre mp); [eapply nth_error_In; eassumption|].
      now apply (Hfirst j w).
  - assert (best < length pre)%nat as Hb by (apply nth_error_Some; congruence).
    assert (isnan v = false) as Hv by (apply Hnan, in_or_app; right; now left).
    assert (isnan mp = false) as Hmp
      by (apply Hnan, in_or_app; left; eapply nth_error_In; eassumption).
    replace (pre ++ v :: l) with ((pre ++ [v]) ++ l) in *
      by (now rewrite <- app_assoc).
    cbn [argmin_from]. destruct (fle mp v) eqn:Hle.
    + apply IH.
      * exact Hnan.
      * rewrite length_app. cbn [length]. lia.
      * now rewrite nth_error_app1.
      * intros u Hu. apply in_app_or in Hu. destruct Hu as [Hu|[<-|[]]];
          [now apply Hleast|exact Hle].
      * intros j w Hj Hw. apply (Hfirst j w Hj).
        now rewrite nth_error_app1 in Hw by lia.
    + rewrite Hv. apply IH.
      * exact Hnan.
      * rewrite length_app. cbn [length]. lia.
      * rewrite nth_error_app2 by lia. replace (i - length pre)%nat with 0%nat by lia.
        reflexivity.
      * assert (fle v mp = true) as Hvm.
        { destruct (Htotal v mp Hv Hmp) as [H|H]; [exact H|congruence]. }
        intros u Hu. apply in_app_or in Hu. destruct Hu as [Hu|[<-|[]]].
        -- apply (Htrans v mp u Hvm). now apply Hleast.
        -- now apply not_nan_le.
      * intros j w Hj Hw. rewrite nth_error_app1 in Hw by lia.
        destruct (fle w v) eqn:Hwv; [|reflexivity].
        assert (fle mp w = true) as Hmw
          by (apply Hleast; eapply nth_error_In; eassumption).
        rewrite (Htrans mp w v Hmw Hwv) in Hle. discriminate.
Qed.

(** The scan of [np.argmax] ends on the first position of a greatest
    sample. *)
Lemma argmax_from_is_first_greatest (Hord : ordered F) (l : list F) :
  forall (pre : list F) (mp : F) (best i : nat),
    (forall v, In v (pre ++ l) -> isnan v = false) ->
    length pre = i ->
    nth_error pre best = Some mp ->
    (forall u, In u pre -> fle u mp = true) ->
    (forall j w, (j < best)%nat -> nth_error pre j = Some w -> fle mp w = false) ->
    argmax_from mp best i l = index_of_first (is_greatest (pre ++ l)) (pre ++ l).
Proof.
  destruct Hord as [Htrans Htotal].
  induction l as [|v l IH]; intros pre mp best i Hnan Hlen Hbest Hgreatest Hfirst.
  - rewrite app_nil_r. cbn [argmax_from]. symmetry.
    apply (index_of_first_unique _ pre best mp Hbest).
    + unfold is_greatest. apply forallb_forall. exact Hgreatest.
    + intros j w Hj Hw. unfold is_greatest.
      apply (forallb_false_at _ pre mp); [eapply nth_error_In; eassumption|].
      now apply (Hfirst j w).
  - assert (best < length pre)%nat as Hb by (apply nth_error_Some; congruence).
    assert (isnan v = false) as Hv by (apply Hnan, in_or_app; right; now left).
    assert (isnan mp = false) as Hmp
      by (apply Hnan, in_or_app; left; eapply nth_error_In; eassumption).
    replace (pre ++ v :: l) with ((pre ++ [v]) ++ l) in *
      by (now rewrite <- app_assoc).
    cbn [argmax_from]. destruct (fle v mp) eqn:Hle.
    + apply IH.
      * exact Hnan.
      * rewrite length_app. cbn [length]. lia.
      * now rewrite nth_error_app1.
      * intros u Hu. apply in_app_or in Hu. destruct Hu as [Hu|[<-|[]]];
          [now apply Hgreatest|exact Hle].
      * intros j w Hj Hw. apply (Hfirst j w Hj).
        now rewrite nth_error_app1 in Hw by lia.
    + rewrite Hv. apply IH.
      * exact Hnan.
      * rewrite length_app. cbn [length]. lia.
      * rewrite nth_error_app2 by lia. replace (i - length pre)%nat with 0%nat by lia.
        reflexivity.
      * assert (fle mp v = true) as Hmv.
        { destruct (Htotal mp v Hmp Hv) as [H|H]; [exact H|congruence]. }
        intros u Hu. apply in_app_or in Hu. destruct Hu as [Hu|[<-|[]]].
        -- apply (Htrans u mp v); [now apply Hgreatest|exact Hmv].
        -- now apply not_nan_le.
      * intros j w Hj Hw. rewrite nth_error_app1 in Hw by lia.
        destruct (fle v w) eqn:Hvw; [|reflexivity].
        assert (fle w mp = true) as Hwm
          by (apply Hgreatest; eapply nth_error_In; eassumption).
        rewrite (Htrans v w mp Hvw Hwm) in Hle. discriminate.
Qed.

(** [np.argmin] and [np.argmax] on samples without NaN are the selection of
    the specification. *)
Lemma apply_minmax_select (Hord : ordered F) (b : Background) (samples : list F) :
  samples <> [] ->
  (forall v, In v samples -> isnan v = false) ->
  apply_minmax (minmax_of_background b) samples = Return (search_select b samples).
Proof.
  intros Hne Hnan. destruct samples as [|v l]; [congruence|].
  assert (isnan v = false) as Hv by (apply Hnan; now left).
  destruct b; cbn [minmax_of_background apply_minmax argmin argmax search_select];
    rewrite Hv; f_equal.
  - apply (argmin_from_is_first_least Hord l [v] v 0 1 Hnan eq_refl eq_refl).
    + intros u [<-|[]]. now apply not_nan_le.
    + intros j w Hj. lia.
  - apply (argmax_from_is_first_greatest Hord l [v] v 0 1 Hnan eq_refl eq_refl).
    + intros u [<-|[]]. now apply not_nan_le.
    + intros j w Hj. lia.
Qed.

(** The samples that an indexing returns are samples of the array. *)
Lemma getitem_In (a : grid F) (y x : Z) (v : F) :
  getitem a y x = Return v -> In v (concat a).
Proof.
  unfold getitem. destruct (normalize_index (len a) y) as [r|]; [|discriminate].
  destruct (nth_error a r) as [row|] eqn:Hrow; [|discriminate].
  destruct (normalize_index (len row) x) as [c|]; [|discriminate].
  destruct (nth_error row c) as [w|] eqn:Hc; [|discriminate].
  cbn [of_option]. intros H. injection H as <-.
  apply in_concat. exists row. split; eapply nth_error_In; eassumption.
Qed.

Lemma take_In (a : grid F) :
  forall ys xs samples, take a ys xs = Return samples ->
    forall v, In v samples -> In v (concat a).
Proof.
  induction ys as [|y ys IH]; intros xs samples H v Hv.
  - cbn [take] in H. injection H as <-. destruct Hv.
  - destruct xs as [|x xs]; cbn [take] in H; [injection H as <-; destruct Hv|].
    destruct (getitem a y x) as [w|] eqn:Hw; [|discriminate]. cbn [obind] in H.
    destruct (take a ys xs) as [ws|] eqn:Hws; [|discriminate]. cbn [obind] in H.
    injection H as <-. destruct Hv as [<-|Hv].
    + eapply getitem_In; eassumption.
    + eapply IH; [exact Hws|exact Hv].
Qed.

Lemma next_arc_nonempty (a : F) : next_arc a <> [].
Proof.
  intros H. apply (f_equal (@length F)) in H. unfold next_arc in H.
  rewrite linspace_length in H. discriminate H.
Qed.

Lemma search_candidates_xs (sp : F) (x y : Z) (arc : list F) :
  map fst (map (search_candidate sp x y) arc) = arc_xs sp x arc.
Proof. rewrite map_map. reflexivity. Qed.

Lemma search_candidates_ys (sp : F) (x y : Z) (arc : list F) :
  map snd (map (search_candidate sp x y) arc) = arc_ys sp y arc.
Proof. rewrite map_map. reflexivity. Qed.

(** One iteration of the loop is one step of the specification. *)
Lemma step_result_search (Hord : ordered F) (b : Background) (buf : grid F) (sp : F)
    (x y : Z) (arc : list F) (pts : list point) :
  no_nan buf -> arc <> [] -> pts <> [] ->
  match step_result (minmax_of_background b) buf sp x y arc with
  | Return (x', y', arc') =>
      arc' <> [] /\
      search_step b buf sp (x, y, arc) pts = ((x', y', arc'), pts ++ [(x', y')])
  | Raise e =>
      e = IndexError /\
      last_item pts = Return (last pts (x, y)) /\
      search_step b buf sp (x, y, arc) pts = ((x, y, arc), pts ++ [last pts (x, y)])
  end.
Proof.
  intros Hnan Harc Hpts. unfold search_step.
  rewrite search_candidates_xs, search_candidates_ys.
  destruct (take buf (arc_ys sp y arc) (arc_xs sp x arc)) as [samples|e] eqn:Htake.
  - destruct (step_result_selected (minmax_of_background b) buf sp x y arc
                samples Harc Htake)
      as (idx & x' & y' & a' & Hidx & Hx & Hy & Ha & ->).
    assert (samples <> []) as Hs.
    { intros ->. apply take_length in Htake.
      - rewrite arc_ys_length in Htake. destruct arc; [congruence|discriminate Htake].
      - now rewrite arc_xs_length, arc_ys_length. }
    rewrite (apply_minmax_select Hord b samples Hs) in Hidx.
    2:{ intros v Hv. apply Hnan. eapply take_In; eassumption. }
    injection Hidx as Hi. rewrite Hi. split; [apply next_arc_nonempty|].
    assert (nth_error (map (search_candidate sp x y) arc) idx = Some (x', y')) as Hc.
    { rewrite nth_error_map, Ha. cbn [option_map]. unfold arc_xs, arc_ys in Hx, Hy.
      rewrite nth_error_map, Ha in Hx, Hy. cbn [option_map] in Hx, Hy.
      injection Hx as <-. injection Hy as <-. reflexivity. }
    rewrite (nth_error_nth _ _ _ Hc), (nth_error_nth _ _ _ Ha). reflexivity.
  - assert (step_result (minmax_of_background b) buf sp x y arc = Raise e) as ->.
    { unfold step_result. now rewrite Htake. }
    split; [eapply take_raises; eassumption|].
    split; [now apply last_item_returns|reflexivity].
Qed.

Lemma chain_loop_search (Hord : ordered F) (b : Background) (buf : grid F) (sp : F)
    (n : nat) :
  no_nan buf ->
  forall x y arc pts, arc <> [] -> pts <> [] ->
    chain_loop (minmax_of_background b) buf sp n x y arc pts =
    (search_steps b buf sp n (x, y, arc) pts, Return tt).
Proof.
  intros Hnan. induction n as [|n IH]; intros x y arc pts Harc Hpts; [reflexivity|].
  cbn [chain_loop search_steps].
  pose proof (step_result_search Hord b buf sp x y arc pts Hnan Harc Hpts) as Hstep.
  destruct (step_result (minmax_of_background b) buf sp x y arc)
    as [[[x' y'] arc']|e].
  - destruct Hstep as (Harc' & ->). apply IH; [exact Harc'|now destruct pts].
  - destruct Hstep as (-> & -> & ->). apply IH; [exact Harc|now destruct pts].
Qed.

(** One iteration of [track_loop] is one step of the specification. *)
Lemma track_loop_search_step (Hord : ordered F) (b : Background) (buf : grid F)
    (sp : F) (k : nat) (x y : Z) (arc : list F) (t : TailTracker F) :
  no_nan buf -> arc <> [] -> points t <> [] ->
  _minmax_function t = minmax_of_background b ->
  track_loop buf sp (S k) x y arc t =
  track_loop buf sp k
    (fst (fst (fst (search_step b buf sp (x, y, arc) (points t)))))
    (snd (fst (fst (search_step b buf sp (x, y, arc) (points t)))))
    (snd (fst (search_step b buf sp (x, y, arc) (points t))))
    (set_points (snd (search_step b buf sp (x, y, arc) (points t))) t).
Proof.
  intros Hnan Harc Hpts Hf.
  pose proof (step_result_search Hord b buf sp x y arc (points t) Hnan Harc Hpts) as Hstep.
  rewrite <- Hf in Hstep.
  destruct (step_result (_minmax_function t) buf sp x y arc)
    as [[[x' y'] arc']|e] eqn:E.
  - destruct Hstep as (_ & ->). cbn [fst snd].
    now apply track_loop_advances.
  - destruct Hstep as (-> & Hlast & ->). cbn [fst snd].
    cbn [track_loop]. unfold bind at 1. unfold try_except_IndexError.
    now rewrite track_try_eq, E, track_except_eq, Hlast.
Qed.

Lemma minmax_of_background_name (s : string) (b : Background) (t : TailTracker F) :
  lower s = background_name b ->
  _minmax_function (background_setter s t) = minmax_of_background b.
Proof. intros H. unfold background_setter. rewrite H. now destruct b. Qed.

End SearchRefinement.


(** * The tail angle in any arithmetic *)

(** C6.  For a chain of at least [k >= 1] points and any baseline [b] the
    tail angle is [atan2(-dy, dx)], where [(dx, dy)] is the tail vector (the
    mean of the last [k] points minus the first point) minus
    [(cos b, sin b)], computed with the float operations; over the reals,
    with the baseline 0 it is 0 whenever the tail vector is [(1, 0)]. *)
Theorem tail_angle_is_atan2_of_tail_vector {F : Type} {FL : Float64 F}
    (chain : list point) (k : Z) (b : F) :
  1 <= k <= len chain ->
  compute_tail_angle chain k b = Return (spec_tail_angle (Z.to_nat k) chain b) /\
  (tail_vector (Z.to_nat k) chain = (1%R, 0%R) ->
   compute_tail_angle chain k 0%R = Return 0%R).
Proof.
  intros Hk. split.
  - destruct Hk as [Hk Hlen].
    destruct chain as [|p0 chain]; [unfold len in Hlen; simpl in Hlen; lia|].
    unfold compute_tail_angle, spec_tail_angle, tip_mean, vsub, of_point, baseline_vector.
    rewrite last_points_skipn.
    unfold slice_from_neg. destruct (Z.ltb_spec 0 k) as [_|]; [|lia].
    reflexivity.
  - intros Hv. rewrite (compute_tail_angle_spec chain k 0%R Hk), Hv. cbn [fst snd].
    rewrite sin_0, cos_0. f_equal. unfold Ratan2.
    replace (1 - 1)%R with 0%R by lra. replace (- (0 - 0))%R with 0%R by lra.
    destruct (Rlt_dec 0 0) as [H|_]; [lra|reflexivity].
Qed.

(** * The seed in a rounded arithmetic *)

Lemma rounds_to_nearest_exact : rounds_to_nearest (fun a : R => a).
Proof.
  split; [reflexivity|]. split; [intros a b H; exact H|].
  intros a [Ha _]. replace (a - a)%R with 0%R by lra. rewrite Rabs_R0.
  assert (0 < IZR (2 ^ 53))%R as Hp by (apply IZR_lt; reflexivity).
  apply Rmult_le_pos; [lra|]. left. now apply Rinv_0_lt_compat.
Qed.

(** A rounded square root of an integer below [2^51] stays below the next
    integer above the exact one. *)
Lemma rounded_sqrt_truncates (rnd : R -> R) (N : Z) :
  rounds_to_nearest rnd -> 0 <= N <= 2 ^ 51 ->
  Rtrunc (rnd (sqrt (IZR N))) = Z.sqrt N.
Proof.
  intros (Hint & Hmono & Hrel) [HN0 HN].
  pose proof (Z.sqrt_spec N HN0) as [Hlo Hhi].
  pose proof (Z.sqrt_nonneg N) as Hk0.
  pose proof (Zsqrt_bounds N HN0) as [Hsl Hsu].
  assert (Z.sqrt N <= 47453132) as Hkmax.
  { change 47453132 with (Z.sqrt (2 ^ 51)). now apply Z.sqrt_le_mono. }
  set (k := Z.sqrt N) in *. set (s := sqrt (IZR N)) in *.
  assert (0 <= IZR k)%R as Hk0' by now apply IZR_le.
  apply Rtrunc_nonneg; [exact Hk0'|]. split.
  - rewrite <- (Hint k) by lia. now apply Hmono.
  - destruct (Z.eq_dec N (k * k)) as [Hsq|Hnsq].
    + assert (s = IZR k) as ->.
      { unfold s. rewrite Hsq, mult_IZR. now apply sqrt_square. }
      rewrite Hint by lia. lra.
    + assert (1 <= k) as Hk1 by nia.
      assert (1 <= IZR k)%R as Hk1' by now apply IZR_le.
      assert (s * s = IZR N)%R as Hss by (apply sqrt_sqrt; now apply IZR_le).
      assert (IZR N <= (IZR k + 1) * (IZR k + 1) - 1)%R as HNu.
      { replace ((IZR k + 1) * (IZR k + 1) - 1)%R
          with (IZR (Z.succ k * Z.succ k - 1)) by (rewrite minus_IZR, mult_IZR, succ_IZR; lra).
        apply IZR_le. lia. }
      assert ((IZR k + 1) * (IZR k + 1) <= IZR (2 ^ 52))%R as HK.
      { replace ((IZR k + 1) * (IZR k + 1))%R
          with (IZR (Z.succ k * Z.succ k)) by (rewrite mult_IZR, succ_IZR; lra).
        apply IZR_le. nia. }
      assert (IZR (2 ^ 53) = 2 * IZR (2 ^ 52))%R as H53.
      { rewrite <- mult_IZR. reflexivity. }
      assert (1 <= IZR (2 ^ 52))%R as HP by (apply IZR_le; discriminate).
      assert (s <= IZR (2 ^ 53))%R as Hs53 by nra.
      pose proof (Hrel s ltac:(split; [lra|exact Hs53])) as He.
      rewrite H53 in He.
      set (P := IZR (2 ^ 52)) in *. set (K := (IZR k + 1)%R) in *.
      set (r := rnd s) in *.
      assert (r <= s + s / (2 * P))%R as Hr.
      { unfold Rabs in He. destruct (Rcase_abs (r - s)); lra. }
      assert (2 * P * r <= s * (2 * P + 1))%R as Hr'.
      { assert (s / (2 * P) * (2 * P) = s)%R as E by (field; lra).
        nra. }
      destruct (Rlt_dec r K) as [Hlt|Hge]; [exact Hlt|exfalso].
      assert (K <= r)%R as HKr by lra.
      assert (2 * P * K <= s * (2 * P + 1))%R as H1 by nra.
      assert (0 <= 2 * P * K)%R as H0 by nra.
      assert ((2 * P * K) * (2 * P * K) <= (s * (2 * P + 1)) * (s * (2 * P + 1)))%R as H2
        by (apply Rmult_le_compat; assumption).
      replace ((s * (2 * P + 1)) * (s * (2 * P + 1)))%R
        with ((s * s) * ((2 * P + 1) * (2 * P + 1)))%R in H2 by ring.
      rewrite Hss in H2.
      assert (IZR N * ((2 * P + 1) * (2 * P + 1))
              <= (K * K - 1) * ((2 * P + 1) * (2 * P + 1)))%R as H3.
      { apply Rmult_le_compat_r; [nra|exact HNu]. }
      nra.
Qed.

(** In a rounded arithmetic the converted norm of a vector of at most
    [2^25] pixels in each coordinate is the integer square root of its
    squared length. *)
Lemma int_norm_rounded (rnd : R -> R) (dx dy : Z) :
  rounds_to_nearest rnd -> Z.abs dx <= 2 ^ 25 -> Z.abs dy <= 2 ^ 25 ->
  @int_norm R (Rounded rnd) (dx, dy) = Z.sqrt (dx * dx + dy * dy).
Proof.
  intros Hr Hx Hy. pose proof Hr as (Hint & _ & _).
  assert (0 <= dx * dx <= 2 ^ 50) as Hxx.
  { split; [apply Z.square_nonneg|]. rewrite <- Z.abs_square.
    change (2 ^ 50) with (2 ^ 25 * 2 ^ 25). apply Z.mul_le_mono_nonneg; lia. }
  assert (0 <= dy * dy <= 2 ^ 50) as Hyy.
  { split; [apply Z.square_nonneg|]. rewrite <- Z.abs_square.
    change (2 ^ 50) with (2 ^ 25 * 2 ^ 25). apply Z.mul_le_mono_nonneg; lia. }
  unfold int_norm. cbn [Rounded of_int fadd fmul fsqrt to_int fst snd].
  rewrite (Hint dx), (Hint dy) by lia.
  rewrite <- !mult_IZR. rewrite (Hint (dx * dx)), (Hint (dy * dy)) by lia.
  rewrite <- plus_IZR. rewrite (Hint (dx * dx + dy * dy)) by lia.
  apply rounded_sqrt_truncates; [exact Hr|lia].
Qed.

(** C7, as the code has it.  [from_points] converts the float norm of
    [p1 - p0] with [int].  In an arithmetic that rounds to nearest, for two
    points at most [2^25] pixels apart in each coordinate, the tail length
    is the integer square root of the squared distance, the euclidean
    distance truncated to an integer; for [(0, 0)] and [(10, 0)] it is 10.
    In binary64 it is so for [(0, 0)] and [(2^25, 2^25)]; further apart the
    rounded norm can reach the next integer: for [(0, 0)] and
    [(72000000, 12000)] the tail length is 72000001, one above the integer
    square root. *)
Theorem from_points_tail_length_is_truncated_distance
    (rnd : R -> R) (FL : Float64 R)
    (p0 p1 : point) (n : option Z) (bg : string) (k tip : Z) :
  rounds_to_nearest rnd ->
  @arith R FL = Rounded rnd ->
  Z.abs (fst p1 - fst p0) <= 2 ^ 25 -> Z.abs (snd p1 - snd p0) <= 2 ^ 25 ->
  (exists d, tail_length (@from_points R FL p0 p1 n bg k tip) = Some d /\
             d = Z.sqrt ((fst p1 - fst p0) * (fst p1 - fst p0) +
                         (snd p1 - snd p0) * (snd p1 - snd p0)) /\
             (IZR d <= euclidean_distance p0 p1 < IZR d + 1)%R) /\
  tail_length (@from_points R FL (0, 0) (10, 0) n bg k tip) = Some 10 /\
  (forall FL64 : Float64 spec_float,
      @arith spec_float FL64 = B64 ->
      tail_length (@from_points spec_float FL64 (0, 0) (2 ^ 25, 2 ^ 25) n bg k tip) =
      Some (Z.sqrt (2 ^ 25 * 2 ^ 25 + 2 ^ 25 * 2 ^ 25)) /\
      tail_length (@from_points spec_float FL64 (0, 0) (72000000, 12000) n bg k tip) =
      Some 72000001) /\
  Z.sqrt (72000000 * 72000000 + 12000 * 12000) = 72000000.
Proof.
  intros Hr Ha Hx Hy.
  assert (forall q0 q1 : point,
             tail_length (@from_points R FL q0 q1 n bg k tip) =
             Some (@int_norm R (Rounded rnd) (fst q1 - fst q0, snd q1 - snd q0))) as Hnorm.
  { intros q0 q1. unfold from_points, init, background_setter, int_norm.
    cbn [tail_length set_background_attrs fst snd]. now rewrite Ha. }
  split; [|split; [|split]].
  - eexists. split; [apply Hnorm|]. rewrite (int_norm_rounded rnd _ _ Hr Hx Hy).
    split; [reflexivity|].
    unfold euclidean_distance. rewrite <- !mult_IZR, <- plus_IZR.
    apply Zsqrt_bounds. apply Z.add_nonneg_nonneg; apply Z.square_nonneg.
  - rewrite Hnorm. cbn [fst snd].
    rewrite (int_norm_rounded rnd _ _ Hr) by (vm_compute; discriminate).
    reflexivity.
  - intros FL64 H64. unfold from_points, init, background_setter.
    cbn [tail_length set_background_attrs fst snd]. rewrite H64.
    split; vm_compute; reflexivity.
  - vm_compute. reflexivity.
Qed.

(** ** The theorems in exact arithmetic *)

Lemma ordered_R : ordered R.
Proof.
  split.
  - intros a b c Hab Hbc. apply Rleb_true in Hab, Hbc. apply Rleb_true. lra.
  - intros a b _ _. destruct (Rle_dec a b) as [H|H].
    + left. now apply Rleb_true.
    + right. apply Rleb_true. lra.
Qed.

Lemma no_nan_R (buffer : grid R) : no_nan buffer.
Proof. intros v _. apply isnan_R. Qed.


Lemma tail_angle_is_atan2_of_tail_vector_witness :
  1 <= 1 <= len [(0, 0); (1, 0)] /\
  compute_tail_angle [(0, 0); (1, 0)] 1 0%R =
  Return (spec_tail_angle (Z.to_nat 1) [(0, 0); (1, 0)] 0%R).
Proof.
  assert (1 <= 1 <= len [(0, 0); (1, 0)]) as H by (unfold len; simpl; lia).
  split; [exact H|].
  exact (proj1 (tail_angle_is_atan2_of_tail_vector [(0, 0); (1, 0)] 1 0%R H)).
Defined.

Lemma from_points_tail_length_is_truncated_distance_witness :
  rounds_to_nearest (fun a : R => a) /\
  @arith R R_Float64 = Rounded (fun a : R => a) /\
  Z.abs (fst (10, 0) - fst (0, 0)) <= 2 ^ 25 /\
  Z.abs (snd (10, 0) - snd (0, 0)) <= 2 ^ 25 /\
  exists d,
    tail_length (from_points (0, 0) (10, 0) (Some 10) "light" 7 3 : TailTracker R) = Some d /\
    d = Z.sqrt ((fst (10, 0) - fst (0, 0)) * (fst (10, 0) - fst (0, 0)) +
                (snd (10, 0) - snd (0, 0)) * (snd (10, 0) - snd (0, 0))) /\
    (IZR d <= euclidean_distance (0, 0)%Z (10, 0)%Z < IZR d + 1)%R.
Proof.
  split; [exact rounds_to_nearest_exact|]. split; [reflexivity|].
  split; [vm_compute; discriminate|]. split; [vm_compute; discriminate|].
  exact (proj1 (from_points_tail_length_is_truncated_distance (fun a : R => a) R_Float64
                  (0, 0) (10, 0) (Some 10) "light" 7 3 rounds_to_nearest_exact eq_refl
                  ltac:(vm_compute; discriminate) ltac:(vm_compute; discriminate))).
Defined.

(** * Further properties of the tracker *)

Local Close Scope R_scope.

Section BackgroundFacts.
Context {F : Type} {FL : Float64 F}.
Variable boxFilter : Z -> grid F -> grid F.

Lemma lower_ascii_idempotent (c : ascii) : lower_ascii (lower_ascii c) = lower_ascii c.
Proof. destruct c as [[] [] [] [] [] [] [] []]; reflexivity. Qed.

Lemma lower_idempotent (s : string) : lower (lower s) = lower s.
Proof.
  induction s as [|c s IH]; simpl; [reflexivity|].
  now rewrite lower_ascii_idempotent, IH.
Qed.

Lemma background_config (t1 t2 : TailTracker F) :
  config t1 = config t2 -> background_in_sync t1 -> background_in_sync t2.
Proof.
  unfold config, background_in_sync. intros H H1. injection H.
  intros _ _ Hf Hb _ _ _ _. rewrite <- Hf, <- Hb. exact H1.
Qed.

(** X1. For a name of ASCII characters, the [background] setter stores the
    lowered name together with the function that matches it: [np.argmax]
    exactly when the name lowers to dark, [np.argmin] for any other name;
    setting the stored name again changes nothing; [__init__] leaves the
    two in agreement, and [track] and [preprocess] keep them so. *)
Theorem background_setter_keeps_function_in_sync (val : string) (t : TailTracker F)
    (image : grid F) :
  isascii val = true ->
  _background (background_setter val t) = lower val /\
  background_in_sync (background_setter val t) /\
  (_minmax_function (background_setter val t) = np_argmax <-> lower val = "dark"%string) /\
  (_minmax_function (background_setter val t) = np_argmin <-> lower val <> "dark"%string) /\
  isascii (_background (background_setter val t)) = true /\
  background_setter (_background (background_setter val t)) (background_setter val t)
    = background_setter val t /\
  (forall p tl n a k tip, background_in_sync (init p tl n a val k tip)) /\
  (background_in_sync t -> background_in_sync (fst (track boxFilter image t))) /\
  (background_in_sync t -> background_in_sync (fst (preprocess boxFilter image t))).
Proof.
  intros Hascii.
  split; [reflexivity|]. split; [reflexivity|]. split; [|split; [|split; [|split]]].
  - unfold background_setter. cbn [_minmax_function set_background_attrs].
    destruct (String.eqb_spec (lower val) "dark"); split; congruence.
  - unfold background_setter. cbn [_minmax_function set_background_attrs].
    destruct (String.eqb_spec (lower val) "dark"); split; congruence.
  - unfold background_setter. cbn [_background set_background_attrs].
    clear -Hascii. induction val as [|c val IH]; [reflexivity|].
    cbn [isascii lower] in *. apply andb_true_iff in Hascii. destruct Hascii as [Hc Hval].
    rewrite (IH Hval), andb_true_r.
    unfold lower_ascii. destruct (Nat.leb 65 (nat_of_ascii c) && Nat.leb (nat_of_ascii c) 90)%bool eqn:E;
      [|exact Hc].
    apply andb_true_iff in E. destruct E as [E1 E2].
    apply Nat.leb_le in E1, E2. rewrite nat_ascii_embedding by lia.
    apply Nat.ltb_lt. lia.
  - unfold background_setter. cbn [_background set_background_attrs].
    rewrite lower_idempotent. destruct t; reflexivity.
  - split; [intros; reflexivity|]. split.
    + intros Hs. eapply background_config; [|exact Hs]. symmetry. apply track_config.
    + intros Hs. rewrite preprocess_eq. destruct (np_max image); exact Hs.
Qed.

End BackgroundFacts.

Section PreprocessState.
Context {F : Type} {FA : FloatArith F}.
Variable boxFilter : Z -> grid F -> grid F.

Lemma divide_shape (image : grid F) (m : F) :
  length (divide image m) = length image /\
  map (@length F) (divide image m) = map (@length F) image.
Proof.
  unfold divide. split; [apply length_map|].
  rewrite map_map. apply map_ext. intros row. apply length_map.
Qed.

(** X2. [preprocess] always stores the frame in [_image], and calling it
    again with the same frame changes nothing more.  For a frame with a
    sample [_normalized] is the frame divided by its maximum, of the same
    shape, and [_filtered] is the filtered quotient, which is returned; for
    a frame without samples it raises [ValueError] and [_normalized] and
    [_filtered] keep what they held before the call. *)
Theorem preprocess_overwrites_its_attributes (image : grid F) (t : TailTracker F) :
  _image (fst (preprocess boxFilter image t)) = Some image /\
  preprocess boxFilter image (fst (preprocess boxFilter image t)) =
    preprocess boxFilter image t /\
  (concat image <> [] ->
   exists m,
     np_max image = Return m /\
     _normalized (fst (preprocess boxFilter image t)) = Some (divide image m) /\
     map (@length F) (divide image m) = map (@length F) image /\
     _filtered (fst (preprocess boxFilter image t)) =
       Some (boxFilter (ksize t) (divide image m)) /\
     snd (preprocess boxFilter image t) = Return (boxFilter (ksize t) (divide image m))) /\
  (concat image = [] ->
   snd (preprocess boxFilter image t) = Raise ValueError /\
   _normalized (fst (preprocess boxFilter image t)) = _normalized t /\
   _filtered (fst (preprocess boxFilter image t)) = _filtered t).
Proof.
  rewrite !preprocess_eq.
  destruct (np_max image) as [m|e] eqn:Hm.
  - cbn [fst snd]. split; [reflexivity|]. split; [destruct t; reflexivity|]. split.
    + intros _. exists m. split; [reflexivity|]. split; [reflexivity|].
      split; [apply divide_shape|]. split; reflexivity.
    + intros Himage. unfold np_max in Hm. rewrite Himage in Hm. discriminate.
  - cbn [fst snd]. split; [reflexivity|]. split; [destruct t; reflexivity|].
    destruct (np_max_raises image e Hm) as [He ->]. split.
    + intros Himage. contradiction.
    + intros _. repeat split.
Qed.

End PreprocessState.

Local Open Scope R_scope.

Lemma fold_left_Rmax_spec (l : list R) (a : R) :
  In (fold_left Rmax l a) (a :: l) /\ forall v, In v (a :: l) -> v <= fold_left Rmax l a.
Proof.
  revert a. induction l as [|x l IH]; intros a; cbn [fold_left].
  - split; [now left|]. intros v [<-|[]]. lra.
  - destruct (IH (Rmax a x)) as [Hin Hle]. split.
    + destruct Hin as [Hin|Hin]; [|now right; right].
      rewrite <- Hin. unfold Rmax. destruct (Rle_dec a x); [right; now left|now left].
    + intros v [<-|[<-|Hv]].
      * apply Rle_trans with (Rmax a x); [apply Rmax_l|apply Hle; now left].
      * apply Rle_trans with (Rmax a x); [apply Rmax_r|apply Hle; now left].
      * apply Hle. now right.
Qed.

Lemma fold_left_maximum_R (l : list R) (a : R) : fold_left maximum l a = fold_left Rmax l a.
Proof.
  revert a. induction l as [|x l IH]; intros a; cbn [fold_left]; [reflexivity|].
  now rewrite maximum_R, IH.
Qed.

(** Over the reals [np.max] returns the greatest sample. *)
Lemma np_max_R (a : grid R) (m : R) :
  np_max a = Return m <->
  In m (concat a) /\ forall v, In v (concat a) -> v <= m.
Proof.
  unfold np_max. destruct (concat a) as [|x l].
  - split; [discriminate|]. intros [[] _].
  - rewrite fold_left_maximum_R. pose proof (fold_left_Rmax_spec l x) as [Hin Hle]. split.
    + intros H. injection H as <-. now split.
    + intros [Hm Hall]. f_equal. apply Rle_antisym; [now apply Hall|now apply Hle].
Qed.

Lemma concat_divide (a : grid R) (m : R) :
  concat (divide a m) = map (fun v => v / m) (concat a).
Proof. unfold divide. now rewrite concat_map. Qed.

(** X3. Over the reals, the frame that [preprocess] normalizes by a
    positive maximum has maximum 1: no sample of it is above 1. *)
Theorem normalized_maximum_is_1 (image : grid R) (m : R) :
  np_max image = Return m -> 0 < m ->
  np_max (divide image m) = Return 1 /\
  forall v, In v (concat (divide image m)) -> v <= 1.
Proof.
  intros Hm Hpos. apply np_max_R in Hm. destruct Hm as [Hin Hall].
  assert (forall v, In v (concat (divide image m)) -> v <= 1) as Hle.
  { intros v Hv. rewrite concat_divide in Hv. apply in_map_iff in Hv.
    destruct Hv as (u & <- & Hu). specialize (Hall u Hu).
    apply Rmult_le_reg_r with m; [assumption|]. unfold Rdiv.
    rewrite Rmult_assoc, Rinv_l by lra. lra. }
  split; [|exact Hle]. apply np_max_R. split; [|exact Hle].
  rewrite concat_divide. apply in_map_iff. exists m. split; [field; lra|assumption].
Qed.

Local Close Scope R_scope.

Section Absorbing.
Context {F : Type} {FL : Float64 F}.
Variable boxFilter : Z -> grid F -> grid F.

Lemma last_app_singleton {A : Type} (l : list A) (a d : A) : last (l ++ [a]) d = a.
Proof. apply last_last. Qed.

(** Once the [try] block raises, it raises in every later iteration: the
    loop appends the last point again and again. *)
Lemma chain_loop_stuck (f : minmax) (buf : grid F) (sp : F) (x y : Z) (arc : list F)
    (n : nat) :
  step_result f buf sp x y arc = Raise IndexError ->
  forall pts p, chain_loop f buf sp n x y arc (pts ++ [p]) =
                ((pts ++ [p]) ++ repeat p n, Return tt).
Proof.
  intros Hstep. induction n as [|n IH]; intros pts p.
  - simpl. now rewrite app_nil_r.
  - cbn [chain_loop]. rewrite Hstep.
    rewrite (last_item_returns (pts ++ [p]) p) by now destruct pts.
    rewrite last_last, IH, <- !app_assoc. reflexivity.
Qed.

(** X4. When a candidate of the current arc is outside the buffer, every
    remaining iteration of the loop of [track] fails as well: the loop ends
    with the last point repeated once per remaining iteration, and does not
    raise. *)
Theorem failed_step_freezes_the_chain (buf : grid F) (sp : F) (n : nat) (x y : Z)
    (arc : list F) (t : TailTracker F) (pts : list point) (p : point) :
  rectangular buf ->
  points t = pts ++ [p] ->
  (exists cx cy, In (cx, cy) (candidates sp x y arc) /\
                 ~ (index_ok (width buf) cx /\ index_ok (height buf) cy)) ->
  track_loop buf sp n x y arc t = (set_points (points t ++ repeat p n) t, Return tt).
Proof.
  intros Hrect Hpts Hbad. rewrite track_loop_eq, Hpts.
  rewrite chain_loop_stuck by now apply step_result_out_of_bounds.
  reflexivity.
Qed.

(** The tracker that a successful [track] leaves. *)
Lemma track_state (image : grid F) (t : TailTracker F) (x y tlen n : Z) (m : F) :
  start_point t = Some (x, y) -> tail_length t = Some tlen -> n_points t = Some n ->
  n <> 0 -> np_max image = Return m ->
  exists (pts' : list point) (angle : F),
    chain_loop (_minmax_function t) (boxFilter (ksize t) (divide image m))
      (fdiv (of_int tlen) (of_int n)) (Z.to_nat n) x y (first_arc (start_angle t))
      [(x, y)] = ((x, y) :: pts', Return tt) /\
    compute_tail_angle ((x, y) :: pts') (n_tip_points t) (start_angle t) = Return angle /\
    track boxFilter image t =
    (mkTailTracker (start_point t) (tail_length t) (n_points t) (start_angle t)
       (_background t) (_minmax_function t) (ksize t) (n_tip_points t)
       (Some image) (Some (divide image m))
       (Some (boxFilter (ksize t) (divide image m)))
       ((x, y) :: pts') ((x, y) :: pts') angle,
     Return (Some angle)).
Proof.
  intros Hs Hl Hn Hn0 Hm.
  rewrite (track_configured boxFilter image t x y tlen n Hs Hl Hn), Hm. cbv zeta.
  destruct (Z.eqb_spec n 0) as [|_]; [contradiction|].
  destruct (chain_loop_returns (_minmax_function t) (boxFilter (ksize t) (divide image m))
              (fdiv (of_int tlen) (of_int n)) (Z.to_nat n) x y
              (first_arc (start_angle t)) [(x, y)])
    as (pts' & Heq & Hlen); [apply first_arc_nonempty|discriminate|].
  rewrite Heq. cbn [fst snd app].
  destruct (compute_tail_angle_returns (@cons point (x, y) pts') (n_tip_points t)
              (start_angle t)) as [angle Hangle]; [discriminate|].
  rewrite Hangle. exists pts', angle. repeat split; try assumption.
Qed.

Lemma config_fields (t1 t2 : TailTracker F) :
  config t1 = config t2 ->
  start_point t1 = start_point t2 /\ tail_length t1 = tail_length t2 /\
  n_points t1 = n_points t2 /\ start_angle t1 = start_angle t2 /\
  _background t1 = _background t2 /\ _minmax_function t1 = _minmax_function t2 /\
  ksize t1 = ksize t2 /\ n_tip_points t1 = n_tip_points t2.
Proof. unfold config. intros H. injection H. intros. repeat split; assumption. Qed.

(** X5. On a configured tracker and a frame with a sample, what [track]
    returns and leaves depends on the configuring attributes only, not on
    what an earlier call left; tracking the same frame again changes
    nothing; the frame is stored in [_image], and the angle returned is
    stored in [tail_angle] and is [compute_tail_angle] of the points
    left. *)
Theorem track_leaves_no_stale_attribute (image : grid F) (t1 t2 : TailTracker F)
    (x y tlen n : Z) :
  start_point t1 = Some (x, y) -> tail_length t1 = Some tlen -> n_points t1 = Some n ->
  n <> 0 -> concat image <> [] ->
  config t1 = config t2 ->
  track boxFilter image t1 = track boxFilter image t2 /\
  track boxFilter image (fst (track boxFilter image t1)) = track boxFilter image t1 /\
  _image (fst (track boxFilter image t1)) = Some image /\
  exists angle,
    snd (track boxFilter image t1) = Return (Some angle) /\
    tail_angle (fst (track boxFilter image t1)) = angle /\
    compute_tail_angle (points_array (fst (track boxFilter image t1)))
      (n_tip_points t1) (start_angle t1) = Return angle.
Proof.
  intros Hs Hl Hn Hn0 Himage Hc.
  destruct (np_max_returns image Himage) as [m Hm].
  assert (forall t, config t1 = config t ->
            track boxFilter image t1 = track boxFilter image t) as Hdet.
  { intros t Ht.
    destruct (config_fields _ _ Ht) as (E1 & E2 & E3 & E4 & E5 & E6 & E7 & E8).
    destruct (track_state image t1 x y tlen n m Hs Hl Hn Hn0 Hm)
      as (p1 & a1 & Hc1 & Ha1 & ->).
    destruct (track_state image t x y tlen n m) as (p2 & a2 & Hc2 & Ha2 & ->);
      [congruence|congruence|congruence|assumption|assumption|].
    rewrite <- E4, <- E6, <- E7 in Hc2. rewrite Hc1 in Hc2. injection Hc2 as <-.
    rewrite <- E8, <- E4 in Ha2. rewrite Ha1 in Ha2. injection Ha2 as <-.
    now rewrite E1, E2, E3, E4, E5, E6, E7, E8. }
  split; [now apply Hdet|]. split.
  { symmetry. apply Hdet. symmetry. apply track_config. }
  destruct (track_state image t1 x y tlen n m Hs Hl Hn Hn0 Hm)
    as (p1 & a1 & Hc1 & Ha1 & ->).
  cbn [fst snd _image tail_angle points_array]. split; [reflexivity|].
  exists a1. repeat split. exact Ha1.
Qed.

End Absorbing.

Section StepFacts.
Context {F : Type} {FL : Float64 F}.

(** What the [try] block returns is a candidate of the arc, with the arc of
    its angle. *)
Lemma step_result_candidate (f : minmax) (buf : grid F) (sp : F) (x y : Z)
    (arc : list F) (x' y' : Z) (arc' : list F) :
  step_result f buf sp x y arc = Return (x', y', arc') ->
  exists idx a,
    nth_error (arc_xs sp x arc) idx = Some x' /\
    nth_error (arc_ys sp y arc) idx = Some y' /\
    nth_error arc idx = Some a /\ arc' = next_arc a.
Proof.
  unfold step_result. intros H.
  destruct (take buf _ _) as [samples|]; simpl in H; [|discriminate].
  destruct (apply_minmax f samples) as [idx|]; simpl in H; [|discriminate].
  unfold item in H.
  destruct (nth_error (arc_xs sp x arc) idx) as [cx|] eqn:Hx; simpl in H; [|discriminate].
  destruct (nth_error (arc_ys sp y arc) idx) as [cy|] eqn:Hy; simpl in H; [|discriminate].
  destruct (nth_error arc idx) as [a|] eqn:Ha; simpl in H; [|discriminate].
  injection H as <- <- <-. now exists idx, a.
Qed.

(** [l[-k:]] is all of [l] for [k = 0] and for [k >= len(l)]. *)
Lemma slice_from_neg_all {A : Type} (k : Z) (l : list A) :
  k = 0 \/ len l <= k -> slice_from_neg k l = l.
Proof.
  unfold slice_from_neg, len. intros [->|Hk].
  - reflexivity.
  - destruct (Z.ltb_spec 0 k).
    + replace (length l - Z.to_nat k)%nat with 0%nat by lia. reflexivity.
    + assert (length l = 0%nat) as Hl by lia.
      destruct l; [apply skipn_nil|discriminate].
Qed.

(** X6. [compute_tail_angle] with a tip window of zero points, or of at
    least as many points as the chain has, averages the whole chain; it
    raises exactly for a chain without points, and then [IndexError]. *)
Theorem tail_angle_tip_window_saturates (chain : list point) (k : Z) (b : F) :
  (k = 0 \/ len chain <= k ->
   compute_tail_angle chain k b = compute_tail_angle chain (len chain) b) /\
  (compute_tail_angle chain k b = Raise IndexError <-> chain = []) /\
  (forall e, compute_tail_angle chain k b = Raise e -> e = IndexError).
Proof.
  split; [|split].
  - intros Hk. unfold compute_tail_angle.
    rewrite (slice_from_neg_all k chain Hk).
    rewrite (slice_from_neg_all (len chain) chain) by (right; lia). reflexivity.
  - unfold compute_tail_angle. destruct chain as [|p chain]; simpl.
    + split; reflexivity.
    + split; discriminate.
  - intros e. unfold compute_tail_angle. destruct chain as [|p chain]; simpl.
    + now inversion 1.
    + discriminate.
Qed.

End StepFacts.

Local Open Scope R_scope.

Lemma Rtrunc_error (r : R) : Rabs (IZR (Rtrunc r) - r) < 1.
Proof.
  unfold Rtrunc. destruct (Rle_dec 0 r) as [Hr|Hr].
  - destruct (base_Int_part r) as [H1 H2]. apply Rabs_def1; lra.
  - destruct (base_Int_part (- r)) as [H1 H2]. rewrite opp_IZR. apply Rabs_def1; lra.
Qed.

Lemma Rtrunc_IZR (z : Z) : Rtrunc (IZR z) = z.
Proof.
  destruct (Z_le_gt_dec 0 z).
  - apply Rtrunc_nonneg; [now apply IZR_le|lra].
  - apply Rtrunc_nonpos; [apply IZR_le; lia|lra].
Qed.

Lemma candidate_x_near (sp : R) (x : Z) (th : R) :
  Rabs (IZR (Rtrunc (IZR x + sp * cos th) - x)) < Rabs sp + 1.
Proof.
  rewrite minus_IZR.
  pose proof (Rtrunc_error (IZR x + sp * cos th)) as He.
  assert (Rabs (sp * cos th) <= Rabs sp) as Hd.
  { rewrite Rabs_mult. pose proof (COS_bound th) as [? ?].
    assert (Rabs (cos th) <= 1) by (apply Rabs_le; lra).
    pose proof (Rabs_pos sp). nra. }
  apply Rabs_def2 in He. destruct He as [He1 He2].
  pose proof (Rle_abs (sp * cos th)) as Hd1.
  pose proof (Rle_abs (- (sp * cos th))) as Hd2. rewrite Rabs_Ropp in Hd2.
  apply Rabs_def1; lra.
Qed.

Lemma candidate_y_near (sp : R) (y : Z) (th : R) :
  Rabs (IZR (Rtrunc (IZR y - sp * sin th) - y)) < Rabs sp + 1.
Proof.
  rewrite minus_IZR.
  pose proof (Rtrunc_error (IZR y - sp * sin th)) as He.
  assert (Rabs (sp * sin th) <= Rabs sp) as Hd.
  { rewrite Rabs_mult. pose proof (SIN_bound th) as [? ?].
    assert (Rabs (sin th) <= 1) by (apply Rabs_le; lra).
    pose proof (Rabs_pos sp). nra. }
  apply Rabs_def2 in He. destruct He as [He1 He2].
  pose proof (Rle_abs (sp * sin th)) as Hd1.
  pose proof (Rle_abs (- (sp * sin th))) as Hd2. rewrite Rabs_Ropp in Hd2.
  apply Rabs_def1; lra.
Qed.

Lemma step_within_refl (sp : R) (p : point) : step_within (Rabs sp + 1) p p.
Proof.
  unfold step_within. rewrite !Z.sub_diag, Rabs_R0. pose proof (Rabs_pos sp). lra.
Qed.

Lemma step_result_near (f : minmax) (buf : grid R) (sp : R) (x y : Z) (arc : list R)
    (x' y' : Z) (arc' : list R) :
  step_result f buf sp x y arc = Return (x', y', arc') ->
  step_within (Rabs sp + 1) (x, y) (x', y').
Proof.
  intros H. apply step_result_candidate in H.
  destruct H as (idx & a & Hx & Hy & Ha & _).
  unfold arc_xs, arc_ys in Hx, Hy. rewrite nth_error_map, Ha in Hx, Hy.
  injection Hx as <-. injection Hy as <-.
  split; [apply candidate_x_near|apply candidate_y_near].
Qed.

Lemma adjacent_within_snoc (bound : R) (pre : list point) (p q : point) :
  adjacent_within bound (pre ++ [p]) -> step_within bound p q ->
  adjacent_within bound ((pre ++ [p]) ++ [q]).
Proof.
  intros Hadj Hpq i a b Ha Hb.
  assert (length (pre ++ [p]) = S (length pre)) as Hlen
    by (rewrite length_app; simpl; lia).
  destruct (Nat.lt_ge_cases (S i) (length (pre ++ [p]))) as [Hlt|Hge].
  - rewrite nth_error_app1 in Ha, Hb by lia. now apply (Hadj i).
  - assert (nth_error ((pre ++ [p]) ++ [q]) (S i) <> None) as Hsome by congruence.
    apply nth_error_Some in Hsome. rewrite length_app in Hsome. simpl in Hsome.
    assert (i = length pre) as -> by lia.
    rewrite nth_error_app1 in Ha by lia.
    rewrite nth_error_app2, Nat.sub_diag in Ha by lia. simpl in Ha.
    rewrite nth_error_app2 in Hb by lia.
    replace (S (length pre) - length (pre ++ [p]))%nat with 0%nat in Hb by lia.
    simpl in Hb. congruence.
Qed.

Lemma chain_loop_near (f : minmax) (buf : grid R) (sp : R) (n : nat) :
  forall x y arc (pre : list point),
    adjacent_within (Rabs sp + 1) (pre ++ [(x, y)]) ->
    adjacent_within (Rabs sp + 1) (fst (chain_loop f buf sp n x y arc (pre ++ [(x, y)]))).
Proof.
  induction n as [|n IH]; intros x y arc pre Hadj; [exact Hadj|].
  cbn [chain_loop].
  destruct (step_result f buf sp x y arc) as [[[x' y'] arc']|e] eqn:Hstep.
  - apply IH. apply adjacent_within_snoc; [assumption|].
    eapply step_result_near; eassumption.
  - destruct e; try exact Hadj.
    rewrite (@last_item_returns point (pre ++ [(x, y)]) (x, y)) by now destruct pre.
    rewrite last_last. apply IH. apply adjacent_within_snoc; [assumption|].
    apply step_within_refl.
Qed.

(** X7. Over the reals, two consecutive points of the chain that [track]
    leaves differ by less than the spacing [tail_length / n_points] plus
    one pixel in each coordinate. *)
Theorem chain_points_are_a_step_apart (boxFilter : Z -> grid R -> grid R)
    (image : grid R) (t : TailTracker R) (x y tlen n : Z) :
  start_point t = Some (x, y) -> tail_length t = Some tlen -> n_points t = Some n ->
  n <> 0%Z -> concat image <> [] ->
  forall i p q,
    nth_error (points_array (fst (track boxFilter image t))) i = Some p ->
    nth_error (points_array (fst (track boxFilter image t))) (S i) = Some q ->
    step_within (Rabs (IZR tlen / IZR n) + 1) p q.
Proof.
  intros Hs Hl Hn Hn0 Himage.
  destruct (np_max_returns image Himage) as [m Hm].
  destruct (track_returns boxFilter image t x y tlen n m Hs Hl Hn Hn0 Hm)
    as (pts' & angle & _ & Hchain & _ & _ & ->).
  pose proof (chain_loop_near (_minmax_function t) (boxFilter (ksize t) (divide image m))
                (IZR tlen / IZR n) (Z.to_nat n) x y (first_arc (start_angle t)) []) as H.
  cbn [app] in H. 
  change (fdiv (of_int tlen) (of_int n)) with (IZR tlen / IZR n) in Hchain.
  rewrite Hchain in H. apply H.
  intros i p q Hp Hq. destruct i; discriminate Hq.
Qed.

(** Every angle of an arc is within a quarter turn of its centre. *)
Lemma spec_arc_range (a th : R) : In th (spec_arc a) -> a - PI / 2 <= th <= a + PI / 2.
Proof.
  pose proof PI_RGT_0 as Hpi. unfold spec_arc. cbn [map seq In].
  intros H. repeat (destruct H as [<-|H]; [rewrite INR_IZR_INZ; cbn [Z.of_nat Pos.of_succ_nat Pos.succ]; lra|]).
  destruct H.
Qed.

(** X8. Over the reals, the arc that a search step hands to the next one
    is centred on an angle within a quarter turn of the centre of its own
    arc: the chain never turns back. *)
Theorem next_arc_turns_at_most_a_quarter (f : minmax) (buf : grid R) (sp : R) (x y : Z)
    (a : R) (arc : list R) (x' y' : Z) (arc' : list R) :
  arc = first_arc a \/ arc = next_arc a ->
  step_result f buf sp x y arc = Return (x', y', arc') ->
  exists a', arc' = next_arc a' /\ Rabs (a' - a) <= PI / 2 /\ 0 <= cos (a' - a).
Proof.
  intros Harc Hstep.
  assert (arc = spec_arc a) as -> by (destruct Harc as [->| ->]; [apply first_arc_spec|apply next_arc_spec]).
  apply step_result_candidate in Hstep. destruct Hstep as (idx & a' & _ & _ & Ha & ->).
  apply nth_error_In, spec_arc_range in Ha.
  exists a'. split; [reflexivity|]. split.
  - apply Rabs_le. lra.
  - apply cos_ge_0; lra.
Qed.

(** With a spacing of zero every candidate is the current point. *)
Lemma chain_loop_zero_spacing (f : minmax) (buf : grid R) (n : nat) (x y : Z) :
  forall arc (pre : list point), arc <> [] ->
    chain_loop f buf 0 n x y arc (pre ++ [(x, y)]) =
    ((pre ++ [(x, y)]) ++ repeat (x, y) n, Return tt).
Proof.
  induction n as [|n IH]; intros arc pre Harc.
  - simpl. now rewrite app_nil_r.
  - cbn [chain_loop].
    destruct (step_result f buf 0 x y arc) as [[[x' y'] arc']|e] eqn:Hstep.
    + pose proof (step_result_arc _ _ _ _ _ _ _ _ _ Hstep) as Harc'.
      apply step_result_candidate in Hstep.
      destruct Hstep as (idx & a & Hx & Hy & Ha & _).
      unfold arc_xs, arc_ys in Hx, Hy. rewrite nth_error_map, Ha in Hx, Hy.
      cbn [option_map fadd fsub fmul of_int to_int fcos fsin arith R_Float64 R_FloatArith]
        in Hx, Hy.
      rewrite Rmult_0_l, Rplus_0_r, Rtrunc_IZR in Hx.
      rewrite Rmult_0_l, Rminus_0_r, Rtrunc_IZR in Hy.
      injection Hx as <-. injection Hy as <-.
      etransitivity; [apply (IH arc' (pre ++ [(x, y)]) Harc')|].
      now rewrite <- !app_assoc.
    + rewrite (step_result_raises f buf 0 x y arc e Harc Hstep).
      rewrite (@last_item_returns point (pre ++ [(x, y)]) (x, y)) by now destruct pre.
      rewrite last_last.
      etransitivity; [apply (IH arc (pre ++ [(x, y)]) Harc)|].
      now rewrite <- !app_assoc.
Qed.

Lemma track_zero_spacing (boxFilter : Z -> grid R -> grid R)
    (image : grid R) (t : TailTracker R) (x y n : Z) :
  start_point t = Some (x, y) -> tail_length t = Some 0%Z -> n_points t = Some n ->
  n <> 0%Z -> concat image <> [] ->
  points_array (fst (track boxFilter image t)) = repeat (x, y) (S (Z.to_nat n)).
Proof.
  intros Hs Hl Hn Hn0 Himage.
  destruct (np_max_returns image Himage) as [m Hm].
  destruct (track_returns boxFilter image t x y 0 n m Hs Hl Hn Hn0 Hm)
    as (pts' & angle & _ & Hchain & _ & _ & ->).
  replace (fdiv (of_int 0) (of_int n)) with 0 in Hchain.
  2:{ cbn [fdiv of_int arith R_Float64 R_FloatArith]. unfold Rdiv. now rewrite Rmult_0_l. }
  rewrite (chain_loop_zero_spacing _ _ _ x y _ [] (first_arc_nonempty _)) in Hchain.
  injection Hchain as <-. reflexivity.
Qed.

(** X9. Over the reals, a tracker whose tail length is zero leaves a chain
    of [n_points + 1] copies of its start point. *)
Theorem zero_tail_length_keeps_the_chain_at_start (boxFilter : Z -> grid R -> grid R)
    (image : grid R) (t : TailTracker R) (x y n : Z) :
  start_point t = Some (x, y) -> tail_length t = Some 0%Z -> n_points t = Some n ->
  n <> 0%Z -> concat image <> [] ->
  points_array (fst (track boxFilter image t)) = repeat (x, y) (S (Z.to_nat n)) /\
  points (fst (track boxFilter image t)) = repeat (x, y) (S (Z.to_nat n)).
Proof.
  intros Hs Hl Hn Hn0 Himage.
  pose proof (track_zero_spacing boxFilter image t x y n Hs Hl Hn Hn0 Himage) as H.
  split; [exact H|].
  destruct (np_max_returns image Himage) as [m Hm].
  destruct (track_returns boxFilter image t x y 0 n m Hs Hl Hn Hn0 Hm)
    as (pts' & angle & _ & _ & _ & Hp & Ha).
  now rewrite Hp, <- Ha.
Qed.

Lemma slice_from_neg_map {A B : Type} (g : A -> B) (k : Z) (l : list A) :
  slice_from_neg k (map g l) = map g (slice_from_neg k l).
Proof. unfold slice_from_neg. rewrite length_map. destruct (0 <? k)%Z; apply skipn_map. Qed.

Lemma spec_mean_shift (d : Z) (col : list Z) :
  col <> [] -> spec_mean (map (fun z => (z + d)%Z) col) = spec_mean col + IZR d.
Proof.
  intros Hcol. unfold spec_mean, len. rewrite length_map.
  assert (IZR (Z.of_nat (length col)) <> 0) as Hn.
  { apply not_0_IZR. destruct col; [congruence|simpl; lia]. }
  assert (fold_right Z.add 0%Z (map (fun z => (z + d)%Z) col) =
          (fold_right Z.add 0%Z col + Z.of_nat (length col) * d)%Z) as ->.
  { clear. induction col as [|z col IH]; [reflexivity|].
    cbn [map fold_right length]. rewrite IH. lia. }
  rewrite plus_IZR, mult_IZR. field. assumption.
Qed.

(** X10. Over the reals, [compute_tail_angle] with a tip window of at
    least one point does not change when every point of the chain is
    moved by the same integer offset. *)
Theorem tail_angle_is_translation_invariant (chain : list point) (k : Z) (b : R)
    (d : point) :
  chain <> [] -> (1 <= k)%Z ->
  compute_tail_angle (map (shift d) chain) k b = compute_tail_angle chain k b.
Proof.
  intros Hchain Hk. destruct chain as [|p0 chain]; [congruence|].
  unfold compute_tail_angle. rewrite slice_from_neg_map.
  assert (slice_from_neg k (p0 :: chain) <> []) as Htip.
  { unfold slice_from_neg. destruct (Z.ltb_spec 0 k) as [_|Hle]; [|lia].
    intros Hnil. apply (f_equal (@length point)) in Hnil. rewrite length_skipn in Hnil.
    cbn [length] in Hnil. lia. }
  set (tip := slice_from_neg k (p0 :: chain)) in *.
  cbn [map item nth_error of_option obind fst snd].
  rewrite !map_map. rewrite !mean_spec.
  change (map (fun x => fst (shift d x)) tip) with (map (fun x => (fst x + fst d)%Z) tip).
  change (map (fun x => snd (shift d x)) tip) with (map (fun x => (snd x + snd d)%Z) tip).
  rewrite <- (map_map fst (fun z => (z + fst d)%Z)), <- (map_map snd (fun z => (z + snd d)%Z)).
  rewrite !spec_mean_shift by (destruct tip; [congruence|discriminate]).
  cbn [fsub fopp fcos fsin farctan2 of_int arith R_Float64 R_FloatArith shift fst snd].
  rewrite !plus_IZR. f_equal. f_equal; lra.
Qed.

Local Close Scope R_scope.

Section SeedAndTrack.
Context {F : Type} {FL : Float64 F}.
Variable boxFilter : Z -> grid F -> grid F.

(** X11. The tracker that [from_points] makes returns [None] from [track]
    when it was given no number of points; given [n >= 1] it tracks a frame
    with a sample into [n + 1] points from the first of the two points.  It
    has the kernel size and the number of tip points passed on, the lowered
    background name and the matching function. *)
Theorem from_points_tracker_tracks (p0 p1 : point) (n : option Z) (bg : string)
    (k tip : Z) (image : grid F) :
  (n = None ->
   track boxFilter image (from_points p0 p1 n bg k tip) =
     (from_points p0 p1 n bg k tip, Return None)) /\
  (forall m, n = Some m -> 1 <= m -> concat image <> [] ->
     exists angle,
       snd (track boxFilter image (from_points p0 p1 n bg k tip)) = Return (Some angle) /\
       len (points_array (fst (track boxFilter image (from_points p0 p1 n bg k tip))))
         = m + 1 /\
       nth_error (points_array (fst (track boxFilter image (from_points p0 p1 n bg k tip)))) 0
         = Some p0) /\
  ksize (from_points p0 p1 n bg k tip) = k /\
  n_tip_points (from_points p0 p1 n bg k tip) = tip /\
  _background (from_points p0 p1 n bg k tip) = lower bg /\
  background_in_sync (from_points p0 p1 n bg k tip).
Proof.
  split; [|split; [|repeat split]].
  - intros ->. apply track_unconfigured. right. right. reflexivity.
  - intros m -> Hm Himage. destruct p0 as [x y].
    destruct (np_max_returns image Himage) as [mx Hmx].
    destruct (track_returns boxFilter image
                (from_points (x, y) p1 (Some m) bg k tip) x y _ m mx
                eq_refl eq_refl eq_refl ltac:(lia) Hmx)
      as (pts' & angle & Hlen & _ & Hret & _ & ->).
    exists angle. repeat split; [assumption|].
    unfold len. simpl length. lia.
Qed.

End SeedAndTrack.

Local Open Scope R_scope.

(** X12. Over the reals, [from_points] gives a tail length of zero exactly
    when the two points coincide; the start angle is then zero and [track]
    leaves a chain of copies of that point. *)
Theorem coinciding_points_give_a_still_chain (boxFilter : Z -> grid R -> grid R)
    (p0 p1 : point) (n : Z) (bg : string) (k tip : Z) (image : grid R) :
  (tail_length (from_points p0 p1 (Some n) bg k tip : TailTracker R) = Some 0%Z <-> p0 = p1) /\
  start_angle (from_points p0 p0 (Some n) bg k tip : TailTracker R) = 0 /\
  (n <> 0%Z -> concat image <> [] ->
   points_array (fst (track boxFilter image (from_points p0 p0 (Some n) bg k tip)))
     = repeat p0 (S (Z.to_nat n))).
Proof.
  split; [|split].
  - rewrite tail_length_of_from_points. destruct p0 as [x0 y0], p1 as [x1 y1]. cbn [fst snd].
    split.
    + intros H. injection H as H.
      pose proof (Z.square_nonneg (x1 - x0)) as Hx.
      pose proof (Z.square_nonneg (y1 - y0)) as Hy.
      set (a := ((x1 - x0) * (x1 - x0))%Z) in *. set (b := ((y1 - y0) * (y1 - y0))%Z) in *.
      assert (0 <= a + b)%Z as Hm by lia.
      pose proof (Z.sqrt_spec (a + b) Hm) as Hs. rewrite H in Hs. simpl in Hs.
      assert (a = 0)%Z as Hx0 by lia. assert (b = 0)%Z as Hy0 by lia.
      unfold a in Hx0. unfold b in Hy0.
      apply Z.mul_eq_0 in Hx0, Hy0. f_equal; lia.
    + intros H. injection H as <- <-. rewrite !Z.sub_diag. reflexivity.
  - unfold from_points, init, background_setter.
    cbn [start_angle set_background_attrs fst snd].
    rewrite !Z.sub_diag. cbn [farctan2 of_int arith R_Float64 R_FloatArith Z.opp].
    unfold Ratan2. destruct (Rlt_dec 0 0) as [H|_]; [lra|reflexivity].
  - intros Hn Himage. destruct p0 as [x y].
    apply (track_zero_spacing boxFilter image _ x y n); try assumption; try reflexivity.
    rewrite tail_length_of_from_points. cbn [fst snd]. now rewrite !Z.sub_diag.
Qed.

Local Close Scope R_scope.

Section ChainInBounds.
Context {F : Type} {FL : Float64 F}.
Variable boxFilter : Z -> grid F -> grid F.

(** The pixel that a search step selects was read from the buffer. *)
Lemma step_result_indexable (f : minmax) (buf : grid F) (sp : F) (x y : Z)
    (arc : list F) (x' y' : Z) (arc' : list F) :
  rectangular buf ->
  step_result f buf sp x y arc = Return (x', y', arc') ->
  indexable buf (x', y').
Proof.
  intros Hrect Hstep.
  destruct (step_result_candidate f buf sp x y arc x' y' arc' Hstep)
    as (idx & a & Hx & Hy & _ & _).
  unfold indexable. cbn [fst snd].
  destruct (index_ok_dec (width buf) x') as [Hxok|Hxbad];
    [destruct (index_ok_dec (height buf) y') as [Hyok|Hybad]; [now split|]|].
  - exfalso.
    assert (take buf (arc_ys sp y arc) (arc_xs sp x arc) = Raise IndexError) as Hbad.
    { apply take_raises_iff; [assumption|now rewrite arc_xs_length, arc_ys_length|].
      exists idx, y', x'. repeat split; try assumption. intros [H _]. contradiction. }
    unfold step_result in Hstep. rewrite Hbad in Hstep. discriminate.
  - exfalso.
    assert (take buf (arc_ys sp y arc) (arc_xs sp x arc) = Raise IndexError) as Hbad.
    { apply take_raises_iff; [assumption|now rewrite arc_xs_length, arc_ys_length|].
      exists idx, y', x'. repeat split; try assumption. intros [_ H]. contradiction. }
    unfold step_result in Hstep. rewrite Hbad in Hstep. discriminate.
Qed.

Lemma chain_loop_indexable (f : minmax) (buf : grid F) (sp : F) (p0 : point) (n : nat) :
  rectangular buf ->
  forall x y arc (pts : list point),
    pts <> [] ->
    (forall q, In q pts -> q = p0 \/ indexable buf q) ->
    forall q, In q (fst (chain_loop f buf sp n x y arc pts)) ->
              q = p0 \/ indexable buf q.
Proof.
  intros Hrect. induction n as [|n IH]; intros x y arc pts Hne Hpts; [exact Hpts|].
  cbn [chain_loop].
  destruct (step_result f buf sp x y arc) as [[[x' y'] arc']|e] eqn:Hstep.
  - apply IH; [now destruct pts|]. intros q Hq. apply in_app_or in Hq.
    destruct Hq as [Hq|[<-|[]]]; [now apply Hpts|].
    right. eapply step_result_indexable; eassumption.
  - destruct e; try exact Hpts.
    rewrite (@last_item_returns point pts p0 Hne).
    apply IH; [now destruct pts|]. intros q Hq. apply in_app_or in Hq.
    destruct Hq as [Hq|[<-|[]]]; [now apply Hpts|].
    apply Hpts. destruct (exists_last Hne) as (l & a & ->).
    rewrite last_last. apply in_or_app. right. now left.
Qed.

(** X21. On a configured tracker and a frame with a sample, every point of
    the chain that [track] leaves is the start point or a pixel whose
    coordinates index the filtered buffer, when that is rectangular: a
    point is only appended after the buffer was read at it, or repeated. *)
Theorem chain_points_are_indexable (image : grid F) (t : TailTracker F)
    (x y tlen n : Z) (buf : grid F) :
  start_point t = Some (x, y) -> tail_length t = Some tlen -> n_points t = Some n ->
  n <> 0 -> concat image <> [] ->
  _filtered (fst (track boxFilter image t)) = Some buf ->
  rectangular buf ->
  forall q, In q (points_array (fst (track boxFilter image t))) ->
            q = (x, y) \/ indexable buf q.
Proof.
  intros Hs Hl Hn Hn0 Himage Hbuf Hrect.
  destruct (np_max_returns image Himage) as [m Hm].
  destruct (track_state boxFilter image t x y tlen n m Hs Hl Hn Hn0 Hm)
    as (pts' & angle & Hchain & _ & E).
  rewrite E in Hbuf |- *. cbn [fst _filtered points_array] in *.
  injection Hbuf as <-.
  pose proof (chain_loop_indexable (_minmax_function t)
                (boxFilter (ksize t) (divide image m))
                (fdiv (of_int tlen) (of_int n)) (x, y) (Z.to_nat n) Hrect x y
                (first_arc (start_angle t)) [(x, y)] ltac:(discriminate)) as H.
  rewrite Hchain in H. apply H. intros q [<-|[]]. now left.
Qed.

(** X22. A configured tracker with [n_points = 0] raises
    [ZeroDivisionError] from [track] after the frame was preprocessed: the
    points of an earlier call stay.  With a negative [n_points] the loop
    runs no iteration: [track] returns the angle of the chain that holds
    the start point only. *)
Theorem track_without_a_step (image : grid F) (t : TailTracker F) (x y tlen : Z) :
  start_point t = Some (x, y) -> tail_length t = Some tlen ->
  concat image <> [] ->
  (n_points t = Some 0 ->
   snd (track boxFilter image t) = Raise ZeroDivisionError /\
   _image (fst (track boxFilter image t)) = Some image /\
   points (fst (track boxFilter image t)) = points t /\
   points_array (fst (track boxFilter image t)) = points_array t /\
   tail_angle (fst (track boxFilter image t)) = tail_angle t) /\
  (forall n, n_points t = Some n -> n < 0 ->
   exists angle,
     snd (track boxFilter image t) = Return (Some angle) /\
     points_array (fst (track boxFilter image t)) = [(x, y)] /\
     compute_tail_angle [(x, y)] (n_tip_points t) (start_angle t) = Return angle).
Proof.
  intros Hs Hl Himage. destruct (np_max_returns image Himage) as [m Hm]. split.
  - intros Hn. rewrite (track_configured boxFilter image t x y tlen 0 Hs Hl Hn), Hm.
    cbv zeta. cbn [Z.eqb fst snd]. repeat split.
  - intros n Hn Hneg.
    destruct (track_state boxFilter image t x y tlen n m Hs Hl Hn ltac:(lia) Hm)
      as (pts' & angle & Hchain & Hangle & E).
    replace (Z.to_nat n) with 0%nat in Hchain by lia. cbn [chain_loop] in Hchain.
    injection Hchain as Hp. rewrite E. cbn [fst snd points_array].
    exists angle. rewrite <- Hp in *. now repeat split.
Qed.

End ChainInBounds.

(** * The initialization widget *)

Section TrackPoints.
Context {F : Type} {FL : Float64 F}.
Variable boxFilter : Z -> grid F -> grid F.

Lemma preprocess_config (image : grid F) (t : TailTracker F) :
  config (fst (preprocess boxFilter image t)) = config t.
Proof. rewrite preprocess_eq. destruct (np_max image); reflexivity. Qed.

Lemma preprocess_points (image : grid F) (t : TailTracker F) :
  points (fst (preprocess boxFilter image t)) = points t.
Proof. rewrite preprocess_eq. destruct (np_max image); reflexivity. Qed.

(** The points that [track] leaves depend on the configuration only, and on
    the points before the call where it writes none. *)
Lemma track_points_config (image : grid F) (t1 t2 : TailTracker F) :
  config t1 = config t2 -> points t1 = points t2 ->
  points (fst (track boxFilter image t1)) = points (fst (track boxFilter image t2)).
Proof.
  intros Hc Hp.
  destruct (config_fields _ _ Hc) as (E1 & E2 & E3 & E4 & E5 & E6 & E7 & E8).
  destruct (configured_dec t1) as [H|(x & y & tlen & n & Hs & Hl & Hn)].
  - rewrite (track_unconfigured boxFilter image t1 H).
    rewrite (track_unconfigured boxFilter image t2); [exact Hp|].
    rewrite <- E1, <- E2, <- E3. exact H.
  - rewrite (track_configured boxFilter image t1 x y tlen n Hs Hl Hn).
    rewrite (track_configured boxFilter image t2 x y tlen n);
      [|congruence|congruence|congruence].
    rewrite <- E4, <- E6, <- E7, <- E8.
    destruct (np_max image) as [m|e]; [|exact Hp]. cbv zeta.
    destruct (n =? 0); [exact Hp|].
    destruct (snd (chain_loop _ _ _ _ _ _ _ _)); [|reflexivity].
    destruct (compute_tail_angle _ _ _); reflexivity.
Qed.

(** Tracking the same image again leaves the same points. *)
Lemma track_points_fixed (image : grid F) (t : TailTracker F) (r : option F) :
  snd (track boxFilter image t) = Return r ->
  points (fst (track boxFilter image (fst (track boxFilter image t)))) =
  points (fst (track boxFilter image t)).
Proof.
  destruct (configured_dec t) as [H|(x & y & tlen & n & Hs & Hl & Hn)].
  - now rewrite !(track_unconfigured boxFilter image t H).
  - intros Hr. destruct (np_max image) as [m|e] eqn:Hm.
    2:{ rewrite (track_configured boxFilter image t x y tlen n Hs Hl Hn), Hm in Hr.
        discriminate. }
    destruct (Z.eq_dec n 0) as [->|Hn0].
    { rewrite (track_configured boxFilter image t x y tlen 0 Hs Hl Hn), Hm in Hr.
      discriminate. }
    destruct (track_state boxFilter image t x y tlen n m Hs Hl Hn Hn0 Hm)
      as (p1 & a1 & Hc1 & Ha1 & E).
    rewrite E. cbn [fst].
    match goal with |- points (fst (track _ _ ?t')) = _ =>
      destruct (track_state boxFilter image t' x y tlen n m) as (p2 & a2 & Hc2 & _ & E2);
        [exact Hs|exact Hl|exact Hn|exact Hn0|exact Hm|]
    end.
    rewrite E2. cbn [fst points _minmax_function ksize start_angle] in *.
    rewrite Hc1 in Hc2. now injection Hc2 as <-.
Qed.

End TrackPoints.

Section WidgetFacts.
Context {F : Type} {FL : Float64 F}.
Variable boxFilter : Z -> grid F -> grid F.
Local Abbreviation W := (Widget.TailInitializationWidget F).

Lemma keeps_bind {A B : Type} (m : M W A) (k : A -> M W B) :
  Widget.keeps_controls m -> (forall a, Widget.keeps_controls (k a)) ->
  Widget.keeps_controls (bind m k).
Proof.
  intros Hm Hk w. unfold bind. specialize (Hm w).
  destruct (m w) as [w' [a|e]]; cbn [fst] in *; [|exact Hm].
  rewrite Hk. exact Hm.
Qed.

Lemma keeps_on_tracker {A : Type} (m : M (TailTracker F) A) :
  (forall t, config (fst (m t)) = config t) ->
  Widget.keeps_controls (Widget.on_tracker m).
Proof.
  intros H w. unfold Widget.on_tracker, Widget.controls. cbn. now rewrite H.
Qed.

Lemma keeps_update_image_data : Widget.keeps_controls (Widget.update_image_data boxFilter).
Proof.
  unfold Widget.update_image_data. apply keeps_bind; [now intros w|]. intros self.
  apply keeps_bind; [|intros img; apply keeps_bind; now intros w].
  destruct (Widget.get_display_image self); [now intros w|].
  apply keeps_on_tracker. intros t. apply preprocess_config.
Qed.

Lemma keeps_update_tracking : Widget.keeps_controls (Widget.update_tracking boxFilter).
Proof.
  unfold Widget.update_tracking. apply keeps_bind; [now intros w|]. intros self.
  destruct (Widget.tracking_checkbox self); [|now intros w].
  destruct (Widget.current_state self); try (now intros w).
  apply keeps_bind; [|intros _; apply keeps_bind; now intros w].
  apply keeps_on_tracker. intros t. apply track_config.
Qed.

Lemma invariant_controls (w w' : W) :
  Widget.controls w = Widget.controls w' -> Widget.invariant w -> Widget.invariant w'.
Proof.
  unfold Widget.controls. intros H.
  remember (config (Widget.tracker w)) as c eqn:Ec.
  remember (config (Widget.tracker w')) as c' eqn:Ec'.
  injection H. intros Hc Hb Hk Hn Hh Ha Hs Hp _ _. subst c c'.
  destruct (config_fields _ _ Hc) as (E1 & E2 & E3 & E4 & E5 & E6 & E7 & E8).
  unfold Widget.invariant, Widget.consistent, Widget.mirrors_controls, Widget.seeded,
    background_in_sync.
  rewrite <- Hp, <- Hs, <- Ha, <- Hh, <- Hn, <- Hk, <- Hb, <- Hc, <- E3, <- E5, <- E6,
    <- E7, <- E8.
  exact (fun x => x).
Qed.

Lemma keeps_invariant {A : Type} (m : M W A) (w : W) :
  Widget.keeps_controls m -> Widget.invariant w -> Widget.invariant (fst (m w)).
Proof. intros Hm. apply invariant_controls. symmetry. apply Hm. Qed.

End WidgetFacts.

Ltac wcbn :=
  cbn [bind get modify ret lift fst snd negb
       Widget.with_image Widget.with_points Widget.with_tracker Widget.with_ret
       Widget.with_current_state Widget.with_accept_button Widget.with_hint_label
       Widget.with_n_points_spinbox Widget.with_ksize_spinbix
       Widget.with_background_combo Widget.with_get_display_image
       Widget.with_tracking_checkbox Widget.with_tracked
       Widget.image Widget.points Widget.tracker Widget.ret Widget.current_state
       Widget.accept_button Widget.hint_label Widget.n_points_spinbox
       Widget.ksize_spinbix Widget.background_combo Widget.get_display_image
       Widget.tracking_checkbox Widget.tracked Widget.state_index].

Section WidgetSteps.
Context {F : Type} {FL : Float64 F}.
Variable boxFilter : Z -> grid F -> grid F.
Local Abbreviation W := (Widget.TailInitializationWidget F).

(** Changing the three parameters of a tracker made by [from_points] gives
    the configuration that [from_points] gives with the new parameters. *)
Lemma config_reparametrized (t : TailTracker F) (p0 p1 : point) (n n' : option Z)
    (bg bg' : string) (k k' tip : Z) :
  config t = config (from_points p0 p1 n bg k tip) ->
  config (set_ksize k' (background_setter bg' (set_n_points n' t))) =
  config (from_points p0 p1 n' bg' k' tip).
Proof.
  intros H. destruct (config_fields _ _ H) as (E1 & E2 & E3 & E4 & E5 & E6 & E7 & E8).
  unfold config. cbn [set_ksize set_n_points background_setter set_background_attrs
    start_point tail_length n_points start_angle _background _minmax_function ksize
    n_tip_points]. rewrite E1, E2, E4, E8. reflexivity.
Qed.

Lemma invariant_seeded_somehow (w : W) : Widget.invariant w -> Widget.seeded_somehow w.
Proof.
  intros (_ & _ & Hs) H. destruct (Hs H) as (p0 & p1 & Hp & Hc).
  now exists p0, p1, (Some (Widget.n_points_spinbox w)),
    (Widget.currentText (Widget.background_combo w)), (Widget.ksize_spinbix w).
Qed.

Lemma keeps_refreshing (r : Widget.refresh) :
  Widget.keeps_controls (Widget.refreshing boxFilter r).
Proof.
  destruct r; cbn [Widget.refreshing].
  - now intros w.
  - apply keeps_update_image_data.
  - apply keeps_update_tracking.
  - apply keeps_bind; [apply keeps_update_image_data|].
    intros _. apply keeps_update_tracking.
Qed.

(** [update_tracker_params] assigns the three parameters, then refreshes. *)
Lemma update_tracker_params_refreshes (w : W) :
  Widget.consistent w ->
  3 <= Widget.n_points_spinbox w <= 51 -> 1 <= Widget.ksize_spinbix w <= 21 ->
  n_tip_points (Widget.tracker w) = 3 ->
  Widget.seeded_somehow w ->
  exists w1,
    Widget.update_tracker_params boxFilter w =
      Widget.refreshing boxFilter Widget.refresh_both w1 /\
    Widget.invariant w1 /\ Widget.image w1 = Widget.image w /\
    Widget.ret w1 = Widget.ret w.
Proof.
  intros Hc Hn Hk Htip Hseed.
  exists (Widget.with_tracker
            (set_ksize (Widget.ksize_spinbix w)
               (background_setter (Widget.currentText (Widget.background_combo w))
                  (set_n_points (Some (Widget.n_points_spinbox w)) (Widget.tracker w))))
            w).
  split; [reflexivity|]. split; [|now split].
  split; [exact Hc|]. split.
  - repeat split; try apply Hn; try apply Hk. exact Htip.
  - intros Hs. destruct (Hseed Hs) as (p0 & p1 & n & bg & k & Hp & Hcfg).
    exists p0, p1. split; [exact Hp|].
    exact (config_reparametrized _ _ _ _ _ _ _ _ _ _ Hcfg).
Qed.

Lemma new_point_refreshes (x y : Z) (w : W) :
  Widget.invariant w ->
  exists r w1,
    Widget.new_point boxFilter x y w = Widget.refreshing boxFilter r w1 /\
    Widget.invariant w1 /\ Widget.image w1 = Widget.image w /\
    Widget.ret w1 = Widget.ret w.
Proof.
  intros Hinv. pose proof Hinv as ((Hlen & Hacc & Hhint) & Hm & Hs).
  destruct w as [img pts t r st acc hint nsp ksp bgc gdi chk trk].
  cbn [Widget.points Widget.current_state Widget.accept_button Widget.hint_label] in *.
  unfold Widget.new_point, Widget.pointAdded, Widget.enter, Widget.entered,
    Widget.initialize_tracker.
  destruct st; cbn [Widget.state_index] in Hlen.
  - destruct pts; [|discriminate]. wcbn.
    change (len (@nil point) <? 2) with true. wcbn.
    eexists Widget.no_refresh, _. split; [reflexivity|].
    split; [|now split].
    split; [|split; [exact Hm|intros H; discriminate H]].
    repeat split. exact Hacc.
  - destruct pts as [|p [|q pts]]; try discriminate. wcbn.
    change (len [p] <? 2) with true. wcbn. cbn [app].
    unfold bind at 1, modify at 1. wcbn.
    eexists Widget.refresh_tracking, _. split; [reflexivity|].
    split; [|now split].
    destruct Hm as (Hn & Hk & _).
    split; [repeat split|split; [repeat split; try apply Hn; try apply Hk|]].
    intros _. exists p, (x, y). split; reflexivity.
  - destruct pts as [|p [|q [|q' pts]]]; try discriminate. wcbn.
    change (len [p; q] <? 2) with false. wcbn.
    eexists Widget.no_refresh, _. split; [reflexivity|]. split; [exact Hinv|now split].
Qed.

Lemma erase_refreshes (w : W) :
  Widget.invariant w ->
  exists r w1,
    Widget.erase boxFilter w = Widget.refreshing boxFilter r w1 /\
    Widget.invariant w1 /\ Widget.image w1 = Widget.image w /\
    Widget.ret w1 = Widget.ret w.
Proof.
  intros Hinv. pose proof Hinv as ((Hlen & Hacc & Hhint) & Hm & Hs).
  destruct w as [img pts t r st acc hint nsp ksp bgc gdi chk trk].
  cbn [Widget.points Widget.current_state Widget.accept_button Widget.hint_label] in *.
  unfold Widget.erase, Widget.pointsErased, Widget.enter, Widget.entered.
  assert (Widget.invariant
            (Widget.mkWidget img [] t r Widget.s0 false (nth 0 Widget.hints EmptyString)
               nsp ksp bgc gdi chk trk)) as H0.
  { split; [|split; [exact Hm|intros H; discriminate H]]. repeat split. }
  destruct st; wcbn.
  - destruct pts; [|discriminate].
    eexists Widget.no_refresh, _. split; [reflexivity|]. split; [exact Hinv|now split].
  - eexists Widget.refresh_tracking, _. split; [reflexivity|]. split; [exact H0|now split].
  - eexists Widget.refresh_tracking, _. split; [reflexivity|]. split; [exact H0|now split].
Qed.

Lemma bound_range (lo hi v : Z) : lo <= hi -> lo <= Widget.bound lo hi v <= hi.
Proof. unfold Widget.bound. lia. Qed.

(** Every slot is some assignments, which keep the invariant, followed by a
    refresh; only [new_image] changes the image, only the accept and cancel
    buttons the return value. *)
Lemma handle_refreshes (e : Widget.event) (w : W) :
  Widget.invariant w ->
  exists r w1,
    Widget.handle boxFilter e w = Widget.refreshing boxFilter r w1 /\
    Widget.invariant w1 /\
    Widget.image w1 = match Widget.frame_of e with
                      | Some img => img
                      | None => Widget.image w
                      end /\
    Widget.ret w1 = match e with
                    | Widget.accept_clicked => Widget.accept_button w || Widget.ret w
                    | Widget.cancel_clicked => false
                    | _ => Widget.ret w
                    end.
Proof.
  intros Hinv. pose proof Hinv as (Hc & Hm & Hs).
  pose proof Hm as (Hn & Hk & _ & _ & _ & _ & Htip).
  pose proof (invariant_seeded_somehow w Hinv) as Hsome.
  assert (forall m : M W unit, m = ret tt ->
            exists r w1, m w = Widget.refreshing boxFilter r w1 /\
              Widget.invariant w1 /\ Widget.image w1 = Widget.image w /\
              Widget.ret w1 = Widget.ret w) as Hsame.
  { intros m ->. exists Widget.no_refresh, w.
    split; [reflexivity|]. split; [exact Hinv|]. split; reflexivity. }
  destruct e as [ev|v|v|i|d| | | |img]; unfold Widget.handle; cbn [Widget.frame_of].
  - unfold Widget.mouse_button_pressed.
    destruct (Widget.inaxes ev); cbn [negb]; [|now apply Hsame].
    destruct (Widget.button ev =? 1); [now apply new_point_refreshes|].
    destruct (Widget.button ev =? 3); [now apply erase_refreshes|now apply Hsame].
  - unfold bind at 1, get at 1.
    destruct (Widget.bound 3 51 v =? Widget.n_points_spinbox w); [now apply Hsame|].
    unfold bind at 1, modify at 1.
    destruct (update_tracker_params_refreshes
                (Widget.with_n_points_spinbox (Widget.bound 3 51 v) w))
      as (w1 & E & Hi & Him & Hr);
      [exact Hc|apply bound_range; lia|exact Hk|exact Htip|exact Hsome|].
    exists Widget.refresh_both, w1. split; [exact E|]. split; [exact Hi|].
    split; [exact Him|exact Hr].
  - unfold bind at 1, get at 1.
    destruct (Widget.bound 1 21 v =? Widget.ksize_spinbix w); [now apply Hsame|].
    unfold bind at 1, modify at 1.
    destruct (update_tracker_params_refreshes
                (Widget.with_ksize_spinbix (Widget.bound 1 21 v) w))
      as (w1 & E & Hi & Him & Hr);
      [exact Hc|exact Hn|apply bound_range; lia|exact Htip|exact Hsome|].
    exists Widget.refresh_both, w1. split; [exact E|]. split; [exact Hi|].
    split; [exact Him|exact Hr].
  - unfold bind at 1, get at 1.
    destruct i, (Widget.background_combo w) eqn:Hbg; try (now apply Hsame);
      unfold bind at 1, modify at 1;
      match goal with |- context [Widget.update_tracker_params _ ?w'] =>
        destruct (update_tracker_params_refreshes w') as (w1 & E & Hi & Him & Hr);
          [exact Hc|exact Hn|exact Hk|exact Htip|exact Hsome|]
      end;
      exists Widget.refresh_both, w1; (split; [exact E|]); (split; [exact Hi|]);
      (split; [exact Him|exact Hr]).
  - unfold bind at 1, get at 1.
    destruct d, (Widget.get_display_image w); try (now apply Hsame);
      unfold Widget.change_displayed_image, bind at 1, modify at 1;
      eexists Widget.refresh_image, _; (split; [reflexivity|]);
      (split; [exact Hinv|now split]).
  - unfold bind at 1, get at 1. unfold bind at 1, modify at 1.
    eexists Widget.refresh_tracking, _. split; [reflexivity|].
    split; [exact Hinv|now split].
  - unfold bind at 1, get at 1.
    destruct (Widget.accept_button w); cbn [orb]; [|now apply Hsame].
    eexists Widget.no_refresh, _. split; [reflexivity|]. split; [exact Hinv|now split].
  - eexists Widget.no_refresh, _. split; [reflexivity|]. split; [exact Hinv|now split].
  - unfold Widget.new_image. unfold bind at 1, modify at 1.
    eexists Widget.refresh_both, _. split; [reflexivity|].
    split; [exact Hinv|now split].
Qed.

Lemma handle_invariant (e : Widget.event) (w : W) :
  Widget.invariant w -> Widget.invariant (fst (Widget.handle boxFilter e w)).
Proof.
  intros Hinv. destruct (handle_refreshes e w Hinv) as (r & w1 & -> & H1 & _).
  apply keeps_invariant; [apply keeps_refreshing|exact H1].
Qed.

Lemma run_invariant (events : list Widget.event) (w : W) :
  Widget.invariant w -> Widget.invariant (fst (Widget.run boxFilter events w)).
Proof.
  revert w. induction events as [|e events IH]; intros w Hinv; [exact Hinv|].
  cbn [Widget.run]. unfold bind.
  pose proof (handle_invariant e w Hinv) as H.
  destruct (Widget.handle boxFilter e w) as [w' [[]|x]]; cbn [fst] in *; [|exact H].
  now apply IH.
Qed.

End WidgetSteps.

Section WidgetSession.
Context {F : Type} {FL : Float64 F}.
Variable boxFilter : Z -> grid F -> grid F.
Local Abbreviation W := (Widget.TailInitializationWidget F).

Lemma keeps_new_image_tail :
  Widget.keeps_controls
    (Widget.update_image_data boxFilter ;;; Widget.update_tracking boxFilter)%method.
Proof.
  apply keeps_bind; [apply keeps_update_image_data|].
  intros _. apply keeps_update_tracking.
Qed.

Lemma controls_fields (w w' : W) :
  Widget.controls w = Widget.controls w' ->
  Widget.image w = Widget.image w' /\ Widget.ret w = Widget.ret w' /\
  Widget.points w = Widget.points w' /\
  Widget.current_state w = Widget.current_state w' /\
  Widget.accept_button w = Widget.accept_button w' /\
  config (Widget.tracker w) = config (Widget.tracker w').
Proof.
  unfold Widget.controls. intros H.
  remember (config (Widget.tracker w)) as c eqn:Ec.
  remember (config (Widget.tracker w')) as c' eqn:Ec'.
  injection H. intros. now subst c c'.
Qed.

(** The constructor assigns the attributes and shows the image;
    [TailTracker(None, None, 10)] and the initial values of the controls
    agree. *)
Lemma constructed_refreshes (img : grid F) :
  exists w0,
    Widget.constructed boxFilter img =
      Widget.refreshing boxFilter Widget.refresh_both w0 /\
    Widget.invariant w0 /\ Widget.current_state w0 = Widget.s0 /\
    Widget.ret w0 = false /\ Widget.image w0 = img.
Proof.
  eexists. split; [reflexivity|]. split; [|now repeat split].
  split; [now repeat split|]. split; [|intros H; discriminate H].
  repeat split; try reflexivity; cbn; lia.
Qed.

Lemma constructed_invariant (img : grid F) :
  Widget.invariant (fst (Widget.constructed boxFilter img)) /\
  Widget.current_state (fst (Widget.constructed boxFilter img)) = Widget.s0 /\
  Widget.ret (fst (Widget.constructed boxFilter img)) = false /\
  Widget.image (fst (Widget.constructed boxFilter img)) = img.
Proof.
  destruct (constructed_refreshes img) as (w0 & -> & Hinv & Hst & Hret & Himg).
  destruct (controls_fields _ _
              (keeps_refreshing boxFilter Widget.refresh_both w0))
    as (E1 & E2 & _ & E4 & _).
  rewrite E1, E2, E4. split; [|now repeat split].
  apply keeps_invariant; [apply keeps_refreshing|exact Hinv].
Qed.

(** Entering [s0] from [s0], as the start of the state machine does. *)
Lemma enter_s0_refreshes (w : W) :
  Widget.invariant w -> Widget.current_state w = Widget.s0 ->
  exists w1,
    Widget.enter boxFilter Widget.s0 w =
      Widget.refreshing boxFilter Widget.refresh_tracking w1 /\
    Widget.invariant w1 /\ Widget.image w1 = Widget.image w /\
    Widget.ret w1 = Widget.ret w.
Proof.
  intros Hinv Hst. eexists. split; [reflexivity|]. split; [|now split].
  destruct Hinv as ((Hlen & Hacc & Hhint) & Hm & Hs).
  destruct w as [img pts t r st acc hint nsp ksp bgc gdi chk trk].
  cbn [Widget.points Widget.current_state Widget.accept_button Widget.hint_label] in *.
  subst st. split; [|split; [exact Hm|intros H; discriminate H]].
  repeat split. exact Hlen.
Qed.

Lemma enter_s0_invariant (w : W) :
  Widget.invariant w -> Widget.current_state w = Widget.s0 ->
  Widget.invariant (fst (Widget.enter boxFilter Widget.s0 w)).
Proof.
  intros Hinv Hst. destruct (enter_s0_refreshes w Hinv Hst) as (w1 & -> & H1 & _).
  apply keeps_invariant; [apply keeps_refreshing|exact H1].
Qed.

Lemma session_invariant (img : grid F) (events : list Widget.event) :
  Widget.invariant (fst (Widget.session boxFilter img events)).
Proof.
  unfold Widget.session.
  destruct (constructed_invariant img) as (Hinv & Hst & _).
  destruct (Widget.constructed boxFilter img) as [w [[]|e]]; cbn [fst] in *;
    [|exact Hinv].
  unfold bind at 1. pose proof (enter_s0_invariant w Hinv Hst) as H.
  destruct (Widget.enter boxFilter Widget.s0 w) as [w' [[]|e]]; cbn [fst] in *;
    [|exact H].
  now apply run_invariant.
Qed.

End WidgetSession.

Section WidgetTracking.
Context {F : Type} {FL : Float64 F}.
Variable boxFilter : Z -> grid F -> grid F.
Local Abbreviation W := (Widget.TailInitializationWidget F).

Lemma sets_bind {A B : Type} (m : M W A) (k : A -> M W B) :
  (forall a, Widget.sets_tracking boxFilter (k a)) ->
  Widget.sets_tracking boxFilter (bind m k).
Proof.
  intros Hk w w' b H. unfold bind in H.
  destruct (m w) as [w1 [a|e]]; [|discriminate]. exact (Hk a w1 w' b H).
Qed.

Lemma sets_update_tracking :
  Widget.sets_tracking boxFilter (Widget.update_tracking boxFilter).
Proof.
  intros w w' u. unfold Widget.update_tracking. unfold bind at 1, get at 1.
  destruct w as [img pts t r st acc hint nsp ksp bgc gdi chk trk]. wcbn.
  assert (forall c s, (c = false \/ s <> Widget.s2) ->
            Widget.shows_tracking boxFilter
              (Widget.mkWidget img pts t r s acc hint nsp ksp bgc gdi c [])) as Hoff.
  { intros c s Hcs. unfold Widget.shows_tracking. wcbn.
    destruct c; [|reflexivity]. destruct s; try reflexivity.
    destruct Hcs as [Hcs|Hcs]; [discriminate|contradiction]. }
  destruct chk.
  2:{ unfold modify. intros H. injection H as <-. apply Hoff. now left. }
  destruct st; try (unfold modify; intros H; injection H as <-; apply Hoff; now right).
  unfold bind at 1, Widget.on_tracker at 1. wcbn.
  destruct (snd (track boxFilter img t)) as [a|e] eqn:Hr; [|discriminate].
  unfold bind, get, modify. wcbn. intros H. injection H as <-.
  unfold Widget.shows_tracking, Widget.tracker_points. wcbn.
  symmetry. exact (track_points_fixed boxFilter img t a Hr).
Qed.

Lemma update_image_data_shows (w w' : W) (u : unit) :
  Widget.shows_tracking boxFilter w ->
  Widget.update_image_data boxFilter w = (w', Return u) ->
  Widget.shows_tracking boxFilter w'.
Proof.
  intros Hs. unfold Widget.update_image_data. unfold bind at 1, get at 1.
  destruct w as [img pts t r st acc hint nsp ksp bgc gdi chk trk]. wcbn.
  destruct gdi.
  - unfold bind at 1, ret at 1. unfold bind, lift, ret.
    destruct (np_max img); [|discriminate]. intros H. now injection H as <-.
  - unfold bind at 1, Widget.on_tracker at 1. wcbn.
    destruct (snd (preprocess boxFilter img t)) as [buf|e]; [|discriminate].
    unfold bind, lift, ret. destruct (np_max buf); [|discriminate].
    intros H. injection H as <-.
    unfold Widget.shows_tracking, Widget.tracker_points in *. wcbn. cbn in Hs.
    rewrite Hs. destruct chk; [|reflexivity]. destruct st; try reflexivity.
    symmetry. apply track_points_config;
      [apply preprocess_config|apply preprocess_points].
Qed.

Lemma sets_update_tracker_params :
  Widget.sets_tracking boxFilter (Widget.update_tracker_params boxFilter).
Proof.
  unfold Widget.update_tracker_params.
  do 5 (apply sets_bind; intros ?). apply sets_update_tracking.
Qed.

Lemma sets_new_image (img : grid F) :
  Widget.sets_tracking boxFilter (Widget.new_image boxFilter img).
Proof.
  unfold Widget.new_image.
  do 2 (apply sets_bind; intros ?). apply sets_update_tracking.
Qed.

Lemma sets_enter_s0 :
  Widget.sets_tracking boxFilter (Widget.enter boxFilter Widget.s0).
Proof.
  unfold Widget.enter, Widget.entered.
  do 3 (apply sets_bind; intros ?). apply sets_update_tracking.
Qed.

Lemma sets_enter_s2 :
  Widget.sets_tracking boxFilter (Widget.enter boxFilter Widget.s2).
Proof.
  unfold Widget.enter, Widget.entered, Widget.initialize_tracker.
  do 4 (apply sets_bind; intros ?).
  destruct (Widget.points _) as [|p0 [|p1 [|p2 pts]]]; try (intros w w' u H; discriminate H).
  apply sets_bind; intros ?. apply sets_update_tracking.
Qed.

Lemma new_point_shows (x y : Z) (w w' : W) (u : unit) :
  Widget.invariant w -> Widget.shows_tracking boxFilter w ->
  Widget.new_point boxFilter x y w = (w', Return u) ->
  Widget.shows_tracking boxFilter w'.
Proof.
  intros ((Hlen & _) & _) Hs.
  unfold Widget.new_point, Widget.pointAdded. unfold bind at 1, get at 1.
  destruct (Widget.current_state w) eqn:Hst; cbn [Widget.state_index] in Hlen.
  - destruct w as [img pts t r st acc hint nsp ksp bgc gdi chk trk].
    cbn [Widget.points Widget.current_state] in *. subst st.
    destruct pts; [|discriminate].
    change (len (@nil point) <? 2) with true. cbv iota.
    unfold Widget.enter, Widget.entered. unfold bind, modify, get. wcbn.
    intros H. injection H as <-.
    unfold Widget.shows_tracking in *. wcbn. cbn in Hs. rewrite Hs.
    now destruct chk.
  - destruct (len (Widget.points w) <? 2).
    + unfold bind at 1, modify at 1. unfold bind at 1, get at 1. wcbn.
      rewrite Hst. apply sets_enter_s2.
    + unfold bind at 1, ret at 1. unfold bind at 1, get at 1.
      rewrite Hst. apply sets_enter_s2.
  - destruct w as [img pts t r st acc hint nsp ksp bgc gdi chk trk].
    cbn [Widget.points Widget.current_state] in *. subst st.
    destruct pts as [|p [|q [|q' pts]]]; try discriminate.
    change (len [p; q] <? 2) with false. cbv iota.
    unfold bind, ret, get. wcbn. intros H. now injection H as <-.
Qed.

Lemma erase_shows (w w' : W) (u : unit) :
  Widget.shows_tracking boxFilter w ->
  Widget.erase boxFilter w = (w', Return u) ->
  Widget.shows_tracking boxFilter w'.
Proof.
  intros Hs. unfold Widget.erase, Widget.pointsErased.
  unfold bind at 1, modify at 1. unfold bind at 1, get at 1.
  destruct w as [img pts t r st acc hint nsp ksp bgc gdi chk trk]. wcbn.
  destruct st.
  - unfold ret. intros H. injection H as <-.
    unfold Widget.shows_tracking in *. wcbn. cbn in Hs. exact Hs.
  - apply sets_enter_s0.
  - apply sets_enter_s0.
Qed.

Lemma handle_shows (e : Widget.event) (w w' : W) (u : unit) :
  Widget.invariant w -> Widget.shows_tracking boxFilter w ->
  Widget.handle boxFilter e w = (w', Return u) ->
  Widget.shows_tracking boxFilter w'.
Proof.
  intros Hinv Hs.
  destruct e as [ev|v|v|i|d| | | |img]; unfold Widget.handle.
  - unfold Widget.mouse_button_pressed.
    destruct (Widget.inaxes ev); cbn [negb];
      [|unfold ret; intros H; now injection H as <-].
    destruct (Widget.button ev =? 1); [now apply new_point_shows|].
    destruct (Widget.button ev =? 3); [now apply erase_shows|].
    unfold ret; intros H; now injection H as <-.
  - unfold bind at 1, get at 1.
    destruct (Widget.bound 3 51 v =? Widget.n_points_spinbox w);
      [unfold ret; intros H; now injection H as <-|].
    unfold bind at 1, modify at 1. apply sets_update_tracker_params.
  - unfold bind at 1, get at 1.
    destruct (Widget.bound 1 21 v =? Widget.ksize_spinbix w);
      [unfold ret; intros H; now injection H as <-|].
    unfold bind at 1, modify at 1. apply sets_update_tracker_params.
  - unfold bind at 1, get at 1.
    destruct i, (Widget.background_combo w);
      try (unfold ret; intros H; now injection H as <-);
      unfold bind at 1, modify at 1; apply sets_update_tracker_params.
  - unfold bind at 1, get at 1.
    destruct d, (Widget.get_display_image w);
      try (unfold ret; intros H; now injection H as <-);
      unfold Widget.change_displayed_image, bind at 1, modify at 1;
      apply update_image_data_shows; exact Hs.
  - unfold bind at 1, get at 1. unfold bind at 1, modify at 1.
    apply sets_update_tracking.
  - unfold bind at 1, get at 1.
    destruct (Widget.accept_button w); unfold Widget.set_retval, modify, ret;
      intros H; injection H as <-; exact Hs.
  - unfold Widget.set_retval, modify. intros H; injection H as <-; exact Hs.
  - apply sets_new_image.
Qed.

Lemma run_shows (events : list Widget.event) (w w' : W) (u : unit) :
  Widget.invariant w -> Widget.shows_tracking boxFilter w ->
  Widget.run boxFilter events w = (w', Return u) ->
  Widget.shows_tracking boxFilter w'.
Proof.
  revert w. induction events as [|e events IH]; intros w Hinv Hs.
  - cbn [Widget.run]. unfold ret. intros H. now injection H as <-.
  - cbn [Widget.run]. unfold bind at 1.
    pose proof (handle_invariant boxFilter e w Hinv) as Hinv'.
    pose proof (handle_shows e w) as Hs'.
    destruct (Widget.handle boxFilter e w) as [w1 [[]|x]]; [|discriminate].
    cbn [fst] in Hinv'. apply IH; [exact Hinv'|]. exact (Hs' w1 tt Hinv Hs eq_refl).
Qed.

Lemma session_shows (img : grid F) (events : list Widget.event) :
  snd (Widget.session boxFilter img events) = Return tt ->
  Widget.shows_tracking boxFilter (fst (Widget.session boxFilter img events)).
Proof.
  unfold Widget.session.
  destruct (constructed_invariant boxFilter img) as (Hinv & Hst & _).
  destruct (Widget.constructed boxFilter img) as [w [[]|e]]; cbn [fst] in *;
    [|discriminate].
  unfold bind at 1 2. pose proof (enter_s0_invariant boxFilter w Hinv Hst) as H.
  pose proof (sets_enter_s0 w) as H0.
  destruct (Widget.enter boxFilter Widget.s0 w) as [w' [[]|e]]; cbn [fst] in *;
    [|discriminate].
  intros Hr. specialize (H0 w' tt eq_refl).
  destruct (Widget.run boxFilter events w') as [w'' r] eqn:Hrun.
  cbn [fst snd] in *. subst r. exact (run_shows events w' w'' tt H H0 Hrun).
Qed.

End WidgetTracking.

Section WidgetReturns.
Context {F : Type} {FL : Float64 F}.
Variable boxFilter : Z -> grid F -> grid F.
Local Abbreviation W := (Widget.TailInitializationWidget F).

Lemma divide_samples (a : grid F) (m : F) : concat a <> [] -> concat (divide a m) <> [].
Proof.
  unfold divide. rewrite <- concat_map. destruct (concat a); [congruence|discriminate].
Qed.

Lemma update_image_data_returns (w : W) :
  Widget.keeps_samples boxFilter -> concat (Widget.image w) <> [] ->
  snd (Widget.update_image_data boxFilter w) = Return tt.
Proof.
  intros Hf Himg. unfold Widget.update_image_data. unfold bind at 1, get at 1.
  destruct (np_max_returns _ Himg) as [m Hm].
  destruct (Widget.get_display_image w).
  - unfold bind, ret, lift. now rewrite Hm.
  - unfold bind at 1, Widget.on_tracker at 1. cbn [fst snd].
    rewrite preprocess_eq, Hm. cbn [fst snd].
    destruct (np_max_returns (boxFilter (ksize (Widget.tracker w))
                                (divide (Widget.image w) m))) as [m' Hm'].
    { apply Hf. now apply divide_samples. }
    unfold bind, lift, ret. now rewrite Hm'.
Qed.

(** With two points the tracker is configured, with the number of points of
    the spin box. *)
Lemma seeded_configured (w : W) :
  Widget.invariant w -> Widget.current_state w = Widget.s2 ->
  exists p0 p1 tlen,
    Widget.points w = [p0; p1] /\
    start_point (Widget.tracker w) = Some p0 /\
    tail_length (Widget.tracker w) = Some tlen /\
    n_points (Widget.tracker w) = Some (Widget.n_points_spinbox w) /\
    3 <= Widget.n_points_spinbox w.
Proof.
  intros (_ & Hm & Hs) Hst. destruct (Hs Hst) as (p0 & p1 & Hp & Hc).
  destruct (config_fields _ _ Hc) as (E1 & E2 & E3 & _).
  exists p0, p1. eexists. split; [exact Hp|]. split; [exact E1|].
  split; [exact E2|]. split; [exact E3|]. apply Hm.
Qed.

Lemma update_tracking_returns (w : W) :
  Widget.invariant w -> concat (Widget.image w) <> [] ->
  snd (Widget.update_tracking boxFilter w) = Return tt.
Proof.
  intros Hinv Himg. unfold Widget.update_tracking. unfold bind at 1, get at 1.
  destruct (Widget.tracking_checkbox w); [|reflexivity].
  destruct (Widget.current_state w) eqn:Hst; try reflexivity.
  destruct (seeded_configured w Hinv Hst) as ([x y] & p1 & tlen & _ & Hs & Hl & Hn & Hn3).
  destruct (np_max_returns _ Himg) as [m Hm].
  destruct (track_returns boxFilter (Widget.image w) (Widget.tracker w) x y tlen
              (Widget.n_points_spinbox w) m Hs Hl Hn ltac:(lia) Hm)
    as (pts' & angle & _ & _ & Hret & _).
  unfold bind at 1, Widget.on_tracker at 1. cbn [fst snd]. rewrite Hret.
  reflexivity.
Qed.

Lemma refreshing_returns (r : Widget.refresh) (w : W) :
  Widget.keeps_samples boxFilter ->
  Widget.invariant w -> concat (Widget.image w) <> [] ->
  snd (Widget.refreshing boxFilter r w) = Return tt.
Proof.
  intros Hf Hinv Himg. destruct r; cbn [Widget.refreshing].
  - reflexivity.
  - now apply update_image_data_returns.
  - now apply update_tracking_returns.
  - unfold bind.
    pose proof (update_image_data_returns w Hf Himg) as H1.
    pose proof (keeps_invariant _ w
                  (keeps_update_image_data boxFilter) Hinv) as H2.
    destruct (controls_fields _ _ (keeps_update_image_data boxFilter w)) as (E1 & _).
    destruct (Widget.update_image_data boxFilter w) as [w1 o]. cbn [fst snd] in *.
    subst o. apply update_tracking_returns; [exact H2|]. now rewrite E1.
Qed.

Lemma refreshing_image (r : Widget.refresh) (w : W) :
  Widget.image (fst (Widget.refreshing boxFilter r w)) = Widget.image w /\
  Widget.ret (fst (Widget.refreshing boxFilter r w)) = Widget.ret w /\
  Widget.current_state (fst (Widget.refreshing boxFilter r w)) = Widget.current_state w.
Proof.
  destruct (controls_fields _ _ (keeps_refreshing boxFilter r w)) as (E1 & E2 & _ & E4 & _).
  now repeat split.
Qed.

Lemma handle_returns (e : Widget.event) (w : W) :
  Widget.keeps_samples boxFilter -> Widget.sound w ->
  (forall img, Widget.frame_of e = Some img -> concat img <> []) ->
  snd (Widget.handle boxFilter e w) = Return tt /\
  Widget.sound (fst (Widget.handle boxFilter e w)).
Proof.
  intros Hf [Hinv Himg] He.
  destruct (handle_refreshes boxFilter e w Hinv) as (r & w1 & -> & H1 & Hi & _).
  assert (concat (Widget.image w1) <> []) as Himg1.
  { rewrite Hi. destruct (Widget.frame_of e); [now apply He|exact Himg]. }
  split; [now apply refreshing_returns|]. split.
  - apply keeps_invariant; [apply keeps_refreshing|exact H1].
  - now rewrite (proj1 (refreshing_image r w1)).
Qed.

Lemma run_returns (events : list Widget.event) (w : W) :
  Widget.keeps_samples boxFilter -> Widget.sound w ->
  (forall img, In (Widget.frame_changed img) events -> concat img <> []) ->
  snd (Widget.run boxFilter events w) = Return tt.
Proof.
  intros Hf. revert w. induction events as [|e events IH]; intros w Hw He;
    [reflexivity|].
  cbn [Widget.run]. unfold bind.
  destruct (handle_returns e w Hf Hw) as [Hr Hw'].
  { intros img Himg. apply He. left. destruct e; try discriminate.
    now injection Himg as ->. }
  destruct (Widget.handle boxFilter e w) as [w' o]. cbn [fst snd] in *. subst o.
  apply IH; [exact Hw'|]. intros img Himg. apply He. now right.
Qed.

Lemma started_returns (img : grid F) :
  Widget.keeps_samples boxFilter -> concat img <> [] ->
  exists w,
    Widget.constructed boxFilter img = (w, Return tt) /\
    exists w',
      Widget.enter boxFilter Widget.s0 w = (w', Return tt) /\ Widget.sound w' /\
      Widget.ret w' = false.
Proof.
  intros Hf Himg.
  destruct (constructed_refreshes boxFilter img) as (w0 & E & Hinv & Hst & Hret & Hi).
  pose proof (refreshing_returns Widget.refresh_both w0 Hf Hinv) as Hr.
  rewrite Hi in Hr. specialize (Hr Himg).
  destruct (refreshing_image Widget.refresh_both w0) as (Ei & Er & Es).
  pose proof (keeps_invariant _ w0
                (keeps_refreshing boxFilter Widget.refresh_both) Hinv) as Hinv1.
  rewrite <- E in *.
  destruct (Widget.constructed boxFilter img) as [w o]. cbn [fst snd] in *. subst o.
  exists w. split; [reflexivity|].
  destruct (enter_s0_refreshes boxFilter w Hinv1) as (w1 & E1 & Hinv2 & Hi2 & Hr2);
    [congruence|].
  pose proof (refreshing_returns Widget.refresh_tracking w1 Hf Hinv2) as Hr1.
  destruct (refreshing_image Widget.refresh_tracking w1) as (Ei1 & Er1 & Es1).
  pose proof (keeps_invariant _ w1
                (keeps_refreshing boxFilter Widget.refresh_tracking) Hinv2) as Hinv3.
  rewrite <- E1 in *.
  destruct (Widget.enter boxFilter Widget.s0 w) as [w' o]. cbn [fst snd] in *.
  exists w'. split; [f_equal; apply Hr1; congruence|].
  split; [split; [exact Hinv3|congruence]|congruence].
Qed.

Lemma session_returns (img : grid F) (events : list Widget.event) :
  Widget.keeps_samples boxFilter -> concat img <> [] ->
  (forall img', In (Widget.frame_changed img') events -> concat img' <> []) ->
  snd (Widget.session boxFilter img events) = Return tt.
Proof.
  intros Hf Himg He.
  destruct (started_returns img Hf Himg) as (w & E & w' & E' & Hw & _).
  unfold Widget.session. rewrite E. unfold bind. rewrite E'.
  now apply run_returns.
Qed.

(** The event loop of [app] sets the return value only when ACCEPT is
    clicked with two points, and stops there. *)
Lemma exec_accepts (events : list Widget.event) (w w' : W) :
  Widget.invariant w -> Widget.ret w = false ->
  Widget.exec boxFilter events w = (w', Return tt) ->
  Widget.invariant w' /\
  (Widget.ret w' = true -> Widget.current_state w' = Widget.s2).
Proof.
  revert w. induction events as [|e events IH]; intros w Hinv Hret.
  - cbn [Widget.exec]. unfold ret. intros H. injection H as <-.
    split; [exact Hinv|]. congruence.
  - cbn [Widget.exec]. unfold bind at 1, get at 1. unfold bind at 1.
    destruct (handle_refreshes boxFilter e w Hinv) as (r & w1 & E & H1 & _ & Hr1).
    destruct (refreshing_image r w1) as (_ & Er & Es).
    pose proof (keeps_invariant _ w1 (keeps_refreshing boxFilter r) H1)
      as Hinv2.
    rewrite <- E in *.
    destruct (Widget.handle boxFilter e w) as [w2 [[]|x]] eqn:Hh; [|discriminate].
    cbn [fst] in *.
    destruct (Widget.closes e w) eqn:Hcl.
    + unfold ret. intros H. injection H as <-. split; [exact Hinv2|].
      intros Ht. destruct e; try discriminate.
      * cbn [Widget.closes] in Hcl. unfold Widget.handle in Hh.
        unfold bind, get in Hh. rewrite Hcl in Hh.
        unfold Widget.set_retval, modify in Hh. injection Hh as <-.
        destruct Hinv as ((_ & Hacc & _) & _).
        cbn [Widget.with_ret Widget.current_state].
        rewrite Hcl in Hacc. now destruct (Widget.current_state w).
      * rewrite Er, Hr1 in Ht. discriminate.
    + apply IH; [exact Hinv2|]. rewrite Er, Hr1.
      destruct e; try exact Hret.
      * cbn [Widget.closes] in Hcl. now rewrite Hcl, Hret.
      * reflexivity.
Qed.

End WidgetReturns.

Section WidgetScenario.
Context {F : Type} {FL : Float64 F}.
Variable boxFilter : Z -> grid F -> grid F.
Local Abbreviation W := (Widget.TailInitializationWidget F).

(** The widget that shows [img] with its state machine started. *)
Lemma started_widget (img : grid F) :
  concat img <> [] ->
  exists w,
    Widget.constructed boxFilter img = (w, Return tt) /\
    Widget.enter boxFilter Widget.s0 w = (w, Return tt) /\
    w = Widget.mkWidget img [] (init None None (Some 10) (of_int 0) "light" 7 3) false
          Widget.s0 false (nth 0 Widget.hints EmptyString) 10 7 Widget.Light_item
          Widget.get_image true [].
Proof.
  intros Himg. destruct (np_max_returns img Himg) as [m Hm].
  eexists. split; [|split; [|reflexivity]].
  - unfold Widget.constructed, Widget.new_image, Widget.update_image_data.
    unfold bind at 1, modify at 1. unfold bind at 1. unfold bind at 1, get at 1.
    wcbn. rewrite Hm. reflexivity.
  - reflexivity.
Qed.

Lemma new_point_eq (x y : Z) (w : W) :
  Widget.new_point boxFilter x y w =
  Widget.pointAdded boxFilter
    (if len (Widget.points w) <? 2
     then Widget.with_points (Widget.points w ++ [(x, y)]) w
     else w).
Proof.
  unfold Widget.new_point. unfold bind at 1, get at 1.
  destruct (len (Widget.points w) <? 2); reflexivity.
Qed.

(** Two left clicks in the axes of a started widget: the tracker is made by
    [from_points] from the two pixels and the initial values of the
    controls, and has tracked the image. *)
Lemma two_clicks (img : grid F) (e0 e1 : Widget.mouse_event F) (w : W) :
  concat img <> [] ->
  Widget.inaxes e0 = true -> Widget.button e0 = 1 ->
  Widget.inaxes e1 = true -> Widget.button e1 = 1 ->
  w = Widget.mkWidget img [] (init None None (Some 10) (of_int 0) "light" 7 3) false
        Widget.s0 false (nth 0 Widget.hints EmptyString) 10 7 Widget.Light_item
        Widget.get_image true [] ->
  let p0 := (to_int (Widget.xdata e0), to_int (Widget.ydata e0)) in
  let p1 := (to_int (Widget.xdata e1), to_int (Widget.ydata e1)) in
  let t := fst (track boxFilter img (from_points p0 p1 (Some 10) "Light" 7 3)) in
  exists w1,
    Widget.handle boxFilter (Widget.button_press_event e0) w = (w1, Return tt) /\
    Widget.handle boxFilter (Widget.button_press_event e1) w1 =
      (Widget.mkWidget img [p0; p1] t false Widget.s2 true
         (nth 2 Widget.hints EmptyString) 10 7 Widget.Light_item Widget.get_image true
         (points t),
       Return tt).
Proof.
  intros Himg Hi0 Hb0 Hi1 Hb1 -> p0 p1 t.
  destruct (np_max_returns img Himg) as [m Hm].
  destruct (track_returns boxFilter img (from_points p0 p1 (Some 10) "Light" 7 3)
              (fst p0) (snd p0) _ 10 m eq_refl eq_refl eq_refl ltac:(lia) Hm)
    as (pts' & angle & _ & _ & Hret & _).
  exists (Widget.mkWidget img [p0] (init None None (Some 10) (of_int 0) "light" 7 3)
            false Widget.s1 false (nth 1 Widget.hints EmptyString) 10 7
            Widget.Light_item Widget.get_image true []).
  split.
  - unfold Widget.handle, Widget.mouse_button_pressed. rewrite Hi0, Hb0.
    reflexivity.
  - unfold Widget.handle, Widget.mouse_button_pressed. rewrite Hi1, Hb1.
    cbn [negb]. change (1 =? 1) with true. cbv iota.
    rewrite new_point_eq. cbn [Widget.points].
    change (len [p0] <? 2) with true. cbv iota.
    unfold Widget.pointAdded, Widget.enter, Widget.entered,
      Widget.initialize_tracker, Widget.update_tracking, Widget.on_tracker.
    cbv beta iota zeta delta
      [bind get modify ret lift app
       Widget.with_image Widget.with_points Widget.with_tracker Widget.with_ret
       Widget.with_current_state Widget.with_accept_button Widget.with_hint_label
       Widget.with_tracked
       Widget.image Widget.points Widget.tracker Widget.ret Widget.current_state
       Widget.accept_button Widget.hint_label Widget.n_points_spinbox
       Widget.ksize_spinbix Widget.background_combo Widget.get_display_image
       Widget.tracking_checkbox Widget.tracked Widget.tracker_points
       Widget.currentText].
    fold p1. rewrite Hret. reflexivity.
Qed.

(** [app] on two left clicks and ACCEPT. *)
Lemma app_two_clicks (img : grid F) (e0 e1 : Widget.mouse_event F) :
  concat img <> [] ->
  Widget.inaxes e0 = true -> Widget.button e0 = 1 ->
  Widget.inaxes e1 = true -> Widget.button e1 = 1 ->
  Widget.app boxFilter img
    [Widget.button_press_event e0; Widget.button_press_event e1; Widget.accept_clicked] =
  Return (true,
          fst (track boxFilter img
                 (from_points (to_int (Widget.xdata e0), to_int (Widget.ydata e0))
                    (to_int (Widget.xdata e1), to_int (Widget.ydata e1))
                    (Some 10) "Light" 7 3))).
Proof.
  intros Himg Hi0 Hb0 Hi1 Hb1.
  destruct (started_widget img Himg) as (w & Hc & He & Hw).
  destruct (two_clicks img e0 e1 w Himg Hi0 Hb0 Hi1 Hb1 Hw) as (w1 & H0 & H1).
  unfold Widget.app. rewrite Hc. unfold bind at 1. rewrite He.
  cbn [Widget.exec]. unfold bind at 1, get at 1. unfold bind at 1. rewrite H0.
  cbn [Widget.closes]. unfold bind at 1, get at 1. unfold bind at 1. rewrite H1.
  reflexivity.
Qed.

(** The session of a widget on two left clicks. *)
Lemma session_two_clicks (img : grid F) (e0 e1 : Widget.mouse_event F) :
  concat img <> [] ->
  Widget.inaxes e0 = true -> Widget.button e0 = 1 ->
  Widget.inaxes e1 = true -> Widget.button e1 = 1 ->
  Widget.current_state
    (fst (Widget.session boxFilter img
            [Widget.button_press_event e0; Widget.button_press_event e1])) = Widget.s2 /\
  snd (Widget.session boxFilter img
         [Widget.button_press_event e0; Widget.button_press_event e1]) = Return tt.
Proof.
  intros Himg Hi0 Hb0 Hi1 Hb1.
  destruct (started_widget img Himg) as (w & Hc & He & Hw).
  destruct (two_clicks img e0 e1 w Himg Hi0 Hb0 Hi1 Hb1 Hw) as (w1 & H0 & H1).
  unfold Widget.session. rewrite Hc. unfold bind at 1 2. rewrite He.
  cbn [Widget.run]. unfold bind at 1 3. rewrite H0.
  unfold bind at 1 2. rewrite H1. split; reflexivity.
Qed.

End WidgetScenario.

Section WidgetTheorems.
Context {F : Type} {FL : Float64 F}.
Variable boxFilter : Z -> grid F -> grid F.
Local Abbreviation W := (Widget.TailInitializationWidget F).

(** X13. Whatever the user does, the widget holds as many clicked points as
    its active state stands for, never more than two; ACCEPT is enabled
    exactly in the state of two points, and the hint is the one of the
    state. *)
Theorem widget_points_accept_and_hint_follow_the_state (img : grid F)
    (events : list Widget.event) :
  let w := fst (Widget.session boxFilter img events) in
  length (Widget.points w) = Widget.state_index (Widget.current_state w) /\
  (length (Widget.points w) <= 2)%nat /\
  (Widget.accept_button w = true <-> Widget.current_state w = Widget.s2) /\
  Widget.hint_label w =
    nth (Widget.state_index (Widget.current_state w)) Widget.hints EmptyString.
Proof.
  intros w. destruct (session_invariant boxFilter img events) as ((Hlen & Hacc & Hh) & _).
  fold w in Hlen, Hacc, Hh. split; [exact Hlen|]. split; [|split; [|exact Hh]].
  - rewrite Hlen. destruct (Widget.current_state w); cbn; lia.
  - rewrite Hacc. destruct (Widget.current_state w); split; congruence.
Qed.

(** X14. Whatever the user does, the tracker of the widget has the number
    of points and the kernel size that the spin boxes show, within their
    ranges, the lowered name of the selected background with the matching
    function, and three tip points. *)
Theorem widget_tracker_has_the_parameters_of_the_controls (img : grid F)
    (events : list Widget.event) :
  let w := fst (Widget.session boxFilter img events) in
  n_points (Widget.tracker w) = Some (Widget.n_points_spinbox w) /\
  3 <= Widget.n_points_spinbox w <= 51 /\
  ksize (Widget.tracker w) = Widget.ksize_spinbix w /\
  1 <= Widget.ksize_spinbix w <= 21 /\
  _background (Widget.tracker w) =
    lower (Widget.currentText (Widget.background_combo w)) /\
  background_in_sync (Widget.tracker w) /\
  n_tip_points (Widget.tracker w) = 3.
Proof.
  intros w. destruct (session_invariant boxFilter img events) as (_ & Hm & _).
  fold w in Hm. destruct Hm as (Hn & Hk & H1 & H2 & H3 & H4 & H5). now repeat split.
Qed.

(** X15. In the state of two points the tracker of the widget is configured
    as [TailTracker.from_points] configures one from the two clicked points
    and the current values of the controls, also after the parameters were
    changed or the points erased and clicked again. *)
Theorem widget_tracker_is_from_points_of_the_clicks (img : grid F)
    (events : list Widget.event) :
  let w := fst (Widget.session boxFilter img events) in
  Widget.current_state w = Widget.s2 ->
  exists p0 p1,
    Widget.points w = [p0; p1] /\
    config (Widget.tracker w) =
    config (from_points p0 p1 (Some (Widget.n_points_spinbox w))
              (Widget.currentText (Widget.background_combo w))
              (Widget.ksize_spinbix w) 3) /\
    start_point (Widget.tracker w) = Some p0.
Proof.
  intros w Hst. destruct (session_invariant boxFilter img events) as (_ & _ & Hs).
  destruct (Hs Hst) as (p0 & p1 & Hp & Hc). exists p0, p1.
  split; [exact Hp|]. split; [exact Hc|].
  now destruct (config_fields _ _ Hc) as (E1 & _).
Qed.

(** X16. When no slot has raised, the tracked line that the widget shows is
    the chain of its tracker on the image shown, if tracking is shown and
    two points are clicked, and it is empty otherwise. *)
Theorem widget_shows_the_tracking_of_the_current_image (img : grid F)
    (events : list Widget.event) :
  let w := fst (Widget.session boxFilter img events) in
  snd (Widget.session boxFilter img events) = Return tt ->
  Widget.tracked w =
  match Widget.tracking_checkbox w, Widget.current_state w with
  | true, Widget.s2 =>
      points (fst (track boxFilter (Widget.image w) (Widget.tracker w)))
  | _, _ => []
  end.
Proof.
  intros w Hr. exact (session_shows boxFilter img events Hr).
Qed.

(** X17. When the first image and every later frame have samples, and the
    filter returns samples when it is given some, no slot of the widget
    raises, whatever the user does. *)
Theorem widget_slots_never_raise (img : grid F) (events : list Widget.event) :
  (forall k a, concat a <> [] -> concat (boxFilter k a) <> []) ->
  concat img <> [] ->
  (forall img', In (Widget.frame_changed img') events -> concat img' <> []) ->
  snd (Widget.session boxFilter img events) = Return tt /\
  concat (Widget.image (fst (Widget.session boxFilter img events))) <> [].
Proof.
  intros Hf Himg He. split; [now apply session_returns|].
  destruct (started_returns boxFilter img Hf Himg) as (w & E & w' & E' & Hw & _).
  unfold Widget.session. rewrite E. unfold bind. rewrite E'.
  clear E E' Himg w. revert w' Hw He.
  induction events as [|e evs IH]; intros w Hw He; [apply Hw|].
  cbn [Widget.run]. unfold bind.
  destruct (handle_returns boxFilter e w Hf Hw) as [Hr Hw'].
  { intros i Hi. apply He. left. destruct e; try discriminate. now injection Hi as ->. }
  destruct (Widget.handle boxFilter e w) as [w' o]. cbn [fst snd] in *. subst o.
  apply IH; [exact Hw'|]. intros i Hi. apply He. now right.
Qed.

(** X18. An image without samples makes the constructor of the widget raise
    [ValueError], and [app] with it. *)
Theorem widget_rejects_an_image_without_samples (img : grid F)
    (events : list Widget.event) :
  concat img = [] ->
  snd (Widget.constructed boxFilter img) = Raise ValueError /\
  snd (Widget.session boxFilter img events) = Raise ValueError /\
  Widget.app boxFilter img events = Raise ValueError.
Proof.
  intros Himg.
  assert (snd (Widget.constructed boxFilter img) = Raise ValueError) as H.
  { unfold Widget.constructed, Widget.new_image, Widget.update_image_data.
    unfold bind at 1, modify at 1. unfold bind at 1. unfold bind at 1, get at 1.
    cbn [Widget.get_display_image Widget.with_image Widget.image].
    unfold bind at 1, ret at 1. unfold bind at 1, lift at 1.
    unfold np_max. rewrite Himg. reflexivity. }
  split; [exact H|]. unfold Widget.session, Widget.app.
  destruct (Widget.constructed boxFilter img) as [w o]. cbn [snd] in H. subst o.
  split; reflexivity.
Qed.

(** X19. [app] returns [True] only with a tracker that is configured as
    [TailTracker.from_points] configures one from two points, with a number
    of points and a kernel size within the ranges of the spin boxes. *)
Theorem app_returns_True_only_with_a_seeded_tracker (img : grid F)
    (events : list Widget.event) (t : TailTracker F) :
  Widget.app boxFilter img events = Return (true, t) ->
  exists p0 p1 n bg k,
    3 <= n <= 51 /\ 1 <= k <= 21 /\
    config t = config (from_points p0 p1 (Some n) (Widget.currentText bg) k 3) /\
    start_point t = Some p0 /\ n_points t = Some n.
Proof.
  unfold Widget.app.
  destruct (constructed_invariant boxFilter img) as (Hinv & Hst & Hret & _).
  destruct (Widget.constructed boxFilter img) as [w [[]|e]]; [|discriminate].
  cbn [fst] in *. unfold bind.
  destruct (enter_s0_refreshes boxFilter w Hinv Hst) as (w1 & E & H1 & _ & Hr1).
  destruct (refreshing_image boxFilter Widget.refresh_tracking w1) as (_ & Er & _).
  pose proof (keeps_invariant _ w1
                (keeps_refreshing boxFilter Widget.refresh_tracking) H1) as Hinv2.
  rewrite <- E in *.
  destruct (Widget.enter boxFilter Widget.s0 w) as [w2 [[]|e]]; [|discriminate].
  cbn [fst] in *.
  destruct (Widget.exec boxFilter events w2) as [w3 [[]|e]] eqn:Hx; [|discriminate].
  intros H. injection H as Hr <-.
  destruct (exec_accepts boxFilter events w2 w3 Hinv2 ltac:(congruence) Hx)
    as [(_ & Hm & Hs) Hacc].
  destruct (Hs (Hacc Hr)) as (p0 & p1 & _ & Hc).
  destruct (config_fields _ _ Hc) as (E1 & _ & E3 & _).
  exists p0, p1, (Widget.n_points_spinbox w3), (Widget.background_combo w3),
    (Widget.ksize_spinbix w3).
  destruct Hm as (Hn & Hk & _). now repeat split.
Qed.

(** X20. Two left clicks in the axes and ACCEPT: [app] returns [True] and
    the tracker that [from_points] makes from the two pixels with ten
    points, the light background and a kernel of seven, after it has tracked
    the image: eleven points from the first pixel. *)
Theorem two_clicks_and_accept_return_the_tracker_of_the_clicks (img : grid F)
    (e0 e1 : Widget.mouse_event F) :
  concat img <> [] ->
  Widget.inaxes e0 = true -> Widget.button e0 = 1 ->
  Widget.inaxes e1 = true -> Widget.button e1 = 1 ->
  let p0 := (to_int (Widget.xdata e0), to_int (Widget.ydata e0)) in
  let p1 := (to_int (Widget.xdata e1), to_int (Widget.ydata e1)) in
  let t := fst (track boxFilter img (from_points p0 p1 (Some 10) "Light" 7 3)) in
  Widget.app boxFilter img
    [Widget.button_press_event e0; Widget.button_press_event e1; Widget.accept_clicked] =
  Return (true, t) /\
  start_point t = Some p0 /\
  len (points_array t) = 11 /\
  nth_error (points_array t) 0 = Some p0 /\
  points t = points_array t.
Proof.
  intros Himg Hi0 Hb0 Hi1 Hb1 p0 p1 t.
  split; [now apply app_two_clicks|].
  destruct (np_max_returns img Himg) as [m Hm].
  destruct (track_returns boxFilter img (from_points p0 p1 (Some 10) "Light" 7 3)
              (fst p0) (snd p0) _ 10 m eq_refl eq_refl eq_refl ltac:(lia) Hm)
    as (pts' & angle & Hlen & _ & _ & Hp & Hpa).
  fold t in Hp, Hpa. rewrite Hp, Hpa.
  split; [|split; [|split; reflexivity]].
  - unfold t.
    now rewrite (proj1 (config_seed _ _ (track_config boxFilter img _))).
  - unfold len. cbn [length]. rewrite Hlen. reflexivity.
Qed.

End WidgetTheorems.

(** * Witnesses of the further properties *)

Lemma background_setter_keeps_function_in_sync_witness :
  isascii "DARK" = true /\
  background_in_sync edge_tracker /\
  _background (background_setter "DARK" edge_tracker) = "dark"%string /\
  _minmax_function (background_setter "DARK" edge_tracker) = np_argmax /\
  background_in_sync (fst (track cv2_boxFilter edge_buffer edge_tracker)) /\
  background_in_sync (fst (preprocess cv2_boxFilter edge_buffer edge_tracker)).
Proof.
  assert (background_in_sync edge_tracker) as Hs by reflexivity.
  destruct (background_setter_keeps_function_in_sync cv2_boxFilter "DARK" edge_tracker
              edge_buffer eq_refl) as (H1 & _ & H3 & _ & _ & _ & _ & H5 & H6).
  split; [reflexivity|]. split; [exact Hs|]. split; [exact H1|].
  split; [exact (proj2 H3 eq_refl)|].
  split; [exact (H5 Hs)|exact (H6 Hs)].
Defined.

Lemma preprocess_overwrites_its_attributes_witness :
  concat edge_buffer <> [] /\
  concat (@nil (list R)) = [] /\
  (exists m,
     np_max edge_buffer = Return m /\
     _normalized (fst (preprocess cv2_boxFilter edge_buffer edge_tracker)) =
       Some (divide edge_buffer m) /\
     map (@length R) (divide edge_buffer m) = map (@length R) edge_buffer /\
     _filtered (fst (preprocess cv2_boxFilter edge_buffer edge_tracker)) =
       Some (cv2_boxFilter (ksize edge_tracker) (divide edge_buffer m)) /\
     snd (preprocess cv2_boxFilter edge_buffer edge_tracker) =
       Return (cv2_boxFilter (ksize edge_tracker) (divide edge_buffer m))) /\
  snd (preprocess cv2_boxFilter [] edge_tracker) = Raise ValueError /\
  _normalized (fst (preprocess cv2_boxFilter [] edge_tracker)) = _normalized edge_tracker /\
  _filtered (fst (preprocess cv2_boxFilter [] edge_tracker)) = _filtered edge_tracker.
Proof.
  split; [discriminate|]. split; [reflexivity|]. split.
  - exact (proj1 (proj2 (proj2 (preprocess_overwrites_its_attributes cv2_boxFilter
                                  edge_buffer edge_tracker)))
             ltac:(discriminate)).
  - exact (proj2 (proj2 (proj2 (preprocess_overwrites_its_attributes cv2_boxFilter
                                  [] edge_tracker)))
             eq_refl).
Defined.

Lemma normalized_maximum_is_1_witness :
  np_max edge_buffer = Return 5%R /\ (0 < 5)%R /\
  np_max (divide edge_buffer 5%R) = Return 1%R /\
  forall v, In v (concat (divide edge_buffer 5%R)) -> (v <= 1)%R.
Proof.
  split; [exact edge_np_max|]. split; [lra|].
  exact (normalized_maximum_is_1 edge_buffer 5 edge_np_max ltac:(lra)).
Defined.

Lemma row_buffer_bad_candidate :
  exists cx cy, In (cx, cy) (candidates 1%R 1 0 (first_arc 0%R)) /\
                ~ (index_ok (width row_buffer) cx /\ index_ok (height row_buffer) cy).
Proof.
  exists 1, 1. split; [rewrite edge_candidates; now left|].
  unfold index_ok. change (height row_buffer) with 1. lia.
Qed.

Lemma failed_step_freezes_the_chain_witness :
  rectangular row_buffer /\
  points (set_points [(1, 0)] edge_tracker) = [] ++ [(1, 0)] /\
  (exists cx cy, In (cx, cy) (candidates 1%R 1 0 (first_arc 0%R)) /\
                 ~ (index_ok (width row_buffer) cx /\ index_ok (height row_buffer) cy)) /\
  track_loop row_buffer 1%R 3 1 0 (first_arc 0%R) (set_points [(1, 0)] edge_tracker) =
  (set_points (points (set_points [(1, 0)] edge_tracker) ++ repeat (1, 0) 3)
     (set_points [(1, 0)] edge_tracker),
   Return tt).
Proof.
  split; [exact row_buffer_rectangular|]. split; [reflexivity|].
  split; [exact row_buffer_bad_candidate|].
  exact (failed_step_freezes_the_chain row_buffer 1%R 3 1 0 (first_arc 0%R)
           (set_points [(1, 0)] edge_tracker) [] (1, 0)
           row_buffer_rectangular eq_refl row_buffer_bad_candidate).
Defined.

Lemma track_leaves_no_stale_attribute_witness :
  start_point edge_tracker = Some (1, 0) /\
  tail_length edge_tracker = Some 1 /\
  n_points edge_tracker = Some 1 /\
  1 <> 0 /\
  concat edge_buffer <> [] /\
  config edge_tracker = config (set_points [(2, 2)] edge_tracker) /\
  track cv2_boxFilter edge_buffer edge_tracker =
    track cv2_boxFilter edge_buffer (set_points [(2, 2)] edge_tracker) /\
  track cv2_boxFilter edge_buffer (fst (track cv2_boxFilter edge_buffer edge_tracker)) =
    track cv2_boxFilter edge_buffer edge_tracker.
Proof.
  do 6 (split; [first [reflexivity|discriminate]|]).
  destruct (track_leaves_no_stale_attribute cv2_boxFilter edge_buffer edge_tracker
              (set_points [(2, 2)] edge_tracker) 1 0 1 1
              eq_refl eq_refl eq_refl ltac:(discriminate) ltac:(discriminate) eq_refl)
    as (H1 & H2 & _).
  split; [exact H1|exact H2].
Defined.

Lemma tail_angle_tip_window_saturates_witness :
  (5 = 0 \/ len short_chain <= 5) /\
  compute_tail_angle short_chain 5 0%R =
  compute_tail_angle short_chain (len short_chain) 0%R.
Proof.
  assert (5 = 0 \/ len short_chain <= 5) as H by (right; unfold len; cbn; lia).
  split; [exact H|].
  exact (proj1 (tail_angle_tip_window_saturates short_chain 5 0%R) H).
Defined.

Lemma chain_points_are_a_step_apart_witness :
  start_point edge_tracker = Some (1, 0) /\
  tail_length edge_tracker = Some 1 /\
  n_points edge_tracker = Some 1 /\
  1 <> 0 /\
  concat edge_buffer <> [] /\
  nth_error (points_array (fst (track cv2_boxFilter edge_buffer edge_tracker))) 0
    = Some (1, 0) /\
  nth_error (points_array (fst (track cv2_boxFilter edge_buffer edge_tracker))) 1
    = Some (1, -1) /\
  step_within (Rabs (1 / 1) + 1) (1, 0) (1, -1).
Proof.
  assert (nth_error (points_array (fst (track cv2_boxFilter edge_buffer edge_tracker))) 0
          = Some (1, 0)) as H0 by (rewrite edge_track; reflexivity).
  assert (nth_error (points_array (fst (track cv2_boxFilter edge_buffer edge_tracker))) 1
          = Some (1, -1)) as H1 by (rewrite edge_track; reflexivity).
  do 5 (split; [first [reflexivity|discriminate]|]).
  split; [exact H0|]. split; [exact H1|].
  exact (chain_points_are_a_step_apart cv2_boxFilter edge_buffer edge_tracker 1 0 1 1
           eq_refl eq_refl eq_refl ltac:(discriminate) ltac:(discriminate)
           0%nat (1, 0) (1, -1) H0 H1).
Defined.

Lemma next_arc_turns_at_most_a_quarter_witness :
  (first_arc 0%R = first_arc 0%R \/ first_arc 0%R = next_arc 0%R) /\
  step_result np_argmin edge_filtered 1%R 1 0 (first_arc 0%R) =
    Return (1, -1, next_arc (PI / 2 + 0)%R) /\
  exists a', next_arc (PI / 2 + 0)%R = next_arc a' /\
             (Rabs (a' - 0) <= PI / 2)%R /\ (0 <= cos (a' - 0))%R.
Proof.
  split; [now left|]. split; [exact edge_step|].
  exact (next_arc_turns_at_most_a_quarter np_argmin edge_filtered 1%R 1 0 0%R
           (first_arc 0%R) 1 (-1) (next_arc (PI / 2 + 0)%R) (or_introl eq_refl) edge_step).
Defined.

Lemma zero_tail_length_keeps_the_chain_at_start_witness :
  start_point still_tracker = Some (1, 0) /\
  tail_length still_tracker = Some 0 /\
  n_points still_tracker = Some 2 /\
  2 <> 0 /\
  concat edge_buffer <> [] /\
  points_array (fst (track cv2_boxFilter edge_buffer still_tracker)) =
    [(1, 0); (1, 0); (1, 0)].
Proof.
  do 5 (split; [first [reflexivity|discriminate]|]).
  exact (proj1 (zero_tail_length_keeps_the_chain_at_start cv2_boxFilter edge_buffer
                  still_tracker 1 0 2 eq_refl eq_refl eq_refl
                  ltac:(discriminate) ltac:(discriminate))).
Defined.

Lemma tail_angle_is_translation_invariant_witness :
  short_chain <> [] /\ 1 <= 1 /\
  compute_tail_angle (map (shift (2, 3)) short_chain) 1 0%R =
  compute_tail_angle short_chain 1 0%R.
Proof.
  split; [discriminate|]. split; [lia|].
  exact (tail_angle_is_translation_invariant short_chain 1 0%R (2, 3)
           ltac:(discriminate) ltac:(lia)).
Defined.

Lemma from_points_tracker_tracks_witness :
  1 <= 2 /\ concat edge_buffer <> [] /\
  track cv2_boxFilter edge_buffer
    (from_points (1, 0) (1, 2) None "Light" 1 1 : TailTracker R) =
    (from_points (1, 0) (1, 2) None "Light" 1 1, Return None) /\
  exists angle,
    snd (track cv2_boxFilter edge_buffer
           (from_points (1, 0) (1, 2) (Some 2) "Light" 1 1 : TailTracker R))
      = Return (Some angle) /\
    len (points_array
           (fst (track cv2_boxFilter edge_buffer
                   (from_points (1, 0) (1, 2) (Some 2) "Light" 1 1 : TailTracker R))))
      = 2 + 1 /\
    nth_error
      (points_array
         (fst (track cv2_boxFilter edge_buffer
                 (from_points (1, 0) (1, 2) (Some 2) "Light" 1 1 : TailTracker R)))) 0
      = Some (1, 0).
Proof.
  split; [lia|]. split; [discriminate|]. split.
  - exact (proj1 (from_points_tracker_tracks cv2_boxFilter (1, 0) (1, 2) None "Light" 1 1
                    edge_buffer) eq_refl).
  - exact (proj1 (proj2 (from_points_tracker_tracks cv2_boxFilter (1, 0) (1, 2) (Some 2)
                           "Light" 1 1 edge_buffer))
             2 eq_refl ltac:(lia) ltac:(discriminate)).
Defined.

Lemma coinciding_points_give_a_still_chain_witness :
  2 <> 0 /\ concat edge_buffer <> [] /\
  tail_length (from_points (1, 0) (1, 0) (Some 2) "Light" 1 1 : TailTracker R) = Some 0 /\
  points_array
    (fst (track cv2_boxFilter edge_buffer
            (from_points (1, 0) (1, 0) (Some 2) "Light" 1 1))) =
    [(1, 0); (1, 0); (1, 0)].
Proof.
  split; [discriminate|]. split; [discriminate|].
  destruct (coinciding_points_give_a_still_chain cv2_boxFilter (1, 0) (1, 0) 2 "Light"
              1 1 edge_buffer) as (H1 & _ & H3).
  split; [exact (proj2 H1 eq_refl)|].
  exact (H3 ltac:(discriminate) ltac:(discriminate)).
Defined.

Lemma chain_points_are_indexable_witness :
  start_point edge_tracker = Some (1, 0) /\
  tail_length edge_tracker = Some 1 /\
  n_points edge_tracker = Some 1 /\
  1 <> 0 /\
  concat edge_buffer <> [] /\
  _filtered (fst (track cv2_boxFilter edge_buffer edge_tracker)) = Some edge_filtered /\
  rectangular edge_filtered /\
  forall q, In q (points_array (fst (track cv2_boxFilter edge_buffer edge_tracker))) ->
            q = (1, 0) \/ indexable edge_filtered q.
Proof.
  assert (_filtered (fst (track cv2_boxFilter edge_buffer edge_tracker)) =
          Some edge_filtered) as Hf.
  { destruct (track_state cv2_boxFilter edge_buffer edge_tracker 1 0 1 1 5%R
                eq_refl eq_refl eq_refl ltac:(discriminate) edge_np_max)
      as (pts' & angle & _ & _ & ->).
    cbn [fst _filtered]. f_equal. exact edge_preprocess. }
  do 5 (split; [first [reflexivity|discriminate]|]).
  split; [exact Hf|]. split; [exact edge_filtered_rectangular|].
  exact (chain_points_are_indexable cv2_boxFilter edge_buffer edge_tracker 1 0 1 1
           edge_filtered eq_refl eq_refl eq_refl ltac:(discriminate) ltac:(discriminate)
           Hf edge_filtered_rectangular).
Defined.

Lemma track_without_a_step_witness :
  start_point zero_points_tracker = Some (1, 0) /\
  tail_length zero_points_tracker = Some 1 /\
  n_points zero_points_tracker = Some 0 /\
  n_points negative_points_tracker = Some (-2) /\
  -2 < 0 /\
  concat edge_buffer <> [] /\
  snd (track cv2_boxFilter edge_buffer zero_points_tracker) = Raise ZeroDivisionError /\
  exists angle,
    snd (track cv2_boxFilter edge_buffer negative_points_tracker) = Return (Some angle) /\
    points_array (fst (track cv2_boxFilter edge_buffer negative_points_tracker)) =
      [(1, 0)] /\
    compute_tail_angle [(1, 0)] (n_tip_points negative_points_tracker)
      (start_angle negative_points_tracker) = Return angle.
Proof.
  do 4 (split; [reflexivity|]). split; [lia|]. split; [discriminate|]. split.
  - exact (proj1 (proj1 (track_without_a_step cv2_boxFilter edge_buffer
                           zero_points_tracker 1 0 1 eq_refl eq_refl
                           ltac:(discriminate)) eq_refl)).
  - exact (proj2 (track_without_a_step cv2_boxFilter edge_buffer
                    negative_points_tracker 1 0 1 eq_refl eq_refl
                    ltac:(discriminate)) (-2) eq_refl ltac:(lia)).
Defined.

Lemma no_filter_keeps_samples (k : Z) (a : grid R) :
  concat a <> [] -> concat (no_filter k a) <> [].
Proof. exact (fun H => H). Qed.

Lemma widget_tracker_is_from_points_of_the_clicks_witness :
  Widget.current_state
    (fst (Widget.session cv2_boxFilter edge_buffer two_left_clicks)) = Widget.s2 /\
  exists p0 p1,
    Widget.points (fst (Widget.session cv2_boxFilter edge_buffer two_left_clicks))
      = [p0; p1] /\
    config (Widget.tracker (fst (Widget.session cv2_boxFilter edge_buffer two_left_clicks)))
      = config (from_points p0 p1
                  (Some (Widget.n_points_spinbox
                           (fst (Widget.session cv2_boxFilter edge_buffer two_left_clicks))))
                  (Widget.currentText
                     (Widget.background_combo
                        (fst (Widget.session cv2_boxFilter edge_buffer two_left_clicks))))
                  (Widget.ksize_spinbix
                     (fst (Widget.session cv2_boxFilter edge_buffer two_left_clicks))) 3) /\
    start_point
      (Widget.tracker (fst (Widget.session cv2_boxFilter edge_buffer two_left_clicks)))
      = Some p0.
Proof.
  assert (Widget.current_state
            (fst (Widget.session cv2_boxFilter edge_buffer two_left_clicks)) = Widget.s2)
    as H.
  { apply (session_two_clicks cv2_boxFilter edge_buffer (left_click 1 0) (left_click 1 2));
      [discriminate|reflexivity..]. }
  split; [exact H|].
  exact (widget_tracker_is_from_points_of_the_clicks cv2_boxFilter edge_buffer
           two_left_clicks H).
Defined.

Lemma widget_shows_the_tracking_of_the_current_image_witness :
  snd (Widget.session cv2_boxFilter edge_buffer two_left_clicks) = Return tt /\
  Widget.tracked (fst (Widget.session cv2_boxFilter edge_buffer two_left_clicks)) =
  match Widget.tracking_checkbox
          (fst (Widget.session cv2_boxFilter edge_buffer two_left_clicks)),
        Widget.current_state
          (fst (Widget.session cv2_boxFilter edge_buffer two_left_clicks)) with
  | true, Widget.s2 =>
      points (fst (track cv2_boxFilter
                     (Widget.image
                        (fst (Widget.session cv2_boxFilter edge_buffer two_left_clicks)))
                     (Widget.tracker
                        (fst (Widget.session cv2_boxFilter edge_buffer two_left_clicks)))))
  | _, _ => []
  end.
Proof.
  assert (snd (Widget.session cv2_boxFilter edge_buffer two_left_clicks) = Return tt) as H.
  { apply (session_two_clicks cv2_boxFilter edge_buffer (left_click 1 0) (left_click 1 2));
      [discriminate|reflexivity..]. }
  split; [exact H|].
  exact (widget_shows_the_tracking_of_the_current_image cv2_boxFilter edge_buffer
           two_left_clicks H).
Defined.

Lemma widget_slots_never_raise_witness :
  (forall k a, concat a <> [] -> concat (no_filter k a) <> []) /\
  concat edge_buffer <> [] /\
  (forall img', In (Widget.frame_changed img')
                  (two_left_clicks ++ [Widget.image_selected Widget.get_diagnostic_image;
                                       Widget.n_points_edited 5;
                                       Widget.frame_changed row_buffer]) ->
                concat img' <> []) /\
  snd (Widget.session no_filter edge_buffer
         (two_left_clicks ++ [Widget.image_selected Widget.get_diagnostic_image;
                              Widget.n_points_edited 5;
                              Widget.frame_changed row_buffer])) = Return tt /\
  concat (Widget.image
            (fst (Widget.session no_filter edge_buffer
                    (two_left_clicks ++
                     [Widget.image_selected Widget.get_diagnostic_image;
                      Widget.n_points_edited 5;
                      Widget.frame_changed row_buffer])))) <> [].
Proof.
  assert (forall img', In (Widget.frame_changed img')
                  (two_left_clicks ++ [Widget.image_selected Widget.get_diagnostic_image;
                                       Widget.n_points_edited 5;
                                       Widget.frame_changed row_buffer]) ->
                concat img' <> []) as H.
  { intros img' [H|[H|[H|[H|[H|[]]]]]]; try discriminate H.
    injection H as <-. discriminate. }
  split; [exact no_filter_keeps_samples|]. split; [discriminate|]. split; [exact H|].
  exact (widget_slots_never_raise no_filter edge_buffer _ no_filter_keeps_samples
           ltac:(discriminate) H).
Defined.

Lemma widget_rejects_an_image_without_samples_witness :
  concat (@nil (list R)) = [] /\
  snd (Widget.constructed cv2_boxFilter []) = Raise ValueError /\
  snd (Widget.session cv2_boxFilter [] two_left_clicks) = Raise ValueError /\
  Widget.app cv2_boxFilter [] two_left_clicks = Raise ValueError.
Proof.
  split; [reflexivity|].
  exact (widget_rejects_an_image_without_samples cv2_boxFilter [] two_left_clicks eq_refl).
Defined.

Lemma app_returns_True_only_with_a_seeded_tracker_witness :
  Widget.app cv2_boxFilter edge_buffer (two_left_clicks ++ [Widget.accept_clicked]) =
    Return (true,
            fst (track cv2_boxFilter edge_buffer
                   (from_points (Rtrunc 1, Rtrunc 0) (Rtrunc 1, Rtrunc 2)
                      (Some 10) "Light" 7 3))) /\
  exists p0 p1 n bg k,
    3 <= n <= 51 /\ 1 <= k <= 21 /\
    config (fst (track cv2_boxFilter edge_buffer
                   (from_points (Rtrunc 1, Rtrunc 0) (Rtrunc 1, Rtrunc 2)
                      (Some 10) "Light" 7 3))) =
    config (from_points p0 p1 (Some n) (Widget.currentText bg) k 3) /\
    start_point (fst (track cv2_boxFilter edge_buffer
                        (from_points (Rtrunc 1, Rtrunc 0) (Rtrunc 1, Rtrunc 2)
                           (Some 10) "Light" 7 3))) = Some p0 /\
    n_points (fst (track cv2_boxFilter edge_buffer
                     (from_points (Rtrunc 1, Rtrunc 0) (Rtrunc 1, Rtrunc 2)
                        (Some 10) "Light" 7 3))) = Some n.
Proof.
  assert (Widget.app cv2_boxFilter edge_buffer (two_left_clicks ++ [Widget.accept_clicked]) =
          Return (true,
                  fst (track cv2_boxFilter edge_buffer
                         (from_points (Rtrunc 1, Rtrunc 0) (Rtrunc 1, Rtrunc 2)
                            (Some 10) "Light" 7 3)))) as H.
  { exact (app_two_clicks cv2_boxFilter edge_buffer (left_click 1 0) (left_click 1 2)
             ltac:(discriminate) eq_refl eq_refl eq_refl eq_refl). }
  split; [exact H|].
  exact (app_returns_True_only_with_a_seeded_tracker cv2_boxFilter edge_buffer _ _ H).
Defined.

Lemma two_clicks_and_accept_return_the_tracker_of_the_clicks_witness :
  concat edge_buffer <> [] /\
  Widget.inaxes (left_click 1 0) = true /\ Widget.button (left_click 1 0) = 1 /\
  Widget.inaxes (left_click 1 2) = true /\ Widget.button (left_click 1 2) = 1 /\
  Widget.app cv2_boxFilter edge_buffer
    [Widget.button_press_event (left_click 1 0);
     Widget.button_press_event (left_click 1 2); Widget.accept_clicked] =
  Return (true,
          fst (track cv2_boxFilter edge_buffer
                 (from_points (Rtrunc 1, Rtrunc 0) (Rtrunc 1, Rtrunc 2)
                    (Some 10) "Light" 7 3))).
Proof.
  split; [discriminate|]. repeat (split; [reflexivity|]).
  exact (proj1 (two_clicks_and_accept_return_the_tracker_of_the_clicks cv2_boxFilter
                  edge_buffer (left_click 1 0) (left_click 1 2)
                  ltac:(discriminate) eq_refl eq_refl eq_refl eq_refl)).
Defined.
